(** * MIDAS: context service (features, one-liner) and gateway, verified against
    their prose specification.

    The three Python modules are embedded shallowly:
    - [services/context_api/app.py]      as [OneLiner],
    - [services/gateway_api/app.py]      as [Gateway],
    - [services/context_api/features.py] as [Features].

    Python values are modelled as the code uses them: a [str] is a list of
    Unicode code points (so that [len], slicing and [strip] count characters,
    not bytes), a [float] is an IEEE binary64 primitive float, an [int] is a
    [Z], a [dict] used as a map is a [gmap], an exception is a value of an
    error type returned instead of the result. *)

From Stdlib Require Import ZArith NArith List Bool Lia String Ascii.
From Stdlib Require Import Sorting.Sorted.
From Stdlib Require Import Floats.PrimFloat Floats.FloatOps Floats.SpecFloat.
From stdpp Require Import gmap list fin_maps sorting.

Set Warnings "-inexact-float".

Local Open Scope Z_scope.

(** ** Python-level helpers *)

Module Py.

(** A Python [str]: its sequence of code points. *)
Abbreviation str := (list N).

(** An ASCII literal of the source, as a [str]. *)
Definition lit (s : string) : str :=
  List.map N_of_ascii (list_ascii_of_string s).

(** [str.isspace] on one character: the code points for which CPython's
    [Py_UNICODE_ISSPACE] holds. *)
Definition isspace (c : N) : bool :=
  ((9 <=? c) && (c <=? 13) || (28 <=? c) && (c <=? 32)
   || (c =? 133) || (c =? 160) || (c =? 5760)
   || (8192 <=? c) && (c <=? 8202)
   || (c =? 8232) || (c =? 8233) || (c =? 8239) || (c =? 8287)
   || (c =? 12288))%N.

Fixpoint lstrip (s : str) : str :=
  match s with
  | c :: r => if isspace c then lstrip r else s
  | [] => []
  end.

Definition rstrip (s : str) : str := rev (lstrip (rev s)).

(** [s.strip()] *)
Definition strip (s : str) : str := rstrip (lstrip s).

(** Truth value of a [str]: non-empty. *)
Definition truthy (s : str) : bool :=
  match s with [] => false | _ => true end.

(** [s or d] on strings. *)
Definition str_or (s d : str) : str := if truthy s then s else d.

(** [(o or "")] where [o] is [None] or a string. *)
Definition or_empty (o : option str) : str :=
  match o with Some s => s | None => [] end.

(** Decimal digits of a non-negative integer, most significant first. *)
Fixpoint digits (fuel : nat) (n : N) (acc : str) : str :=
  let acc' := (48 + n mod 10)%N :: acc in
  match fuel with
  | O => acc'
  | S f => if (n / 10 =? 0)%N then acc' else digits f (n / 10)%N acc'
  end.

(** [str(n)] for an [int]. *)
Definition str_of_int (n : Z) : str :=
  match n with
  | Z0 => [48%N]
  | Zpos p => digits (Pos.to_nat (Pos.size p)) (Npos p) []
  | Zneg p => 45%N :: digits (Pos.to_nat (Pos.size p)) (Npos p) []
  end.

(** [s.replace(old, new)] for a one-character [old]. *)
Definition replace_char (old : N) (new : str) (s : str) : str :=
  List.flat_map (fun c => if (c =? old)%N then new else [c]) s.

(** [s.startswith(p)] *)
Fixpoint startswith (s p : str) : bool :=
  match p, s with
  | [], _ => true
  | c :: p', d :: s' => (c =? d)%N && startswith s' p'
  | _ :: _, [] => false
  end.

(** Truth value of a [float]: anything but zero (a NaN is true). *)
Definition ftruthy (x : float) : bool := negb (PrimFloat.eqb x 0%float).

(** [float(o or 0.0)] where [o] is [None] or a float. *)
Definition float_or_zero (o : option float) : float :=
  match o with
  | Some x => if ftruthy x then x else 0%float
  | None => 0%float
  end.

(** Exceptions [round] raises on a float. *)
Inductive round_error := ValueError | OverflowError.

(** Nearest integer, ties to even, of [m * 2^e] for [m] positive. *)
Definition round_half_even (m : positive) (e : Z) : Z :=
  if 0 <=? e then Z.pos m * 2 ^ e
  else
    let d := 2 ^ (- e) in
    let q := Z.pos m / d in
    let r := Z.pos m mod d in
    match 2 * r ?= d with
    | Lt => q
    | Gt => q + 1
    | Eq => if Z.even q then q else q + 1
    end.

(** [round(x)] on a float, one argument: an [int], or [ValueError] on a NaN
    and [OverflowError] on an infinity. *)
Definition round (x : float) : round_error + Z :=
  match Prim2SF x with
  | S754_zero _ => inr 0
  | S754_infinity _ => inl OverflowError
  | S754_nan => inl ValueError
  | S754_finite s m e =>
      let v := round_half_even m e in inr (if s then - v else v)
  end.

End Py.

(** ** services/context_api/app.py: the one-liner composer *)

Module OneLiner.
Import Py.

(** [class OneLinerIn(BaseModel)]; a ref slot is [None] or a [Dict[str, str]]. *)
Record OneLinerIn := {
  class_ : str;
  confidence : float;
  title : str;
  publisher : str;
  url : str;
  refs : option (list (option (gmap str str)));
}.

(** One entry of [refs_numbers]: [{"n": n, "url": url}]. *)
Record RefNumber := { n : Z; ref_url : str }.

(** The dash that ends the base clause, spelled as the source file spells it:
    the three characters U+00E2 U+20AC U+201D. *)
Definition DASH : str := [226; 8364; 8221]%N.

(** The marker appended on truncation, spelled as the source file spells it:
    the three characters U+00E2 U+20AC U+00A6. *)
Definition ELLIPSIS : str := [226; 8364; 166]%N.

Definition _strategy_phrase (cls : str) : str :=
  let m : gmap str str :=
    <[lit "IRON_CONDOR" := lit "Range-bound, IV watch"]>
    (<[lit "DEBIT_CALL" := lit "Bullish, defined risk"]>
    (<[lit "DEBIT_PUT" := lit "Bearish, defined risk"]>
    (<[lit "COVERED_CALL" := lit "Income; upside capped"]>
    (<[lit "NO_ACTION" := lit "Signal unclear"]> ∅)))) in
  default (lit "Review setup") (m !! cls).

(** [slot and slot.get("url")]: the slot is a non-empty dict whose "url" is a
    non-empty string. *)
Definition slot_url (slot : option (gmap str str)) : option str :=
  match slot with
  | Some d =>
      match d !! lit "url" with
      | Some u => if truthy u then Some u else None
      | None => None
      end
  | None => None
  end.

(** The [for slot in refs[:3]] loop, with its three variables. *)
Fixpoint index_loop (slots : list (option (gmap str str)))
  (nums : list str) (shown : list RefNumber) (k : Z)
  : list str * list RefNumber :=
  match slots with
  | [] => (nums, shown)
  | slot :: rest =>
      match slot_url slot with
      | Some u =>
          index_loop rest
            (nums ++ [lit "[" ++ str_of_int k ++ lit "]"])
            (shown ++ [{| n := k; ref_url := u |}])
            (k + 1)
      | None => index_loop rest nums shown k
      end
  end.

Definition _build_index_suffix (refs : option (list (option (gmap str str))))
  : str * list RefNumber :=
  match refs with
  | None | Some [] => ([], [])
  | Some slots =>
      let '(nums, shown) := index_loop (take 3 slots) [] [] 1 in
      match nums with
      | [] => ([], [])
      | _ => (lit " (" ++ concat nums ++ lit ")", shown)
      end
  end.

(** The response [{"text": text, "refs_numbers": refs_numbers}]. *)
Record OneLinerOut := { text : str; refs_numbers : list RefNumber }.

(** [base = f"{phrase}. Source: {(x.publisher or 'News')} <dash>".strip()] *)
Definition base (x : OneLinerIn) : str :=
  let phrase := _strategy_phrase (class_ x) in
  strip (phrase ++ lit ". Source: " ++ str_or (publisher x) (lit "News")
         ++ lit " " ++ DASH).

(** [conf_pct] is computed first and used nowhere, but [round] raises on a
    product that is not finite; the request then fails without a response. *)
Definition one_liner (x : OneLinerIn) : round_error + OneLinerOut :=
  match round (PrimFloat.mul
                 (if ftruthy (confidence x) then confidence x else 0%float)
                 100%float) with
  | inl e => inl e
  | inr conf_pct =>
      let '(suffix, refs_numbers) := _build_index_suffix (refs x) in
      let text := base x ++ suffix in
      let text :=
        if 180 <? Z.of_nat (length text) then take 177 text ++ ELLIPSIS
        else text in
      inr {| text := text; refs_numbers := refs_numbers |}
  end.

End OneLiner.

(** Vocabulary of the specification of the one-liner, and the inputs of its
    scenarios. *)

Module OneLinerSpec.
Import Py OneLiner.

(** The text before truncation: [f"{base}{suffix}"]. *)
Definition composed (x : OneLinerIn) : str :=
  base x ++ fst (_build_index_suffix (refs x)).

(** [confidence * 100] is a finite float, so that [round] returns. *)
Definition confidence_finite (x : OneLinerIn) : bool :=
  match Prim2SF (PrimFloat.mul
                   (if ftruthy (confidence x) then confidence x else 0%float)
                   100%float) with
  | S754_infinity _ | S754_nan => false
  | _ => true
  end.

(** The URLs of the slots that carry one, in slot order. *)
Definition present_urls (slots : list (option (gmap str str))) : list str :=
  omap slot_url slots.

(** Dense numbering, as the specification words it: the present URLs are
    numbered 1, 2, ... in slot order, whatever their positions. *)
Definition dense_numbering (urls : list str) : list RefNumber :=
  imap (fun i u => {| n := Z.of_nat i + 1; ref_url := u |}) urls.

(** The markers [[1][2]...] for [m] present refs. *)
Definition markers (m : nat) : str :=
  concat (List.map (fun i => lit "[" ++ str_of_int (Z.of_nat i + 1) ++ lit "]")
                   (seq 0 m)).

(** Two requests agree on what the composer reads for its output. *)
Definition agree (x y : OneLinerIn) : Prop :=
  class_ x = class_ y /\ publisher x = publisher y /\ refs x = refs y.

(** A slot [{"url": u}]. *)
Definition url_slot (u : string) : option (gmap str str) :=
  Some {[ lit "url" := lit u ]}.

(** The scenario of the specification: IRON_CONDOR, 0.73, Reuters and the
    slots [[{url: "https://a"}, None, {url: "https://b"}]]. *)
Definition scenario : OneLinerIn :=
  {| class_ := lit "IRON_CONDOR"; confidence := 0.73%float;
     title := []; publisher := lit "Reuters"; url := [];
     refs := Some [url_slot "https://a"; None; url_slot "https://b"] |}.

(** The prefix the specification gives for the scenario, with an em dash
    (U+2014) directly followed by the citation suffix. *)
Definition scenario_prefix_claimed : str :=
  lit "Range-bound, IV watch. Source: Reuters " ++ [8212%N] ++ lit "([1][2])".

(** The same prefix with the dash spelled as in the source. *)
Definition scenario_prefix_unspaced : str :=
  lit "Range-bound, IV watch. Source: Reuters " ++ DASH ++ lit "([1][2])".

(** The same request with a confidence whose hundredfold overflows. *)
Definition scenario_huge_confidence : OneLinerIn :=
  {| class_ := lit "IRON_CONDOR"; confidence := 1e307%float;
     title := []; publisher := lit "Reuters"; url := [];
     refs := Some [url_slot "https://a"; None; url_slot "https://b"] |}.

(** The same request with another confidence, title and url. *)
Definition scenario_other_headline : OneLinerIn :=
  {| class_ := lit "IRON_CONDOR"; confidence := 0.25%float;
     title := lit "Fed holds rates"; publisher := lit "Reuters";
     url := lit "https://c";
     refs := Some [url_slot "https://a"; None; url_slot "https://b"] |}.

(** A request whose publisher is 145 letters, one space and 40 more letters:
    the space is the 177th character of the composed text. *)
Definition spaced_publisher : OneLinerIn :=
  {| class_ := lit "IRON_CONDOR"; confidence := 0.5%float;
     title := [];
     publisher := repeat 97%N 145 ++ [32%N] ++ repeat 98%N 40;
     url := []; refs := None |}.

End OneLinerSpec.

(** ** services/gateway_api/app.py: calls to the upstream services *)

Module Gateway.
Import Py.

(** [TIMEOUT], [RETRIES] and [DELAY], read from the environment at import. *)
Record Config := { TIMEOUT : float; RETRIES : Z; DELAY : float }.

(** The values used when the environment sets none. *)
Definition default_config : Config :=
  {| TIMEOUT := 8%float; RETRIES := 2; DELAY := 0.25%float |}.

Inductive Method := GET | POST.

(** [raise HTTPException(status_code=..., detail=...)] *)
Record HTTPException := { status_code : Z; detail : str }.

(** What a call raises: the [HTTPException] after the loop, or the
    [ValueError] or [OverflowError] of [time.sleep], which leaves the
    handler and the call. *)
Inductive Raised := HTTP (e : HTTPException) | Sleep (e : round_error).

(** [time.sleep(secs)] on a float: it raises [ValueError] on a NaN,
    [OverflowError] on a length whose nanoseconds do not fit 64 signed bits
    (an infinity among them) and [ValueError] on a negative length;
    otherwise it returns. *)
Definition time_sleep (secs : float) : option round_error :=
  if negb (PrimFloat.eqb secs secs) then Some ValueError
  else
    let ns := (secs * 1e9)%float in
    if negb (PrimFloat.leb (-9223372036854775808)%float ns
             && PrimFloat.ltb ns 9223372036854775808%float)
    then Some OverflowError
    else if PrimFloat.ltb secs 0%float then Some ValueError
    else None.

Section Calls.

(** A JSON value: query parameters, request payloads and response bodies. *)
Context {Json : Type}.

(** One request as the client sends it. *)
Record Request := { method : Method; target : str; data : option Json }.

(** One attempt, from sending the request to [r.json()]: the request,
    [raise_for_status] or the decoding raises an exception (given by its
    [str]), or the decoded body is returned. *)
Inductive Outcome := Raises (exc : str) | Returns (body : Json).

(** The network as the gateway sees it: the requests sent so far and the
    sleeps completed so far, oldest first. *)
Record Net := { sent : list Request; slept : list float }.

(** The upstream services: the answer to a request, given how many requests
    were sent before it. *)
Variable upstream : nat -> Request -> Outcome.

Variable cfg : Config.

Definition method_name (m : Method) : str :=
  match m with GET => lit "GET" | POST => lit "POST" end.

(** [f"{last_exc}"] *)
Definition str_of_exc (last_exc : option str) : str :=
  match last_exc with Some e => e | None => lit "None" end.

(** The loop [for _ in range(RETRIES + 1)] of [_get_json] and [_post_json],
    with [todo] iterations left, followed by the [raise] after the loop.
    The handler of a failed attempt sleeps; a sleep that raises ends the
    call there. *)
Fixpoint retry_loop (todo : nat) (req : Request) (last_exc : option str)
  (net : Net) : (Raised + Json) * Net :=
  match todo with
  | O =>
      (inl (HTTP {| status_code := 502;
                    detail := method_name (method req) ++ lit " "
                              ++ target req ++ lit " failed: "
                              ++ str_of_exc last_exc |}),
       net)
  | S todo' =>
      let net1 := {| sent := sent net ++ [req]; slept := slept net |} in
      match upstream (length (sent net)) req with
      | Returns body => (inr body, net1)
      | Raises e =>
          match time_sleep (DELAY cfg) with
          | Some x => (inl (Sleep x), net1)
          | None =>
              retry_loop todo' req (Some e)
                {| sent := sent net1; slept := slept net1 ++ [DELAY cfg] |}
          end
      end
  end.

Definition _get_json (url : str) (params : option Json) (net : Net)
  : (Raised + Json) * Net :=
  retry_loop (Z.to_nat (RETRIES cfg + 1))
    {| method := GET; target := url; data := params |} None net.

Definition _post_json (url : str) (payload : Json) (net : Net)
  : (Raised + Json) * Net :=
  retry_loop (Z.to_nat (RETRIES cfg + 1))
    {| method := POST; target := url; data := Some payload |} None net.

End Calls.

Arguments Request : clear implicits.
Arguments Outcome : clear implicits.
Arguments Net : clear implicits.

(** Stubs of the scenarios: a service that fails twice and then answers, and a
    service that always fails. *)
Definition flaky_stub (k : nat) (req : Request (list N)) : Outcome (list N) :=
  if (k <? 2)%nat then Raises (lit "503 Service Unavailable")
  else Returns (lit "{}").

Definition dead_stub (k : nat) (req : Request (list N)) : Outcome (list N) :=
  Raises (lit "connection refused").

Definition idle : Net (list N) := {| sent := []; slept := [] |}.

(** The default configuration but for a negative delay, as
    [GATEWAY_RETRY_DELAY_S=-1] gives it. *)
Definition negative_delay_config : Config :=
  {| TIMEOUT := 8%float; RETRIES := 2; DELAY := (-1)%float |}.

End Gateway.

(** Vocabulary of the specification of the gateway's retries. *)

Module GatewaySpec.
Import Py Gateway.

Section Outcomes.
Context {Json : Type}.

(** The service fails on the next two requests and answers the third. *)
Definition fails_twice_then (up : nat -> Request Json -> Outcome Json)
  (n0 : nat) (req : Request Json) (body : Json) : Prop :=
  (exists e, up n0 req = Raises e)
  /\ (exists e, up (S n0) req = Raises e)
  /\ up (S (S n0)) req = Returns body.

(** The service fails on every request. *)
Definition always_fails (up : nat -> Request Json -> Outcome Json)
  (req : Request Json) : Prop :=
  forall k, exists e, up k req = Raises e.

(** The call returned [body] after exactly [attempts] identical requests,
    sleeping [delay] between two attempts. *)
Definition returns_after (r : (Raised + Json) * Net Json)
  (net : Net Json) (req : Request Json) (body : Json) (attempts : nat)
  (delay : float) : Prop :=
  r = (inr body,
       {| sent := sent net ++ replicate attempts req;
          slept := slept net ++ replicate (attempts - 1) delay |}).

(** The call raised the upstream failure, status 502, after exactly
    [attempts] identical requests, sleeping [delay] after each. *)
Definition fails_after (r : (Raised + Json) * Net Json)
  (net : Net Json) (req : Request Json) (attempts : nat) (delay : float)
  : Prop :=
  exists d,
    r = (inl (HTTP {| status_code := 502; detail := d |}),
         {| sent := sent net ++ replicate attempts req;
            slept := slept net ++ replicate attempts delay |}).

End Outcomes.

End GatewaySpec.

(** ** services/context_api/features.py: the feature aggregator *)

Module Features.
Import Py.

(** *** Data *)

(** A headline as the news providers return it: a dict with the keys
    "title", "url", "publisher" and "ts"; [None] stands for a key that is
    absent or holds [None].  [h_rest] tells whether the dict holds anything
    else, another key or one of these four with the value [None]: only the
    truth value of the dict depends on it. *)
Record Headline := {
  h_title : option str;
  h_url : option str;
  h_publisher : option str;
  h_ts : option str;
  h_rest : bool;
}.

(** Truth value of a headline: a dict that is not empty. *)
Definition nonempty (h : Headline) : bool :=
  match h_title h, h_url h, h_publisher h, h_ts h with
  | None, None, None, None => h_rest h
  | _, _, _, _ => true
  end.

(** A ref as [_merge_refs] builds it. *)
Record Ref := { title : str; publisher : str; url : str }.

(** A quote as the quote providers return it, any field possibly absent. *)
Record ProviderQuote := {
  q_last : option float;
  q_bid : option float;
  q_ask : option float;
}.

(** One bar of the candle provider. *)
Record Candle := {
  open : float;
  high : float;
  low : float;
  close : float;
  volume : Z;
}.

Inductive Quality := real | estimated | unknown.

(** The "quote" entry of a payload. *)
Record Quote := {
  last : float;
  bid : option float;
  ask : option float;
  quality : Quality;
}.

(** The "features" entry of a payload. *)
Record Feats := {
  sent_mean : float;
  sent_std : float;
  r_1m : float;
  r_5m : float;
  above_sma20_ : bool;
  mins_since_news : Z;
  rv20 : float;
  earnings_soon : bool;
  liquidity_flag : bool;
}.

Record Payload := {
  features : Feats;
  top_headline : option Headline;
  refs : list (option Ref);
  refs_sources : list str;
  error : option str;
  quote : Quote;
  ts : str;
}.

(** Exceptions: the two provider errors the aggregator names, and any other
    [Exception]; [exn_str] is [str(e)] and [exn_repr] is [repr(e)]. *)
Inductive ExnClass := FHError | TiError | OtherError.

Record Exn := { exn_class : ExnClass; exn_str : str; exn_repr : str }.

(** What the module imports and this development takes as given: the three
    indicators of [indicators.py] and two functions of the Python library.
    An indicator returns a value or raises. *)
Class Externals := {
  atr_normalized : list float -> list float -> list float -> Z -> Exn + float;
  ret_pct : list float -> Z -> Exn + float;
  above_sma20 : list float -> Exn + bool;
  (** [datetime.fromisoformat(s)] as the instant it denotes, in microseconds
      since the epoch, a datetime without offset being read as UTC; [None]
      when it raises.  With an offset the instant may fall before year 1 or
      after year 9999, outside what a [datetime] in UTC can hold. *)
  fromisoformat : str -> option Z;
  (** The built-in [sum] on a list of floats. *)
  sum_floats : list float -> float;
}.

(** The outside world during one request: the environment variable, the
    successive readings of [datetime.now(timezone.utc)] in microseconds since
    the epoch, and what each provider answers. *)
Record World := {
  LIVE_PROVIDERS : option str;
  now : nat -> Z;
  fetch_headlines : str -> Z -> Exn + list Headline;
  fetch_headlines_yahoo : str -> Z -> Exn + list Headline;
  post_sentiment : list str -> Exn + (option float * option float);
  fetch_quote_tiingo : str -> Exn + ProviderQuote;
  fetch_candles_tiingo : str -> Z -> str -> Exn + list Candle;
  fetch_quote_finnhub : str -> Exn + ProviderQuote;
  fetch_earnings_finnhub : str -> Exn + option str;
}.

(** What the aggregator does to the outside, in order. *)
Inductive Event :=
| CallHeadlines (ticker : str)
| CallHeadlinesYahoo (ticker : str)
| CallSentiment (texts : list str)
| CallQuoteTiingo (ticker : str)
| CallCandlesTiingo (ticker : str)
| CallQuoteFinnhub (ticker : str)
| CallEarnings (ticker : str)
| CacheGet (ticker : str)
| CachePut (ticker : str).

(** The process-wide state: how many times the clock was read, the quote
    rings, the feature cache, and the events so far. *)
Record State := {
  reads : nat;
  _QUOTE_RING : gmap str (list (Z * float));
  cache : gmap str Payload;
  events : list Event;
}.

Definition initial : State :=
  {| reads := 0; _QUOTE_RING := ∅; cache := ∅; events := [] |}.

(** *** Computations that read the clock, change the state and may raise *)

Definition M (A : Type) : Type := State -> (Exn + A) * State.

Definition ret {A} (a : A) : M A := fun s => (inr a, s).

Definition raise {A} (e : Exn) : M A := fun s => (inl e, s).

Definition bind {A B} (m : M A) (k : A -> M B) : M B :=
  fun s =>
    match m s with
    | (inr a, s') => k a s'
    | (inl e, s') => (inl e, s')
    end.

(** [try: m] with the exception, if any, handed to the caller as a value. *)
Definition attempt {A} (m : M A) : M (Exn + A) :=
  fun s => let '(r, s') := m s in (inr r, s').

Definition lift {A} (r : Exn + A) : M A := fun s => (r, s).

Definition emit (e : Event) : M unit :=
  fun s =>
    (inr tt,
     {| reads := reads s; _QUOTE_RING := _QUOTE_RING s; cache := cache s;
        events := events s ++ [e] |}).

(** A call to a provider: the event, then its answer. *)
Definition call {A} (e : Event) (answer : Exn + A) : M A :=
  bind (emit e) (fun _ => lift answer).

Declare Scope m_scope.
Delimit Scope m_scope with M.
Notation "x <- m ;; k" := (bind m (fun x => k))
  (at level 100, m at next level, right associativity) : m_scope.
Local Open Scope m_scope.

(** *** Dates *)

Definition MINUTE : Z := 60000000.
Definition DAY : Z := 86400000000.

(** [str(n)] padded with zeros to [w] digits. *)
Definition zero_pad (w : nat) (n : Z) : str :=
  let d := str_of_int n in replicate (w - length d) 48%N ++ d.

(** Year, month and day of the proleptic Gregorian calendar from the number
    of days since 1970-01-01. *)
Definition civil_from_days (z : Z) : Z * Z * Z :=
  let z := z + 719468 in
  let era := z / 146097 in
  let doe := z - era * 146097 in
  let yoe := (doe - doe / 1460 + doe / 36524 - doe / 146096) / 365 in
  let doy := doe - (365 * yoe + yoe / 4 - yoe / 100) in
  let mp := (5 * doy + 2) / 153 in
  let d := doy - (153 * mp + 2) / 5 + 1 in
  let m := if mp <? 10 then mp + 3 else mp - 9 in
  ((yoe + era * 400) + (if m <=? 2 then 1 else 0), m, d).

(** [d.isoformat(timespec="seconds").replace("+00:00", "Z")] for an instant
    [d] in UTC. *)
Definition isoformat_seconds (us : Z) : str :=
  let secs := us / 1000000 in
  let sod := secs mod 86400 in
  let '(y, m, d) := civil_from_days (secs / 86400) in
  zero_pad 4 y ++ lit "-" ++ zero_pad 2 m ++ lit "-" ++ zero_pad 2 d
  ++ lit "T" ++ zero_pad 2 (sod / 3600) ++ lit ":"
  ++ zero_pad 2 (sod mod 3600 / 60) ++ lit ":" ++ zero_pad 2 (sod mod 60)
  ++ lit "Z".

Section Aggregator.
Context {ext : Externals}.
Variable w : World.

(** [datetime.now(timezone.utc)] *)
Definition datetime_now : M Z :=
  fun s =>
    (inr (now w (reads s)),
     {| reads := S (reads s); _QUOTE_RING := _QUOTE_RING s; cache := cache s;
        events := events s |}).

Definition iso_now : M str :=
  t <- datetime_now ;; ret (isoformat_seconds t).

(** The instants a [datetime] can hold, 0001-01-01T00:00:00 and
    9999-12-31T23:59:59.999999, in microseconds since the epoch. *)
Definition DATETIME_MIN : Z := -62135596800000000.
Definition DATETIME_MAX : Z := 253402300799999999.

(** The [OverflowError] of [astimezone] on an instant out of range. *)
Definition date_out_of_range : Exn :=
  {| exn_class := OtherError; exn_str := lit "date value out of range";
     exn_repr := lit "OverflowError('date value out of range')" |}.

(** The [try] covers [fromisoformat] only: [d.astimezone(timezone.utc)]
    comes after it and raises on an instant out of range. *)
Definition _parse_iso_aware (s : str) : M Z :=
  if negb (truthy s) then datetime_now
  else
    let s2 := replace_char 90%N (lit "+00:00") s in
    match fromisoformat s2 with
    | None => datetime_now
    | Some d =>
        if (d <? DATETIME_MIN) || (DATETIME_MAX <? d)
        then raise date_out_of_range
        else ret d
    end.

(** *** The quote ring *)

(** [ring.append(x)] on a [deque(maxlen=maxlen)]. *)
Definition deque_append {A} (maxlen : nat) (ring : list A) (x : A) : list A :=
  let r := ring ++ [x] in drop (length r - maxlen) r.

(** [while ring and ring[0][0] < cut: ring.popleft()] *)
Fixpoint popleft_while (cut : Z) (ring : list (Z * float))
  : list (Z * float) :=
  match ring with
  | (t, px) :: rest => if t <? cut then popleft_while cut rest else ring
  | [] => []
  end.

Definition get_ring (ticker : str) : M (option (list (Z * float))) :=
  fun s => (inr (_QUOTE_RING s !! ticker), s).

Definition set_ring (ticker : str) (ring : list (Z * float)) : M unit :=
  fun s =>
    (inr tt,
     {| reads := reads s; _QUOTE_RING := <[ticker := ring]> (_QUOTE_RING s);
        cache := cache s; events := events s |}).

Definition _note_quote (ticker : str) (last : float) : M unit :=
  r <- get_ring ticker ;;
  let ring := default [] r in
  t <- datetime_now ;;
  let ring := deque_append 600 ring (t, last) in
  _ <- set_ring ticker ring ;;
  t' <- datetime_now ;;
  let cut := t' - 10 * MINUTE in
  set_ring ticker (popleft_while cut ring).

(** [for ts, px in reversed(ring): base = px; if ts <= cutoff: break],
    on the ring already reversed. *)
Fixpoint scan_base (cutoff : Z) (rring : list (Z * float))
  (base : option float) : option float :=
  match rring with
  | [] => base
  | (t, px) :: rest =>
      if t <=? cutoff then Some px else scan_base cutoff rest (Some px)
  end.

Definition _ret_from_ring (ticker : str) (minutes : Z) : M float :=
  r <- get_ring ticker ;;
  match r with
  | None | Some [] => ret 0%float
  | Some ring =>
      t <- datetime_now ;;
      let cutoff := t - minutes * MINUTE in
      match scan_base cutoff (rev ring) None with
      | None => ret 0%float
      | Some base =>
          if PrimFloat.eqb base 0%float then ret 0%float
          else
            let last := snd (List.last ring (0, 0%float)) in
            ret (if ftruthy base
                 then PrimFloat.div (PrimFloat.sub last base) base
                 else 0%float)
      end
  end.

(** *** Synthetic features *)

Definition synthetic_closes : list float :=
  [100; 101; 102; 103; 103; 104; 105; 104; 103; 102; 103; 104; 103; 102; 101;
   100; 99; 99; 100; 101; 102]%float.

Definition synthetic_highs : list float :=
  [101; 102; 103; 104; 104; 105; 106; 105; 104; 103; 104; 105; 104; 103; 102;
   101; 100; 100; 101; 102; 103]%float.

Definition synthetic_lows : list float :=
  [99; 100; 101; 102; 102; 103; 104; 103; 102; 101; 102; 103; 102; 101; 100;
   99; 98; 98; 99; 100; 101]%float.

(** [max(x, lo)] and [min(x, hi)] as Python compares: the first argument is
    kept unless the second is strictly beyond it. *)
Definition py_max (x lo : float) : float :=
  if PrimFloat.ltb x lo then lo else x.

Definition py_min (x hi : float) : float :=
  if PrimFloat.ltb hi x then hi else x.

(** [float(min(max(rv20, 0.02), 0.80))] *)
Definition clamp_rv20 (rv20 : float) : float :=
  py_min (py_max rv20 0.02%float) 0.80%float.

(** Sequencing of pure computations that may raise. *)
Definition and_then {A B} (r : Exn + A) (k : A -> Exn + B) : Exn + B :=
  match r with inr a => k a | inl e => inl e end.

Definition _synthetic_feats : Exn + Feats :=
  and_then (atr_normalized synthetic_highs synthetic_lows synthetic_closes 20)
    (fun rv20 =>
  and_then (ret_pct synthetic_closes 1) (fun r_1m =>
  and_then (ret_pct synthetic_closes 5) (fun r_5m =>
  and_then (above_sma20 synthetic_closes) (fun above =>
  inr {| sent_mean := 0%float; sent_std := 0.05%float;
         r_1m := r_1m; r_5m := r_5m;
         above_sma20_ := above;
         mins_since_news := 12;
         rv20 := clamp_rv20 rv20;
         earnings_soon := false;
         liquidity_flag := true |})))).

Definition build_features_stub : Exn + Feats := _synthetic_feats.

(** *** Sentiment *)

(** [[h.get("title","").strip() for h in headlines if h.get("title")]],
    then the non-empty ones. *)
Definition sentiment_titles (headlines : list Headline) : list str :=
  List.filter truthy
    (omap (fun h => match h_title h with
                    | Some t => if truthy t then Some (strip t) else None
                    | None => None
                    end) headlines).

Definition _sent_from_headlines (headlines : list Headline)
  : M (float * float) :=
  let titles := sentiment_titles headlines in
  match titles with
  | [] => ret (0%float, 0.05%float)
  | _ =>
      r <- attempt (call (CallSentiment (take 8 titles))
                         (post_sentiment w (take 8 titles))) ;;
      match r with
      | inr (mean, std) =>
          ret (default 0%float mean, default 0.05%float std)
      | inl _ => ret (0%float, 0.05%float)
      end
  end.

(** *** Refs *)

(** The inner loop of [_merge_refs] over one list, from the [seen] set and
    the [out] list so far; it stops once [out] holds 3 refs. *)
Fixpoint merge_scan (lst : list Headline) (seen : gset str) (out : list Ref)
  : gset str * list Ref :=
  match lst with
  | [] => (seen, out)
  | h :: rest =>
      let title := strip (or_empty (h_title h)) in
      let url := strip (or_empty (h_url h)) in
      let pub := strip (or_empty (h_publisher h)) in
      if negb (truthy title) || negb (truthy url) then merge_scan rest seen out
      else if decide (url ∈ seen) then merge_scan rest seen out
      else
        let seen := {[url]} ∪ seen in
        let out :=
          out ++ [{| title := title; publisher := str_or pub (lit "News");
                     url := url |}] in
        if (3 <=? length out)%nat then (seen, out)
        else merge_scan rest seen out
  end.

(** Merge finnhub + yahoo refs, de-dup by URL, keep order, take up to 3. *)
Definition _merge_refs (ticker : str) (fn yh : list Headline) : list Ref :=
  let '(seen, out) := merge_scan fn ∅ [] in
  if (3 <=? length out)%nat then out
  else snd (merge_scan yh seen out).

(** [while len(refs) < 3: refs.append(None)] *)
Definition pad_refs (refs : list Ref) : list (option Ref) :=
  (Some <$> refs) ++ replicate (3 - length refs) None.

(** *** The feature cache *)

(** Modelled from the spec: [get_cached] of [cache.py], whose code is not
    available.  The cache maps a ticker to the last payload written for it,
    with no expiry; [get_cached] is a lookup. *)
Definition get_cached (ticker : str) : M (option Payload) :=
  _ <- emit (CacheGet ticker) ;;
  fun s => (inr (cache s !! ticker), s).

(** Modelled from the spec: [put_cached] of [cache.py], whose code is not
    available.  It creates or overwrites the entry of the ticker. *)
Definition put_cached (ticker : str) (payload : Payload) : M unit :=
  _ <- emit (CachePut ticker) ;;
  fun s =>
    (inr tt,
     {| reads := reads s; _QUOTE_RING := _QUOTE_RING s;
        cache := <[ticker := payload]> (cache s); events := events s |}).

(** *** build_features_for, section by section *)

(** [l[-k:]] *)
Definition tail_slice {A} (k : nat) (l : list A) : list A :=
  match k with O => l | _ => drop (length l - k) l end.

(** [f"news: {e}"] and the like. *)
Definition tagged (tag : string) (body : str) : str := lit tag ++ body.

(** Headlines: Finnhub then Yahoo, with the diagnostics of the failures.
    Returns [error], [fh] and [yh]. *)
Definition headlines_section (ticker : str)
  : M (option str * list Headline * list Headline) :=
  r <- attempt (call (CallHeadlines ticker) (fetch_headlines w ticker 5)) ;;
  x <- match r with
       | inr fh => ret (None, fh)
       | inl e =>
           match exn_class e with
           | FHError => ret (Some (tagged "news: " (exn_str e)), [])
           | _ => raise e
           end
       end ;;
  let '(error, fh) := x in
  r <- attempt (call (CallHeadlinesYahoo ticker)
                     (fetch_headlines_yahoo w ticker 5)) ;;
  match r with
  | inr yh => ret (error, fh, yh)
  | inl e =>
      let error :=
        match error with
        | Some err => Some (err ++ tagged "; yahoo: " (exn_str e))
        | None => Some (tagged "yahoo: " (exn_str e))
        end in
      ret (error, fh, [])
  end.

(** [float(o or 0.0) or None] *)
Definition observed (o : option float) : option float :=
  let v := float_or_zero o in if ftruthy v then Some v else None.

(** Quotes: the last price with its fallbacks, the note in the ring, and the
    bid and ask, observed or estimated.  Returns [last_px], [bid_disp],
    [ask_disp] and [quality]. *)
Definition quotes_section (ticker : str) (quote_ti : ProviderQuote)
  (candles : list Candle) : M (float * float * float * Quality) :=
  let last_px := float_or_zero (q_last quote_ti) in
  let last_px :=
    match candles with
    | [] => last_px
    | c :: cs =>
        if PrimFloat.eqb last_px 0%float then close (List.last cs c)
        else last_px
    end in
  let bid_disp := observed (q_bid quote_ti) in
  let ask_disp := observed (q_ask quote_ti) in
  let quality :=
    match bid_disp, ask_disp with
    | Some _, Some _ => if PrimFloat.ltb 0%float last_px then real else unknown
    | _, _ => unknown
    end in
  last_px <-
    (if PrimFloat.leb last_px 0%float then
       r <- attempt (call (CallQuoteFinnhub ticker)
                          (fetch_quote_finnhub w ticker)) ;;
       match r with
       | inr qfh =>
           match q_last qfh with
           | Some l => ret (if ftruthy l then l else last_px)
           | None => ret last_px
           end
       | inl _ => ret last_px
       end
     else ret last_px) ;;
  let last_px := if PrimFloat.leb last_px 0%float then 1%float else last_px in
  _ <- _note_quote ticker last_px ;;
  match bid_disp, ask_disp with
  | Some b, Some a =>
      if PrimFloat.leb a b then
        let half := ((8 / 1e4) * last_px * 0.5)%float in
        ret (last_px, (last_px - half)%float, (last_px + half)%float,
             estimated)
      else ret (last_px, b, a, quality)
  | _, _ =>
      let half := ((8 / 1e4) * last_px * 0.5)%float in
      ret (last_px, (last_px - half)%float, (last_px + half)%float, estimated)
  end.

(** The [max] of the parsed timestamps, read in list order. *)
Fixpoint latest_of (pool : list str) (acc : option Z) : M (option Z) :=
  match pool with
  | [] => ret acc
  | s :: rest =>
      t <- _parse_iso_aware s ;;
      latest_of rest (Some (match acc with
                            | Some a => Z.max a t
                            | None => t
                            end))
  end.

(** Minutes since the latest headline, capped at 240.  The pool is empty when
    both lists are, so the test [if fh or yh] needs no case of its own.
    [int(delta.total_seconds() // 60)] is the floor of the difference in
    microseconds by one minute; the float [total_seconds()] is exact for
    differences below 2^53 microseconds. *)
Definition news_age_section (fh yh : list Headline) : M Z :=
  let pool :=
    omap (fun p => match h_ts p with
                   | Some s => if truthy s then Some s else None
                   | None => None
                   end) (fh ++ yh) in
  mins_since_news <-
    (l <- latest_of pool None ;;
     match l with
     | None => ret 9999
     | Some latest =>
         t <- datetime_now ;;
         ret ((t - latest) / MINUTE)
     end) ;;
  ret (if 240 <? mins_since_news then 240 else mins_since_news).

(** [series + [pad_val] * max(0, n - len(series))] *)
Definition _pad (series : list float) (n : nat) (pad_val : float)
  : list float :=
  series ++ replicate (n - length series) pad_val.

(** Returns and volatility.  Returns [r_1m], [r_5m], [rv20] before its clamp
    and [above]. *)
Definition returns_section (ticker : str) (candles : list Candle)
  (last_px : float) : M (float * float * float * bool) :=
  if (2 <=? length candles)%nat then
    let closes := List.map close candles in
    let highs := List.map high candles in
    let lows := List.map low candles in
    r_1m <- (if (2 <=? length closes)%nat then lift (ret_pct closes 1)
             else _ret_from_ring ticker 1) ;;
    r_5m <- (if (6 <=? length closes)%nat then lift (ret_pct closes 5)
             else _ret_from_ring ticker 5) ;;
    let series := tail_slice 120 closes in
    let pad_val := List.last series last_px in
    let series :=
      if (length series <? 21)%nat then _pad series 21 pad_val else series in
    let hseg :=
      tail_slice (length series)
                 (match highs with [] => [pad_val] | _ => highs end) in
    let lseg :=
      tail_slice (length series)
                 (match lows with [] => [pad_val] | _ => lows end) in
    rv20 <- lift (atr_normalized hseg lseg series 20) ;;
    let above :=
      PrimFloat.ltb (sum_floats (tail_slice 20 series) / 20)%float
                    (List.last series 0%float) in
    ret (r_1m, r_5m, rv20, above)
  else
    r_1m <- _ret_from_ring ticker 1 ;;
    r_5m <- _ret_from_ring ticker 5 ;;
    rv20 <- lift (atr_normalized (replicate 21 last_px)
                                 (replicate 21 last_px)
                                 (replicate 21 last_px) 20) ;;
    ret (r_1m, r_5m, rv20, false).

(** Earnings within 14 days. *)
Definition earnings_section (ticker : str) : M bool :=
  r <- attempt (call (CallEarnings ticker)
                     (fetch_earnings_finnhub w ticker)) ;;
  match r with
  | inr (Some earn_iso) =>
      if truthy earn_iso then
        d <- _parse_iso_aware earn_iso ;;
        t <- datetime_now ;;
        let days := d / DAY - t / DAY in
        ret ((0 <=? days) && (days <=? 14))
      else ret false
  | inr None => ret false
  | inl e =>
      match exn_class e with
      | FHError => ret false
      | _ => raise e
      end
  end.

(** Liquidity. *)
Definition liquidity_section (candles : list Candle)
  (last_px bid_disp ask_disp : float) : bool :=
  let spread_bps :=
    if ftruthy last_px
    then (PrimFloat.abs (ask_disp - bid_disp) / last_px * 1e4)%float
    else 9999%float in
  let vol_1m :=
    match candles with [] => 0 | c :: cs => volume (List.last cs c) end in
  let vol_5m :=
    fold_right Z.add 0 (List.map volume (tail_slice 5 candles)) in
  PrimFloat.leb spread_bps 30%float || (1000 <=? vol_1m) || (5000 <=? vol_5m).

Definition synthetic_quote : Quote :=
  {| last := 0%float; bid := None; ask := None; quality := unknown |}.

(** The payload of the non-live branch and of the code after the handlers. *)
Definition synthetic_payload (top_headline : option Headline)
  (error : option str) : M Payload :=
  feats <- lift _synthetic_feats ;;
  t <- iso_now ;;
  ret {| features := feats; top_headline := top_headline; refs := [];
         refs_sources := []; error := error; quote := synthetic_quote;
         ts := t |}.

(** The body of the [try] from the merge of the refs to its [return]. *)
Definition aggregate (ticker : str) (error : option str)
  (fh yh : list Headline) (top_headline : option Headline) : M Payload :=
  let refs := _merge_refs ticker fh yh in
  let refs_sources := List.map publisher refs in
  let refs := pad_refs refs in
  sent <- _sent_from_headlines
            (match List.filter nonempty (take 3 fh) with
             | [] => List.filter nonempty (take 3 yh)
             | l => l
             end) ;;
  let '(sent_mean, sent_std) := sent in
  quote_ti <- call (CallQuoteTiingo ticker) (fetch_quote_tiingo w ticker) ;;
  candles <- call (CallCandlesTiingo ticker)
                  (fetch_candles_tiingo w ticker 120 (lit "1min")) ;;
  q <- quotes_section ticker quote_ti candles ;;
  let '(last_px, bid_disp, ask_disp, quality) := q in
  mins_since_news <- news_age_section fh yh ;;
  r <- returns_section ticker candles last_px ;;
  let '(r_1m, r_5m, rv20, above) := r in
  let rv20 := clamp_rv20 rv20 in
  earnings_soon <- earnings_section ticker ;;
  let liquidity_flag := liquidity_section candles last_px bid_disp ask_disp in
  let feats :=
    {| sent_mean := sent_mean; sent_std := sent_std;
       r_1m := r_1m; r_5m := r_5m;
       above_sma20_ := above;
       mins_since_news := mins_since_news;
       rv20 := rv20;
       earnings_soon := earnings_soon;
       liquidity_flag := liquidity_flag |} in
  t <- iso_now ;;
  let payload :=
    {| features := feats; top_headline := top_headline; refs := refs;
       refs_sources := refs_sources; error := error;
       quote := {| last := last_px; bid := Some bid_disp;
                   ask := Some ask_disp; quality := quality |};
       ts := t |} in
  _ <- put_cached ticker payload ;;
  ret payload.

(** The two handlers and the code after them. *)
Definition degrade (ticker : str) (top_headline : option Headline) (e : Exn)
  : M Payload :=
  let error :=
    match exn_class e with
    | TiError => tagged "tiingo: " (exn_str e)
    | _ => tagged "providers failed: " (exn_repr e)
    end in
  payload <- synthetic_payload top_headline (Some error) ;;
  _ <- put_cached ticker payload ;;
  ret payload.

Definition build_features_for (ticker : str) : M Payload :=
  let live := bool_decide (LIVE_PROVIDERS w = Some (lit "1")) in
  if live then
    cached <- get_cached ticker ;;
    match cached with
    | Some payload => ret payload
    | None =>
        r <- attempt (headlines_section ticker) ;;
        match r with
        | inl e => degrade ticker None e
        | inr (error, fh, yh) =>
            let top_headline :=
              match fh, yh with
              | h :: _, _ => Some h
              | [], h :: _ => Some h
              | [], [] => None
              end in
            r <- attempt (aggregate ticker error fh yh top_headline) ;;
            match r with
            | inl e => degrade ticker top_headline e
            | inr payload => ret payload
            end
        end
    end
  else synthetic_payload None None.

End Aggregator.

End Features.

(** Vocabulary of the specification of the aggregator. *)

Module FeaturesSpec.
Import Py Features.

(** The aggregator runs live. *)
Definition live (w : World) : Prop := LIVE_PROVIDERS w = Some (lit "1").

(** The headlines a source contributes: its answer, or none when it fails. *)
Definition headlines_of (r : Exn + list Headline) : list Headline :=
  match r with inr l => l | inl _ => [] end.

(** The URL under which [_merge_refs] files a headline: its stripped URL,
    when its stripped title and URL are both non-empty. *)
Definition ref_key (h : Headline) : option str :=
  let t := strip (or_empty (h_title h)) in
  let u := strip (or_empty (h_url h)) in
  if truthy t && truthy u then Some u else None.

(** The distinct URLs found across the two sources. *)
Definition unique_urls (fh yh : list Headline) : gset str :=
  list_to_set (omap ref_key (fh ++ yh)).

(** The number of slots of [refs] that hold a ref. *)
Definition present_slots (refs : list (option Ref)) : nat :=
  length (List.filter (fun r => bool_decide (r <> None)) refs).

(** The bid and ask are kept as observed: both present and not [ask <= bid]. *)
Definition spread_kept (bid_disp ask_disp : option float) : bool :=
  match bid_disp, ask_disp with
  | Some b, Some a => negb (PrimFloat.leb a b)
  | _, _ => false
  end.

(** The last price of the primary provider, or failing that the close of the
    most recent candle. *)
Definition primary_last (quote_ti : ProviderQuote) (candles : list Candle)
  : float :=
  let last_px := float_or_zero (q_last quote_ti) in
  match candles with
  | [] => last_px
  | c :: cs =>
      if PrimFloat.eqb last_px 0%float then close (List.last cs c)
      else last_px
  end.

(** Half of the estimated spread of 8 basis points around [last_px]. *)
Definition half_spread (last_px : float) : float :=
  ((8 / 1e4) * last_px * 0.5)%float.

(** The readings of the clock never go back. *)
Definition clock_monotone (clock : nat -> Z) : Prop :=
  forall i j, (i <= j)%nat -> clock i <= clock j.

(** A headline carries a timestamp: its "ts" is a non-empty string. *)
Definition stamped (h : Headline) : bool :=
  match h_ts h with Some s => truthy s | None => false end.

(** The timestamps of the headlines that parse, as [_parse_iso_aware] reads
    them. *)
Definition parsed_ts `{Externals} (h : Headline) : option Z :=
  match h_ts h with
  | Some s =>
      if truthy s then fromisoformat (replace_char 90%N (lit "+00:00") s)
      else None
  | None => None
  end.

(** The ring of a ticker, empty when it has none. *)
Definition ring_of (st : State) (ticker : str) : list (Z * float) :=
  default [] (_QUOTE_RING st !! ticker).

(** The baseline of a trailing return as the specification words it: scanning
    from the most recent sample backward, the first sample whose timestamp is
    at most the cutoff, or the oldest sample if none qualifies. *)
Definition baseline (cutoff : Z) (ring : list (Z * float)) : option float :=
  match List.find (fun s => fst s <=? cutoff) (rev ring) with
  | Some s => Some (snd s)
  | None => snd <$> head ring
  end.

(** The trailing return as the specification words it. *)
Definition trailing_return (t : Z) (minutes : Z) (ring : list (Z * float))
  : float :=
  match baseline (t - minutes * MINUTE) ring with
  | None => 0%float
  | Some base =>
      if PrimFloat.eqb base 0%float then 0%float
      else ((snd (List.last ring (0%Z, 0%float)) - base) / base)%float
  end.

(** Every sample of the ring is at most 10 minutes older than its newest
    sample, the one appended last. *)
Definition within_window (ring : list (Z * float)) : Prop :=
  forall l s, ring = l ++ [s] ->
    Forall (fun x => fst s - 10 * MINUTE <= fst x) ring.

(** A ring after [n] readings of the clock: at most 600 samples, in the order
    of their timestamps, none stamped later than a reading still to come, and
    all within the window. *)
Definition ring_ok (clock : nat -> Z) (n : nat) (ring : list (Z * float))
  : Prop :=
  (length ring <= 600)%nat
  /\ StronglySorted (fun a b => fst a <= fst b) ring
  /\ Forall (fun s => forall j, (n <= j)%nat -> fst s <= clock j) ring
  /\ within_window ring.

Definition rings_ok (clock : nat -> Z) (st : State) : Prop :=
  forall ticker ring,
    _QUOTE_RING st !! ticker = Some ring -> ring_ok clock (reads st) ring.

(** Every cached payload has its minutes since the news capped. *)
Definition cache_capped (st : State) : Prop :=
  forall ticker p,
    cache st !! ticker = Some p -> mins_since_news (features p) <= 240.

(** No headline carries a timestamp later than the clock of the request. *)
Definition no_future_news `{Externals} (w : World) (st : State)
  (hs : list Headline) : Prop :=
  forall h t, h ∈ hs -> parsed_ts h = Some t -> t <= now w (reads st).

(** A computation relates the state it starts from to the state it leaves. *)
Definition respects (R : State -> State -> Prop) {A} (m : M A) : Prop :=
  forall st, R st (snd (m st)).

(** Relations between the state before and the state after a computation:
    the rings stayed within their bounds; the cache was left alone.  In both
    the clock was only read further. *)
Definition kept (clock : nat -> Z) (st st' : State) : Prop :=
  (reads st <= reads st')%nat /\ (rings_ok clock st -> rings_ok clock st').

Definition same_cache (st st' : State) : Prop :=
  cache st' = cache st /\ (reads st <= reads st')%nat.

(** [x] is not later than any reading of the clock from the [n]-th on. *)
Definition past (w : World) (n : nat) (x : Z) : Prop :=
  forall j, (n <= j)%nat -> x <= now w j.

(** The synthetic payload of the handlers, around the features [f0]. *)
Definition degraded (f0 : Feats) (p : Payload) : Prop :=
  features p = f0 /\ refs p = [] /\ refs_sources p = []
  /\ quote p = synthetic_quote /\ is_Some (error p).

(** The payload of a completed aggregation started in state [st1], section
    by section: the primary quote and the candles were fetched, and the
    quotes and the news-age sections produced the quote and the minutes. *)
Definition aggregated `{Externals} (w : World) (ticker : str)
  (err : option str) (fh yh : list Headline) (top : option Headline)
  (st1 : State) (p : Payload) : Prop :=
  exists q cs px b a ql sA sB m sC,
    fetch_quote_tiingo w ticker = inr q
    /\ fetch_candles_tiingo w ticker 120 (lit "1min") = inr cs
    /\ quotes_section w ticker q cs sA = (inr (px, b, a, ql), sB)
    /\ news_age_section w fh yh sB = (inr m, sC)
    /\ (reads st1 <= reads sB)%nat
    /\ refs p = pad_refs (_merge_refs ticker fh yh)
    /\ refs_sources p = List.map publisher (_merge_refs ticker fh yh)
    /\ error p = err /\ top_headline p = top
    /\ quote p = {| last := px; bid := Some b; ask := Some a;
                    quality := ql |}
    /\ mins_since_news (features p) = m.

(** The states the process can be in: the initial one, and those reached by
    requests, appends and trailing returns under one clock. *)
Inductive reachable `{Externals} (clock : nat -> Z) : State -> Prop :=
| reach_initial : reachable clock initial
| reach_request w ticker st :
    now w = clock -> reachable clock st ->
    reachable clock (snd (build_features_for w ticker st))
| reach_note w ticker px st :
    now w = clock -> reachable clock st ->
    reachable clock (snd (_note_quote w ticker px st))
| reach_ret w ticker minutes st :
    now w = clock -> reachable clock st ->
    reachable clock (snd (_ret_from_ring w ticker minutes st)).

End FeaturesSpec.

(** Concrete externals and worlds, to run the aggregator on examples. *)

Module FeaturesExamples.
Import Py Features FeaturesSpec.

Definition index_error : Exn :=
  {| exn_class := OtherError; exn_str := lit "list index out of range";
     exn_repr := lit "IndexError('list index out of range')" |}.

Definition zero_division : Exn :=
  {| exn_class := OtherError; exn_str := lit "float division by zero";
     exn_repr := lit "ZeroDivisionError('float division by zero')" |}.

Definition fsum (l : list float) : float :=
  fold_left PrimFloat.add l 0%float.

(** [float(n)] for a small count [n]. *)
Definition float_of_nat (n : nat) : float :=
  Nat.iter n (fun x => PrimFloat.add x 1%float) 0%float.

(** Modelled from the spec: [ret_pct] of [indicators.py], whose code is not
    available.  percentReturn(closes, n) is
    (closes[-1] - closes[-1-n]) / closes[-1-n] and requires n + 1 points. *)
Definition spec_ret_pct (closes : list float) (n : Z) : Exn + float :=
  let k := Z.to_nat n in
  match rev closes !! 0%nat, rev closes !! k with
  | Some c, Some b =>
      if PrimFloat.eqb b 0%float then inl zero_division
      else inr ((c - b) / b)%float
  | _, _ => inl index_error
  end.

(** Modelled from the spec: [above_sma20] of [indicators.py], whose code is
    not available.  aboveMovingAverage20(closes) holds iff the last close is
    above the mean of the last 20 closes, or of all when fewer. *)
Definition spec_above_sma20 (closes : list float) : Exn + bool :=
  match rev closes with
  | [] => inl index_error
  | c :: _ =>
      let win := tail_slice 20 closes in
      inr (PrimFloat.ltb (fsum win / float_of_nat (length win)) c)%float
  end.

(** The true ranges of the bars after the first, oldest first. *)
Fixpoint true_ranges (prev : float) (bars : list (float * float * float))
  : list float :=
  match bars with
  | [] => []
  | (h, l, c) :: rest =>
      py_max (py_max (h - l) (PrimFloat.abs (h - prev)))
             (PrimFloat.abs (l - prev))%float
      :: true_ranges c rest
  end.

(** Modelled from the spec: [atr_normalized] of [indicators.py], whose code
    is not available.  normalizedATR(highs, lows, closes, period) is the
    average true range over the last [period] bars divided by the last
    close. *)
Definition spec_atr_normalized (highs lows closes : list float) (period : Z)
  : Exn + float :=
  let bars := zip (zip highs lows) closes in
  match bars with
  | [] => inl index_error
  | (_, _, c0) :: rest =>
      let trs := tail_slice (Z.to_nat period) (true_ranges c0 rest) in
      let lastc := snd (List.last bars (0, 0, 0)%float) in
      if PrimFloat.eqb lastc 0%float then inl zero_division
      else
        inr (fsum trs / float_of_nat (Z.to_nat period) / lastc)%float
  end.

Definition digit (c : N) : option Z :=
  if ((48 <=? c) && (c <=? 57))%N then Some (Z.of_N c - 48) else None.

Fixpoint number (s : str) (acc : Z) : option Z :=
  match s with
  | [] => Some acc
  | c :: r =>
      match digit c with
      | Some d => number r (10 * acc + d)
      | None => None
      end
  end.

(** Days since 1970-01-01 of a date of the proleptic Gregorian calendar. *)
Definition days_from_civil (y m d : Z) : Z :=
  let y := if m <=? 2 then y - 1 else y in
  let era := y / 400 in
  let yoe := y - era * 400 in
  let doy := (153 * (if 2 <? m then m - 3 else m + 9) + 2) / 5 + d - 1 in
  let doe := yoe * 365 + yoe / 4 - yoe / 100 + doy in
  era * 146097 + doe - 719468.

(** [datetime.fromisoformat] on the strings YYYY-MM-DDTHH:MM:SS+00:00, the
    only ones the examples use; every other string counts as unparsable. *)
Definition parse_utc_seconds (s : str) : option Z :=
  if bool_decide (length s = 25%nat /\ drop 19 s = lit "+00:00"
                  /\ s !! 4%nat = Some 45%N /\ s !! 7%nat = Some 45%N
                  /\ s !! 10%nat = Some 84%N /\ s !! 13%nat = Some 58%N
                  /\ s !! 16%nat = Some 58%N)
  then
    match number (take 4 s) 0, number (take 2 (drop 5 s)) 0,
          number (take 2 (drop 8 s)) 0, number (take 2 (drop 11 s)) 0,
          number (take 2 (drop 14 s)) 0, number (take 2 (drop 17 s)) 0 with
    | Some y, Some mo, Some d, Some h, Some mi, Some sec =>
        Some (((days_from_civil y mo d * 86400) + h * 3600 + mi * 60 + sec)
              * 1000000)
    | _, _, _, _, _, _ => None
    end
  else None.

Definition example_externals : Externals :=
  {| atr_normalized := spec_atr_normalized;
     ret_pct := spec_ret_pct;
     above_sma20 := spec_above_sma20;
     fromisoformat := parse_utc_seconds;
     sum_floats := fsum |}.

Definition timeout : Exn :=
  {| exn_class := OtherError; exn_str := lit "timed out";
     exn_repr := lit "ReadTimeout('timed out')" |}.

Definition no_quote : ProviderQuote :=
  {| q_last := None; q_bid := None; q_ask := None |}.

(** 2026-01-05T12:00:00Z, in microseconds since the epoch. *)
Definition noon : Z := 1767614400000000.

(** A world with the providers switched off: a clock that advances by one
    second per reading, and providers that would all time out. *)
Definition offline : World :=
  {| LIVE_PROVIDERS := None;
     now := fun k => noon + Z.of_nat k * 1000000;
     fetch_headlines := fun _ _ => inl timeout;
     fetch_headlines_yahoo := fun _ _ => inl timeout;
     post_sentiment := fun _ => inl timeout;
     fetch_quote_tiingo := fun _ => inl timeout;
     fetch_candles_tiingo := fun _ _ _ => inl timeout;
     fetch_quote_finnhub := fun _ => inl timeout;
     fetch_earnings_finnhub := fun _ => inl timeout |}.

Definition headline (title url ts : string) : Headline :=
  {| h_title := Some (lit title); h_url := Some (lit url);
     h_publisher := Some (lit "Reuters"); h_ts := Some (lit ts);
     h_rest := false |}.

(** A live world: one headline stamped one hour after the clock, a primary
    quote with a bid of 10 and an ask of 11 but no last price, no candles,
    no secondary quote and no earnings date. *)
Definition live_world : World :=
  {| LIVE_PROVIDERS := Some (lit "1");
     now := fun k => noon + Z.of_nat k * 1000000;
     fetch_headlines := fun _ _ =>
       inr [headline "Fed holds rates" "https://a" "2026-01-05T13:00:00Z";
            {| h_title := None; h_url := Some (lit "https://b");
               h_publisher := None; h_ts := None; h_rest := false |}];
     fetch_headlines_yahoo := fun _ _ => inr [];
     post_sentiment := fun _ => inl timeout;
     fetch_quote_tiingo := fun _ =>
       inr {| q_last := None; q_bid := Some 10%float;
              q_ask := Some 11%float |};
     fetch_candles_tiingo := fun _ _ _ => inr [];
     fetch_quote_finnhub := fun _ => inl timeout;
     fetch_earnings_finnhub := fun _ => inr None |}.

Definition AAPL : str := lit "AAPL".

(** The offline world under a clock that advances by two and a half minutes
    per reading: an append every five minutes. *)
Definition slow_world : World :=
  {| LIVE_PROVIDERS := None;
     now := fun k => noon + Z.of_nat k * 150000000;
     fetch_headlines := fetch_headlines offline;
     fetch_headlines_yahoo := fetch_headlines_yahoo offline;
     post_sentiment := post_sentiment offline;
     fetch_quote_tiingo := fetch_quote_tiingo offline;
     fetch_candles_tiingo := fetch_candles_tiingo offline;
     fetch_quote_finnhub := fetch_quote_finnhub offline;
     fetch_earnings_finnhub := fetch_earnings_finnhub offline |}.

(** The appends of the prices [pxs] for one ticker, one after the other. *)
Fixpoint note_all (w : World) (ticker : str) (pxs : list float) (st : State)
  : State :=
  match pxs with
  | [] => st
  | px :: rest => note_all w ticker rest (snd (_note_quote w ticker px st))
  end.

(** The live world with another clock and other Finnhub headlines. *)
Definition live_with (clock : nat -> Z) (hs : list Headline) : World :=
  {| LIVE_PROVIDERS := Some (lit "1");
     now := clock;
     fetch_headlines := fun _ _ => inr hs;
     fetch_headlines_yahoo := fetch_headlines_yahoo live_world;
     post_sentiment := post_sentiment live_world;
     fetch_quote_tiingo := fetch_quote_tiingo live_world;
     fetch_candles_tiingo := fetch_candles_tiingo live_world;
     fetch_quote_finnhub := fetch_quote_finnhub live_world;
     fetch_earnings_finnhub := fetch_earnings_finnhub live_world |}.

(** One headline stamped five hours before the clock. *)
Definition old_news_world : World :=
  live_with (now live_world)
    [headline "Fed holds rates" "https://a" "2026-01-05T07:00:00Z"].

(** One headline without a timestamp. *)
Definition unstamped_world : World :=
  live_with (now live_world)
    [{| h_title := Some (lit "Fed holds rates");
        h_url := Some (lit "https://a"); h_publisher := None;
        h_ts := None; h_rest := false |}].

(** One headline stamped at 13:00, under a clock that starts at noon,
    advances by one second per reading and stops after 100 seconds. *)
Definition future_news_world : World :=
  live_with (fun k => noon + Z.of_nat (k `min` 100) * 1000000)
    [headline "Fed holds rates" "https://a" "2026-01-05T13:00:00Z"].

(** The offline world under a clock that goes back: its readings are 13:00
    twice, 12:00 twice, then 13:01. *)
Definition backward_world : World :=
  {| LIVE_PROVIDERS := None;
     now := fun k =>
       match k with
       | 0%nat | 1%nat => noon + 60 * MINUTE
       | 2%nat | 3%nat => noon
       | _ => noon + 61 * MINUTE
       end;
     fetch_headlines := fetch_headlines offline;
     fetch_headlines_yahoo := fetch_headlines_yahoo offline;
     post_sentiment := post_sentiment offline;
     fetch_quote_tiingo := fetch_quote_tiingo offline;
     fetch_candles_tiingo := fetch_candles_tiingo offline;
     fetch_quote_finnhub := fetch_quote_finnhub offline;
     fetch_earnings_finnhub := fetch_earnings_finnhub offline |}.

(** A state whose ring for AAPL is full: 600 samples stamped at noon. *)
Definition full_ring : State :=
  {| reads := 0;
     _QUOTE_RING := {[ AAPL := replicate 600 (noon, 100%float) ]};
     cache := ∅; events := [] |}.

End FeaturesExamples.

(** Further vocabulary for the aggregator: what [_merge_refs] computes, and
    the diagnostics of the headline providers. *)

Module AggregatorSpec.
Import Py Features FeaturesSpec.

(** The ref [_merge_refs] makes of a headline, if it makes one: the stripped
    title and URL must both be non-empty, and an empty publisher reads
    "News". *)
Definition to_ref (h : Headline) : option Ref :=
  let t := strip (or_empty (h_title h)) in
  let u := strip (or_empty (h_url h)) in
  let pub := strip (or_empty (h_publisher h)) in
  if truthy t && truthy u
  then Some {| title := t; publisher := str_or pub (lit "News"); url := u |}
  else None.

(** The refs whose URL was not [seen] before, each URL once: its first
    occurrence. *)
Fixpoint first_by_url (seen : gset str) (rs : list Ref) : list Ref :=
  match rs with
  | [] => []
  | r :: rest =>
      if decide (url r ∈ seen) then first_by_url seen rest
      else r :: first_by_url ({[url r]} ∪ seen) rest
  end.

(** Merge of the two sources, as the docstring of [_merge_refs] words it:
    de-dup by URL, keep order, take up to 3. *)
Definition merge_spec (fn yh : list Headline) : list Ref :=
  take 3 (first_by_url ∅ (omap to_ref (fn ++ yh))).

(** The refs that the slots hold, in slot order. *)
Definition present_refs (refs : list (option Ref)) : list Ref :=
  omap id refs.

(** The diagnostic the headlines section leaves: nothing when both sources
    answer, "news: ..." for a Finnhub error, "yahoo: ..." for any failure of
    Yahoo, both joined by "; " when both fail. *)
Definition headline_diagnostic (fh yh : Exn + list Headline) : option str :=
  match fh, yh with
  | inr _, inr _ => None
  | inl e, inr _ => Some (lit "news: " ++ exn_str e)
  | inr _, inl e' => Some (lit "yahoo: " ++ exn_str e')
  | inl e, inl e' =>
      Some ((lit "news: " ++ exn_str e) ++ lit "; yahoo: " ++ exn_str e')
  end.

(** The first headline of Finnhub, else the first of Yahoo. *)
Definition top_of (fh yh : list Headline) : option Headline :=
  match fh, yh with
  | h :: _, _ => Some h
  | [], h :: _ => Some h
  | [], [] => None
  end.

(** The error the handlers record for an exception. *)
Definition handler_error (e : Exn) : str :=
  match exn_class e with
  | TiError => lit "tiingo: " ++ exn_str e
  | _ => lit "providers failed: " ++ exn_repr e
  end.

(** The Finnhub headlines call does not raise past its handler: it answers,
    or raises an [FHError]. *)
Definition headlines_contained (r : Exn + list Headline) : Prop :=
  match r with
  | inr _ => True
  | inl e => exn_class e = FHError
  end.

(** A payload as [build_features_for] builds it around synthetic features. *)
Definition synthetic_around (f0 : Feats) (p : Payload) : Prop :=
  features p = f0 /\ refs p = [] /\ refs_sources p = []
  /\ quote p = synthetic_quote.

(** The last price of the secondary provider, when it answers with one that
    is not zero. *)
Definition secondary_last (r : Exn + ProviderQuote) : option float :=
  match r with
  | inr qfh =>
      match q_last qfh with
      | Some l => if ftruthy l then Some l else None
      | None => None
      end
  | inl _ => None
  end.

(** The chain of fallbacks for the last price: the primary provider's, else
    the close of the last candle; when that is not above zero, the secondary
    provider's; when that is not above zero either, 1.0. *)
Definition last_price (quote_ti : ProviderQuote) (candles : list Candle)
  (secondary : Exn + ProviderQuote) : float :=
  let p0 := primary_last quote_ti candles in
  let p1 :=
    if PrimFloat.leb p0 0%float then default p0 (secondary_last secondary)
    else p0 in
  if PrimFloat.leb p1 0%float then 1%float else p1.

(** The state after a cache lookup for [ticker]. *)
Definition after_lookup (ticker : str) (st : State) : State :=
  {| reads := reads st; _QUOTE_RING := _QUOTE_RING st; cache := cache st;
     events := events st ++ [CacheGet ticker] |}.

(** The samples of a ring are all stamped at or after [cut]. *)
Definition all_recent (cut : Z) (ring : list (Z * float)) : Prop :=
  Forall (fun s => cut <= fst s) ring.

End AggregatorSpec.

(** Externals whose indicators fail on every series, to run the aggregator
    where the synthetic features cannot be computed. *)

Module AggregatorExamples.
Import Py Features FeaturesSpec FeaturesExamples.

Definition failing_externals : Externals :=
  {| atr_normalized := fun _ _ _ _ => inl index_error;
     ret_pct := fun _ _ => inl index_error;
     above_sma20 := fun _ => inl index_error;
     fromisoformat := parse_utc_seconds;
     sum_floats := fsum |}.

Definition ti_down : Exn :=
  {| exn_class := TiError; exn_str := lit "503";
     exn_repr := lit "TiError('503')" |}.

(** A live world whose primary quote provider fails: one headline from
    Finnhub, none from Yahoo, which times out. *)
Definition quote_down : World :=
  {| LIVE_PROVIDERS := Some (lit "1");
     now := now live_world;
     fetch_headlines := fetch_headlines live_world;
     fetch_headlines_yahoo := fun _ _ => inl timeout;
     post_sentiment := post_sentiment live_world;
     fetch_quote_tiingo := fun _ => inl ti_down;
     fetch_candles_tiingo := fetch_candles_tiingo live_world;
     fetch_quote_finnhub := fetch_quote_finnhub live_world;
     fetch_earnings_finnhub := fetch_earnings_finnhub live_world |}.

(** A world whose clock jumps by 11 minutes between two readings. *)
Definition jumpy_world : World :=
  {| LIVE_PROVIDERS := None;
     now := fun k => noon + Z.of_nat k * 660000000;
     fetch_headlines := fetch_headlines offline;
     fetch_headlines_yahoo := fetch_headlines_yahoo offline;
     post_sentiment := post_sentiment offline;
     fetch_quote_tiingo := fetch_quote_tiingo offline;
     fetch_candles_tiingo := fetch_candles_tiingo offline;
     fetch_quote_finnhub := fetch_quote_finnhub offline;
     fetch_earnings_finnhub := fetch_earnings_finnhub offline |}.

End AggregatorExamples.

(** Further vocabulary for the retries of the gateway. *)

Module RetrySpec.
Import Py Gateway.

Section Attempts.
Context {Json : Type}.
Variable upstream : nat -> Request Json -> Outcome Json.

(** The first [k] answers to [req], counted from the [n0]-th request on, are
    failures. *)
Definition all_fail (n0 k : nat) (req : Request Json) : Prop :=
  forall i, (i < k)%nat -> exists e, upstream (n0 + i)%nat req = Raises e.

(** What a call that may make up to [todo] attempts leaves: it sent the same
    request [k] times, [k] being at most [todo]; either the [k]-th answer
    was the first body and is returned, after [k - 1] sleeps of [delay]; or
    all [todo] answers were failures, status 502 is raised, and [todo]
    sleeps of [delay] were taken; or [time.sleep] refuses [delay], and its
    exception ended the call in the handler of the first failure, after one
    request and no sleep. *)
Definition retry_outcome (todo : nat) (delay : float) (req : Request Json)
  (net : Net Json) (r : (Raised + Json) * Net Json) : Prop :=
  let n0 := length (sent net) in
  exists k,
    (k <= todo)%nat
    /\ sent (snd r) = sent net ++ replicate k req
    /\ match fst r with
       | inr body =>
           (1 <= k)%nat
           /\ upstream (n0 + (k - 1))%nat req = Returns body
           /\ all_fail n0 (k - 1) req
           /\ slept (snd r) = slept net ++ replicate (k - 1) delay
       | inl (HTTP ex) =>
           k = todo /\ all_fail n0 todo req
           /\ slept (snd r) = slept net ++ replicate todo delay
           /\ status_code ex = 502
       | inl (Sleep x) =>
           k = 1%nat /\ all_fail n0 1 req
           /\ slept (snd r) = slept net
           /\ time_sleep delay = Some x
       end.

End Attempts.

(** A configuration with a negative retry count. *)
Definition no_attempt_config : Config :=
  {| TIMEOUT := 8%float; RETRIES := -1; DELAY := 0.25%float |}.

End RetrySpec.

(** Further vocabulary for the one-liner. *)

Module ComposerSpec.
Import Py OneLiner OneLinerSpec.

(** Two requests agree on all the composer reads but, possibly, the slots
    after the third. *)
Definition agree_on_shown (x y : OneLinerIn) : Prop :=
  class_ x = class_ y /\ publisher x = publisher y
  /\ confidence x = confidence y
  /\ take 3 <$> refs x = take 3 <$> refs y.

(** The clause that opens every text: the phrase and the source label. *)
Definition opening (x : OneLinerIn) : str :=
  _strategy_phrase (class_ x) ++ lit ". Source: ".

(** The scenario with a fourth and a fifth slot. *)
Definition scenario_five_slots : OneLinerIn :=
  {| class_ := lit "IRON_CONDOR"; confidence := 0.73%float;
     title := []; publisher := lit "Reuters"; url := [];
     refs := Some [url_slot "https://a"; None; url_slot "https://b";
                   url_slot "https://c"; url_slot "https://d"] |}.

(** A request whose publisher alone fills the text, with two refs. *)
Definition long_publisher : OneLinerIn :=
  {| class_ := lit "DEBIT_CALL"; confidence := 0.5%float;
     title := []; publisher := repeat 97%N 200; url := [];
     refs := Some [url_slot "https://a"; url_slot "https://b"] |}.

End ComposerSpec.

(** * The gateway's run endpoint (gateway_api/app.py) *)

Module Run.
Import Py Gateway.

#[local] Set Warnings "-register-all".

(** A decoded JSON value, as [r.json()] returns it: [None], a [bool], an
    [int], a [float], a [str], a [list] or a [dict] with [str] keys. *)
Inductive Json :=
| JNull
| JBool (b : bool)
| JInt (z : Z)
| JFloat (f : float)
| JStr (s : str)
| JList (l : list Json)
| JDict (d : gmap str Json).

(** A dict display [{k1: v1, ..., kn: vn}] with distinct literal keys. *)
Definition dict (items : list (str * Json)) : Json :=
  JDict (list_to_map items).

(** Truth value of a decoded value. *)
Definition jtruthy (v : Json) : bool :=
  match v with
  | JNull => false
  | JBool b => b
  | JInt z => negb (z =? 0)
  | JFloat f => ftruthy f
  | JStr s => truthy s
  | JList l => match l with [] => false | _ => true end
  | JDict d => negb (bool_decide (d = ∅))
  end.

(** [v or d] *)
Definition jor (v d : Json) : Json := if jtruthy v then v else d.

(** [CTX_URL] and [REC_URL], read from the environment at import. *)
Record Urls := { CTX_URL : str; REC_URL : str }.

Definition default_urls : Urls :=
  {| CTX_URL := lit "http://127.0.0.1:8012";
     REC_URL := lit "http://127.0.0.1:8014" |}.

(** The exceptions of the endpoint: the [HTTPException] of a call that gave
    up, [AttributeError] for [.get] on a value that is no dict, [TypeError],
    and the [ValueError] and [OverflowError] of a conversion or of a
    sleep. *)
Inductive RunExn :=
| Http (e : HTTPException)
| AttributeError
| TypeError
| Conversion (e : round_error).

(** What the endpoint uses of the Python library and this development takes
    as given. *)
Class Builtins := {
  (** [datetime.fromisoformat(s).astimezone(timezone.utc)], as microseconds
      since the epoch; [None] when it raises. *)
  parse_instant : str -> option Z;
  (** [int(d.total_seconds())] for a [timedelta] [d] of that many
      microseconds. *)
  whole_seconds : Z -> Z;
  (** [f"{v}"] for a decoded value, or the exception of the conversion. *)
  format_value : Json -> round_error + str;
  (** [int(s)] for a [str]; [None] when it raises [ValueError]. *)
  int_of_str : str -> option Z
}.

(** [_parse_iso] *)
Definition _parse_iso {bi : Builtins} (s : str) : option Z :=
  if negb (truthy s) then None
  else parse_instant (replace_char 90%N (lit "+00:00") s).

(** [int(x)] on a float: the integer part, or [ValueError] on a NaN and
    [OverflowError] on an infinity. *)
Definition int_of_float (x : float) : round_error + Z :=
  match Prim2SF x with
  | S754_zero _ => inr 0
  | S754_infinity _ => inl OverflowError
  | S754_nan => inl ValueError
  | S754_finite s m e =>
      let v := if 0 <=? e then Z.pos m * 2 ^ e else Z.pos m / 2 ^ (- e) in
      inr (if s then - v else v)
  end.

(** What a call raises, as an exception of the endpoint. *)
Definition raised (x : Raised) : RunExn :=
  match x with HTTP e => Http e | Sleep e => Conversion e end.

(** A conversion, as a step of the endpoint. *)
Definition converted {A} (r : round_error + A) : RunExn + A :=
  match r with inl e => inl (Conversion e) | inr a => inr a end.

(** [int(v * 100)] for a decoded value [v]. *)
Definition int_times_100 {bi : Builtins} (v : Json) : RunExn + Z :=
  match v with
  | JNull => inl TypeError
  | JBool b => inr (if b then 100 else 0)
  | JInt z => inr (z * 100)
  | JFloat f => converted (int_of_float (PrimFloat.mul f 100%float))
  | JStr s =>
      match int_of_str (concat (replicate 100 s)) with
      | Some z => inr z
      | None => inl (Conversion ValueError)
      end
  | JList _ => inl TypeError
  | JDict _ => inl TypeError
  end.

(** The state of a request: the network, and the number of readings of the
    clock so far. *)
Record RunState := { net : Net Json; ticks : nat }.

(** A computation of the endpoint: it raises or returns, and leaves a
    state. *)
Definition R (A : Type) : Type := RunState -> (RunExn + A) * RunState.

Definition ret {A} (a : A) : R A := fun s => (inr a, s).

Definition bind {A B} (m : R A) (k : A -> R B) : R B :=
  fun s =>
    match m s with
    | (inl e, s') => (inl e, s')
    | (inr a, s') => k a s'
    end.

Definition lift {A} (r : RunExn + A) : R A := fun s => (r, s).

(** [try: m  except HTTPException: h] *)
Definition except_http {A} (m h : R A) : R A :=
  fun s =>
    match m s with
    | (inl (Http _), s') => h s'
    | r => r
    end.

Declare Scope r_scope.
Delimit Scope r_scope with R.
Notation "x <- m ;; k" := (bind m (fun x => k))
  (at level 100, m at next level, right associativity) : r_scope.
Local Open Scope r_scope.

(** [d.get(key, dflt)] *)
Definition get (d : Json) (key : string) (dflt : Json) : R Json :=
  lift (match d with
        | JDict m => inr (default dflt (m !! lit key))
        | _ => inl AttributeError
        end).

Section Endpoint.
Context {bi : Builtins}.
Variable upstream : nat -> Request Json -> Outcome Json.
Variable cfg : Config.
Variable urls : Urls.

(** The clock: the instant of the [k]-th reading, in microseconds since the
    epoch. *)
Variable now : nat -> Z.

(** A call of [_get_json] or [_post_json] from the endpoint. *)
Definition http (c : Net Json -> (Raised + Json) * Net Json) : R Json :=
  fun s =>
    let '(r, n) := c (net s) in
    (match r with inl x => inl (raised x) | inr body => inr body end,
     {| net := n; ticks := ticks s |}).

(** [datetime.now(timezone.utc)] *)
Definition datetime_now : R Z :=
  fun s => (inr (now (ticks s)), {| net := net s; ticks := S (ticks s) |}).

Definition iso_now : R str :=
  t <- datetime_now ;; ret (Features.isoformat_seconds t).

(** The handler of the one-liner stage:
    [{"text": f"{rec.get('class','NO_ACTION')} <middle dot>
               {int(rec.get('confidence',0)*100)}% confidence"}]. *)
Definition fallback (rec : Json) : R Json :=
  c <- get rec "class" (JStr (lit "NO_ACTION")) ;;
  cs <- lift (converted (format_value c)) ;;
  cf <- get rec "confidence" (JInt 0) ;;
  pct <- lift (int_times_100 cf) ;;
  ps <- lift (converted (format_value (JInt pct))) ;;
  ret (dict [(lit "text",
              JStr (cs ++ lit " " ++ [183%N] ++ lit " " ++ ps
                    ++ lit "% confidence"))]).

(** The body of the [try] of the one-liner stage. *)
Definition one_liner_call (rec headline refs : Json) : R Json :=
  c <- get rec "class" (JStr (lit "NO_ACTION")) ;;
  cf <- get rec "confidence" (JFloat 0%float) ;;
  ti <- get headline "title" (JStr []) ;;
  pu <- get headline "publisher" (JStr []) ;;
  ur <- get headline "url" (JStr []) ;;
  http (_post_json upstream cfg (CTX_URL urls ++ lit "/api/one_liner")
          (dict [(lit "class_", c); (lit "confidence", cf); (lit "title", ti);
                 (lit "publisher", pu); (lit "url", ur); (lit "refs", refs)])).

Definition run (t : str) : R Json :=
  (* 1) features from context *)
  ctx <- http (_get_json upstream cfg (CTX_URL urls ++ lit "/api/features/v2")
                 (Some (dict [(lit "ticker", JStr t)]))) ;;
  f0 <- get ctx "features" (dict []) ;;
  let features := jor f0 (dict []) in
  top_headline <- get ctx "top_headline" JNull ;;
  feature_note <- get ctx "error" JNull ;;
  q0 <- get ctx "quote" JNull ;;
  let quote :=
    jor q0 (dict [(lit "last", JFloat 0%float); (lit "bid", JNull);
                  (lit "ask", JNull)]) in
  ts_ctx <- get ctx "ts" JNull ;;
  r0 <- get ctx "refs" JNull ;;
  let refs := jor r0 (JList []) in
  s0 <- get ctx "refs_sources" JNull ;;
  let refs_sources := jor s0 (JList []) in
  (* 2) recommendation *)
  rec <- http (_post_json upstream cfg (REC_URL urls ++ lit "/api/recommend")
                 features) ;;
  (* 3) one-liner build *)
  let headline :=
    jor top_headline
        (dict [(lit "title", JStr []); (lit "publisher", JStr []);
               (lit "url", JStr [])]) in
  one <- except_http (one_liner_call rec headline refs) (fallback rec) ;;
  (* 4) compute age *)
  now_ <- datetime_now ;;
  let tctx := match ts_ctx with JStr s => _parse_iso s | _ => None end in
  let age_s :=
    match tctx with
    | Some t0 => JInt (whole_seconds (now_ - t0))
    | None => JNull
    end in
  ts_gateway <- iso_now ;;
  let resp :=
    [(lit "ticker", JStr t); (lit "features", features);
     (lit "recommendation", rec); (lit "one_liner", one);
     (lit "quote", quote); (lit "top_headline", top_headline);
     (lit "refs", refs); (lit "refs_sources", refs_sources);
     (lit "ts_ctx", ts_ctx); (lit "ts_gateway", JStr ts_gateway);
     (lit "cache_age_seconds", age_s)] in
  ret (if jtruthy feature_note
       then dict (resp ++ [(lit "features_note", feature_note)])
       else dict resp).

End Endpoint.

End Run.

(** Vocabulary for the facts about the run endpoint. *)

Module RunSpec.
Import Py Gateway Run.

Section Requests.
Variable cfg : Config.
Variable urls : Urls.

(** The number of attempts of one call. *)
Definition budget : nat := Z.to_nat (RETRIES cfg + 1).

(** The three requests of a run. *)
Definition features_request (t : str) : Request Json :=
  {| method := GET; target := CTX_URL urls ++ lit "/api/features/v2";
     data := Some (dict [(lit "ticker", JStr t)]) |}.

Definition recommend_request (features : Json) : Request Json :=
  {| method := POST; target := REC_URL urls ++ lit "/api/recommend";
     data := Some features |}.

Definition one_liner_request (payload : Json) : Request Json :=
  {| method := POST; target := CTX_URL urls ++ lit "/api/one_liner";
     data := Some payload |}.

End Requests.

(** The value under [key] of a dict; nothing for a missing key or a value
    that is no dict. *)
Definition field (v : Json) (key : string) : option Json :=
  match v with JDict m => m !! lit key | _ => None end.

Definition is_dict (v : Json) : Prop := exists m, v = JDict m.

(** The placeholder quote of the endpoint. *)
Definition placeholder_quote : Json :=
  dict [(lit "last", JFloat 0%float); (lit "bid", JNull); (lit "ask", JNull)].

(** The values the endpoint takes from the body [ctx] of the context
    service. *)
Definition features_of (ctx : Json) : Json :=
  jor (default (dict []) (field ctx "features")) (dict []).

Definition quote_of (ctx : Json) : Json :=
  jor (default JNull (field ctx "quote")) placeholder_quote.

Definition refs_of (ctx : Json) : Json :=
  jor (default JNull (field ctx "refs")) (JList []).

Definition refs_sources_of (ctx : Json) : Json :=
  jor (default JNull (field ctx "refs_sources")) (JList []).

Definition top_headline_of (ctx : Json) : Json :=
  default JNull (field ctx "top_headline").

Definition headline_of (ctx : Json) : Json :=
  jor (top_headline_of ctx)
      (dict [(lit "title", JStr []); (lit "publisher", JStr []);
             (lit "url", JStr [])]).

Definition note_of (ctx : Json) : Json := default JNull (field ctx "error").

Definition ts_of (ctx : Json) : Json := default JNull (field ctx "ts").

(** The payload sent to the one-liner service. *)
Definition one_liner_payload (rec ctx : Json) : Json :=
  dict [(lit "class_", default (JStr (lit "NO_ACTION")) (field rec "class"));
        (lit "confidence", default (JFloat 0%float) (field rec "confidence"));
        (lit "title", default (JStr []) (field (headline_of ctx) "title"));
        (lit "publisher",
         default (JStr []) (field (headline_of ctx) "publisher"));
        (lit "url", default (JStr []) (field (headline_of ctx) "url"));
        (lit "refs", refs_of ctx)].

(** The age of the context's timestamp at the instant [t0]. *)
Definition age_of {bi : Builtins} (ctx : Json) (t0 : Z) : Json :=
  match match ts_of ctx with JStr s => _parse_iso s | _ => None end with
  | Some t => JInt (whole_seconds (t0 - t))
  | None => JNull
  end.

(** The fields of a response but the note, from the three bodies and the
    two readings of the clock. *)
Definition response_items {bi : Builtins} (t : str) (ctx rec one : Json)
  (t0 t1 : Z) : list (str * Json) :=
  [(lit "ticker", JStr t); (lit "features", features_of ctx);
   (lit "recommendation", rec); (lit "one_liner", one);
   (lit "quote", quote_of ctx); (lit "top_headline", top_headline_of ctx);
   (lit "refs", refs_of ctx); (lit "refs_sources", refs_sources_of ctx);
   (lit "ts_ctx", ts_of ctx);
   (lit "ts_gateway", JStr (Features.isoformat_seconds t1));
   (lit "cache_age_seconds", age_of ctx t0)].

Definition response {bi : Builtins} (t : str) (ctx rec one : Json)
  (t0 t1 : Z) : Json :=
  if jtruthy (note_of ctx)
  then dict (response_items t ctx rec one t0 t1
             ++ [(lit "features_note", note_of ctx)])
  else dict (response_items t ctx rec one t0 t1).

(** The text of the fallback one-liner, or the exception its formatting
    raises. *)
Definition fallback_result {bi : Builtins} (rec : Json) : RunExn + Json :=
  match converted
          (format_value
             (default (JStr (lit "NO_ACTION")) (field rec "class"))) with
  | inl e => inl e
  | inr cs =>
      match int_times_100 (default (JInt 0) (field rec "confidence")) with
      | inl e => inl e
      | inr pct =>
          match converted (format_value (JInt pct)) with
          | inl e => inl e
          | inr ps =>
              inr (dict [(lit "text",
                          JStr (cs ++ lit " " ++ [183%N] ++ lit " " ++ ps
                                ++ lit "% confidence"))])
          end
      end
  end.

(** The keys of every response. *)
Definition response_keys : list str :=
  [lit "ticker"; lit "features"; lit "recommendation"; lit "one_liner";
   lit "quote"; lit "top_headline"; lit "refs"; lit "refs_sources";
   lit "ts_ctx"; lit "ts_gateway"; lit "cache_age_seconds"].

End RunSpec.

(** Services and built-ins for the examples of the run endpoint. *)

Module RunExamples.
Import Py Gateway Run RunSpec.

(** The built-ins on the values the examples use: timestamps in the format
    of [iso_now], differences of whole seconds, and the formatting of
    [None], a [bool], an [int] and a [str]; the examples format no other
    value and convert no string to an [int]. *)
Definition example_builtins : Builtins :=
  {| parse_instant := FeaturesExamples.parse_utc_seconds;
     whole_seconds := fun d => Z.quot d 1000000;
     format_value := fun v =>
       match v with
       | JNull => inr (lit "None")
       | JBool b => inr (if b then lit "True" else lit "False")
       | JInt z => inr (str_of_int z)
       | JStr s => inr s
       | _ => inr []
       end;
     int_of_str := fun _ => None |}.

(** A clock that starts at noon and advances by one second per reading. *)
Definition clock (k : nat) : Z :=
  FeaturesExamples.noon + Z.of_nat k * 1000000.

Definition context_body : Json :=
  dict [(lit "features", dict [(lit "rv20", JFloat 0.2%float)]);
        (lit "quote", JNull);
        (lit "ts", JStr (lit "2026-01-05T11:59:30Z"));
        (lit "refs", JList [JNull]);
        (lit "error", JStr (lit "finnhub: timeout"))].

Definition recommendation_body : Json :=
  dict [(lit "class", JStr (lit "IRON_CONDOR"));
        (lit "confidence", JFloat 0.5%float)].

(** The context service answers the features request and refuses the
    one-liner; the recommender answers. *)
Definition one_liner_down (k : nat) (req : Request Json) : Outcome Json :=
  if bool_decide (target req = CTX_URL default_urls ++ lit "/api/features/v2")
  then Returns context_body
  else if bool_decide (target req
                       = REC_URL default_urls ++ lit "/api/recommend")
  then Returns recommendation_body
  else Raises (lit "connection refused").

(** Every service is down. *)
Definition all_down (k : nat) (req : Request Json) : Outcome Json :=
  Raises (lit "connection refused").

(** The context service answers the features request with a list. *)
Definition list_body (k : nat) (req : Request Json) : Outcome Json :=
  Returns (JList []).

(** The recommender answers with a string. *)
Definition string_recommendation (k : nat) (req : Request Json)
  : Outcome Json :=
  if bool_decide (target req = CTX_URL default_urls ++ lit "/api/features/v2")
  then Returns context_body
  else Returns (JStr (lit "IRON_CONDOR")).

Definition start : RunState :=
  {| net := {| sent := []; slept := [] |}; ticks := 0 |}.

(** The run for AAPL from [start], under the default configuration. *)
Definition run_with (upstream : nat -> Request Json -> Outcome Json)
  : (RunExn + Json) * RunState :=
  run (bi := example_builtins) upstream default_config default_urls clock
    (lit "AAPL") start.

End RunExamples.

(** * Facts *)

(** ** The one-liner composer *)

Module OneLinerFacts.
Import Py OneLiner OneLinerSpec.

Lemma one_liner_returns x :
  confidence_finite x = true ->
  one_liner x =
    inr {| text := if 180 <? Z.of_nat (length (composed x))
                   then take 177 (composed x) ++ ELLIPSIS else composed x;
           refs_numbers := snd (_build_index_suffix (refs x)) |}.
Proof.
  unfold confidence_finite, one_liner, composed, round. intros Hf.
  destruct (Prim2SF _); try discriminate;
    destruct (_build_index_suffix (refs x)); reflexivity.
Qed.

Lemma one_liner_raises x :
  confidence_finite x = false -> exists e, one_liner x = inl e.
Proof.
  unfold confidence_finite, one_liner, round. intros Hf.
  destruct (Prim2SF _); try discriminate; eauto.
Qed.

Lemma index_loop_shown slots : forall nums shown k,
  snd (index_loop slots nums shown k) =
  shown ++ imap (fun i u => {| n := k + Z.of_nat i; ref_url := u |})
                (present_urls slots).
Proof.
  induction slots as [|slot rest IH]; intros nums shown k; simpl.
  - by rewrite app_nil_r.
  - unfold present_urls; simpl. destruct (slot_url slot) as [u|]; simpl.
    + rewrite IH, <- app_assoc. simpl. f_equal. f_equal.
      * f_equal. lia.
      * apply imap_ext. intros i v _. simpl. f_equal. lia.
    + apply IH.
Qed.

Lemma index_loop_nums_nil slots : forall nums shown k,
  fst (index_loop slots nums shown k) = [] ->
  nums = [] /\ present_urls slots = [].
Proof.
  induction slots as [|slot rest IH]; intros nums shown k; simpl.
  - auto.
  - unfold present_urls; simpl. destruct (slot_url slot) as [u|]; simpl.
    + intros H. apply IH in H as [H _]. by destruct nums.
    + apply IH.
Qed.

Lemma build_index_suffix_shown refs :
  snd (_build_index_suffix refs) =
  dense_numbering (present_urls (take 3 (default [] refs))).
Proof.
  destruct refs as [[|s slots]|]; try reflexivity.
  unfold _build_index_suffix. simpl default.
  pose proof (index_loop_shown (take 3 (s :: slots)) [] [] 1) as Hs.
  pose proof (index_loop_nums_nil (take 3 (s :: slots)) [] [] 1) as Hn.
  destruct (index_loop _ _ _ _) as [nums shown]. cbn [fst snd] in Hs, Hn.
  unfold dense_numbering.
  destruct nums.
  - destruct Hn as [_ ->]; reflexivity.
  - cbn [snd]. rewrite Hs. apply imap_ext. intros i v _. f_equal. lia.
Qed.

Lemma index_loop_nums slots : forall nums shown k,
  fst (index_loop slots nums shown k) =
  nums ++ imap (fun i _ => lit "[" ++ str_of_int (k + Z.of_nat i) ++ lit "]")
               (present_urls slots).
Proof.
  induction slots as [|slot rest IH]; intros nums shown k; simpl.
  - by rewrite app_nil_r.
  - unfold present_urls; simpl. destruct (slot_url slot) as [u|]; simpl.
    + rewrite IH, <- app_assoc. simpl. f_equal. f_equal.
      * rewrite Z.add_0_r. reflexivity.
      * apply imap_ext. intros i v _. cbn [compose]. do 3 f_equal. lia.
    + apply IH.
Qed.

Lemma imap_const_seq {A B} (f : nat -> B) (l : list A) :
  imap (fun i _ => f i) l = List.map f (seq 0 (length l)).
Proof.
  revert f. induction l as [|a l IH]; intros f; simpl; [done|].
  f_equal. change (imap _ l) with (imap (fun i (_ : A) => (f ∘ S) i) l).
  rewrite (IH (f ∘ S)). by rewrite <- seq_shift, List.map_map.
Qed.

Lemma build_index_suffix_text refs :
  let m := length (present_urls (take 3 (default [] refs))) in
  fst (_build_index_suffix refs) =
  match m with O => [] | _ => lit " (" ++ markers m ++ lit ")" end.
Proof.
  destruct refs as [[|s slots]|]; try reflexivity.
  unfold _build_index_suffix. cbn [default].
  pose proof (index_loop_nums (take 3 (s :: slots)) [] [] 1) as Hs.
  destruct (index_loop _ _ _ _) as [nums shown]. cbn [fst app] in Hs.
  rewrite imap_const_seq in Hs. cbv zeta.
  destruct (present_urls _) as [|u us].
  - by subst nums.
  - subst nums. cbn [length seq List.map fst]. unfold markers.
    cbn [seq List.map]. do 2 f_equal. f_equal.
    rewrite <- !seq_shift, !List.map_map. f_equal.
    apply List.map_ext. intros i. by rewrite (Z.add_comm 1).
Qed.

(** The base clause is never changed by [strip]: it starts with a letter of
    the phrase and ends with the dash. *)
Lemma strategy_phrase_cases cls :
  In (_strategy_phrase cls)
     [lit "Range-bound, IV watch"; lit "Bullish, defined risk";
      lit "Bearish, defined risk"; lit "Income; upside capped";
      lit "Signal unclear"; lit "Review setup"].
Proof.
  unfold _strategy_phrase. cbv zeta.
  repeat (rewrite lookup_insert; case_decide; [cbn [default In]; tauto|]).
  rewrite lookup_empty. cbn [default In]. tauto.
Qed.

Lemma lstrip_nonspace c s : isspace c = false -> lstrip (c :: s) = c :: s.
Proof. intros H. simpl. by rewrite H. Qed.

Lemma strip_tight c s d :
  isspace c = false -> isspace d = false ->
  strip (c :: s ++ [d]) = c :: s ++ [d].
Proof.
  intros Hc Hd. unfold strip, rstrip. rewrite (lstrip_nonspace _ _ Hc).
  change (c :: s ++ [d]) with ((c :: s) ++ [d]).
  rewrite List.rev_app_distr. change (rev [d] ++ rev (c :: s))
    with (d :: rev (c :: s)).
  rewrite (lstrip_nonspace _ _ Hd).
  change (d :: rev (c :: s)) with ([d] ++ rev (c :: s)).
  rewrite List.rev_app_distr, List.rev_involutive. reflexivity.
Qed.

Lemma base_unstripped x :
  base x = _strategy_phrase (class_ x) ++ lit ". Source: "
           ++ str_or (publisher x) (lit "News") ++ lit " " ++ DASH.
Proof.
  unfold base. cbv zeta.
  pose proof (strategy_phrase_cases (class_ x)) as Hp.
  assert (Hc : exists c r, _strategy_phrase (class_ x) = c :: r
                           /\ isspace c = false).
  { cbn [In] in Hp.
    repeat (destruct Hp as [<-|Hp]; [eexists _, _; split; reflexivity|]).
    destruct Hp. }
  destruct Hc as (c & r & -> & Hc).
  change DASH with ([226; 8364]%N ++ [8221%N]).
  rewrite !app_assoc, <- !app_comm_cons.
  apply strip_tight; [exact Hc | reflexivity].
Qed.

(** C5 (as amended): in the scenario of the specification the text is the
    phrase, the source clause, the dash as the source spells it, one space and
    the suffix ([1][2]), and refs_numbers maps 1 to https://a and 2 to
    https://b; for every refs value the numbering is dense: the URLs of the
    present slots among the first three, in slot order, get 1, 2, ... and the
    suffix lists exactly those numbers. *)
Theorem one_liner_dense_citations :
  one_liner scenario =
    inr {| text := lit "Range-bound, IV watch. Source: Reuters " ++ DASH
                   ++ lit " ([1][2])";
           refs_numbers := [ {| n := 1; ref_url := lit "https://a" |};
                             {| n := 2; ref_url := lit "https://b" |} ] |}
  /\ forall refs,
       let urls := present_urls (take 3 (default [] refs)) in
       snd (_build_index_suffix refs) = dense_numbering urls
       /\ fst (_build_index_suffix refs) =
          match length urls with
          | O => []
          | S _ => lit " (" ++ markers (length urls) ++ lit ")"
          end.
Proof.
  split; [vm_compute; reflexivity|].
  intros refs urls. split.
  - apply build_index_suffix_shown.
  - apply build_index_suffix_text.
Qed.

(** C5, the scenario as the specification words it does not hold: the text
    does not start with the claimed prefix, and not with that prefix spelled
    with the dash of the source either, since a space separates the dash from
    the suffix. *)
Lemma one_liner_scenario_prefix_differs :
  exists out, one_liner scenario = inr out
    /\ startswith (text out) scenario_prefix_claimed = false
    /\ startswith (text out) scenario_prefix_unspaced = false.
Proof. eexists. split; [vm_compute; reflexivity|]. split; reflexivity. Qed.

(** Slots [empty, {url: A}, {url: B}] give the suffix ([1][2]) and the mapping
    1 to A, 2 to B. *)
Lemma build_index_suffix_gap (a b : str) :
  a <> [] -> b <> [] ->
  _build_index_suffix
    (Some [None; Some {[ lit "url" := a ]}; Some {[ lit "url" := b ]}])
  = (lit " ([1][2])",
     [ {| n := 1; ref_url := a |}; {| n := 2; ref_url := b |} ]).
Proof.
  intros Ha Hb. unfold _build_index_suffix. cbn [take index_loop slot_url].
  rewrite !lookup_singleton_eq.
  destruct a; [done|]. destruct b; [done|]. reflexivity.
Qed.

(** C6 (as amended): whenever the operation returns, which it does unless
    confidence * 100 is not finite, the text is at most 180 characters long;
    it is the composed text when that has at most 180 characters, and
    otherwise its first 177 characters followed by the ellipsis marker. *)
Theorem one_liner_length_bound x :
  match one_liner x with
  | inr out =>
      (Z.of_nat (length (text out)) <= 180)
      /\ text out = (if 180 <? Z.of_nat (length (composed x))
                     then take 177 (composed x) ++ ELLIPSIS
                     else composed x)
  | inl _ => confidence_finite x = false
  end.
Proof.
  destruct (confidence_finite x) eqn:Hf.
  - rewrite (one_liner_returns x Hf). cbn [text]. split; [|reflexivity].
    destruct (Z.ltb_spec 180 (Z.of_nat (length (composed x)))) as [Hlt|Hle].
    + rewrite length_app, length_take. cbn [length ELLIPSIS]. lia.
    + exact Hle.
  - destruct (one_liner_raises x Hf) as [e ->]. reflexivity.
Qed.

(** C6, the clause on trailing whitespace does not hold: for a publisher with
    a space as 177th character of the composed text, truncation is required
    and the text returned ends with that space followed by the marker. *)
Lemma one_liner_space_before_ellipsis :
  exists out, one_liner spaced_publisher = inr out
    /\ (180 <? Z.of_nat (length (composed spaced_publisher))) = true
    /\ text out = take 176 (composed spaced_publisher) ++ [32%N] ++ ELLIPSIS
    /\ isspace 32%N = true.
Proof.
  eexists. split; [vm_compute; reflexivity|].
  repeat split; vm_compute; reflexivity.
Qed.

(** C10 (as amended): two requests that agree on class_, publisher and refs
    and whose confidence * 100 is finite both return, and return the same
    text and refs_numbers, whatever their confidence, title and url. *)
Theorem one_liner_ignores_headline x y :
  agree x y ->
  confidence_finite x = true -> confidence_finite y = true ->
  exists out, one_liner x = inr out /\ one_liner y = inr out.
Proof.
  intros (Hc & Hp & Hr) Hx Hy.
  rewrite (one_liner_returns x Hx), (one_liner_returns y Hy).
  unfold composed, base. rewrite Hc, Hp, Hr. eauto.
Qed.

Lemma one_liner_ignores_headline_witness :
  exists out, one_liner scenario = inr out
              /\ one_liner scenario_other_headline = inr out.
Proof.
  apply (one_liner_ignores_headline scenario scenario_other_headline).
  - repeat split; reflexivity.
  - vm_compute; reflexivity.
  - vm_compute; reflexivity.
Defined.

(** C10, as stated the claim does not hold: two requests that agree on
    class_, publisher and refs and differ in confidence alone, one returning
    a text and the other failing without a response. *)
Lemma one_liner_confidence_observable :
  agree scenario scenario_huge_confidence
  /\ (exists out, one_liner scenario = inr out)
  /\ one_liner scenario_huge_confidence = inl OverflowError.
Proof.
  split; [repeat split; reflexivity|].
  split; [eexists; vm_compute; reflexivity | vm_compute; reflexivity].
Qed.

End OneLinerFacts.

(** ** The gateway *)

Module GatewayFacts.
Import Py Gateway GatewaySpec.

Section Retries.
Context {Json : Type}.
Variable upstream : nat -> Request Json -> Outcome Json.
Variable cfg : Config.

(** If the next [j] answers are failures and the one after is a body, a loop
    with more than [j] iterations left returns that body after [j + 1]
    requests and [j] sleeps, when [time.sleep] accepts the delay. *)
Lemma retry_loop_succeeds req body : forall (j todo : nat) last net,
  time_sleep (DELAY cfg) = None ->
  (j < todo)%nat ->
  (forall i, (i < j)%nat ->
     exists e, upstream (length (sent net) + i)%nat req = Raises e) ->
  upstream (length (sent net) + j)%nat req = Returns body ->
  retry_loop upstream cfg todo req last net =
    (inr body,
     {| sent := sent net ++ replicate (S j) req;
        slept := slept net ++ replicate j (DELAY cfg) |}).
Proof.
  induction j as [|j IH]; intros todo last net Hs Hlt Hfail Hok.
  - destruct todo as [|todo]; [lia|]. cbn [retry_loop].
    rewrite Nat.add_0_r in Hok. rewrite Hok. cbn [replicate].
    by rewrite app_nil_r.
  - destruct todo as [|todo]; [lia|]. cbn [retry_loop].
    destruct (Hfail 0%nat ltac:(lia)) as [e He].
    rewrite Nat.add_0_r in He. rewrite He, Hs. cbn [sent slept].
    rewrite (IH todo (Some e)); cbn [sent slept].
    + rewrite <- !app_assoc. reflexivity.
    + exact Hs.
    + lia.
    + intros i Hi. rewrite length_app. cbn [length].
      destruct (Hfail (S i) ltac:(lia)) as [e' He'].
      exists e'. rewrite <- He'. f_equal. lia.
    + rewrite length_app. cbn [length]. rewrite <- Hok. f_equal. lia.
Qed.

(** If every answer is a failure, the loop makes all its iterations, sleeps
    after each, and raises 502, when [time.sleep] accepts the delay. *)
Lemma retry_loop_exhausts req : forall (todo : nat) last net,
  time_sleep (DELAY cfg) = None ->
  always_fails upstream req ->
  fails_after (retry_loop upstream cfg todo req last net) net req todo
              (DELAY cfg).
Proof.
  induction todo as [|todo IH]; intros last net Hs Hfail.
  - eexists. cbn [retry_loop replicate]. rewrite !app_nil_r.
    destruct net; reflexivity.
  - cbn [retry_loop]. destruct (Hfail (length (sent net))) as [e ->].
    rewrite Hs.
    destruct (IH (Some e)
                {| sent := sent net ++ [req];
                   slept := slept net ++ [DELAY cfg] |} Hs Hfail) as [d Hd].
    exists d. cbn [sent slept] in *. rewrite Hd.
    rewrite <- !app_assoc. reflexivity.
Qed.

(** C3 (as amended): with RETRIES non-negative and a DELAY that time.sleep
    accepts (not negative, not a NaN, not too large), a GET or a POST to a
    service that fails twice and then answers returns that answer after
    exactly 3 attempts when RETRIES is 2; to a service that always fails, it
    makes exactly RETRIES + 1 attempts and raises the upstream failure with
    status 502.  Every attempt sends the same request and every sleep lasts
    DELAY. *)
Theorem gateway_retry_attempts url params payload net :
  0 <= RETRIES cfg ->
  time_sleep (DELAY cfg) = None ->
  let get := {| method := GET; target := url; data := params |} in
  let post := {| method := POST; target := url; data := Some payload |} in
  let n0 := length (sent net) in
  (RETRIES cfg = 2 -> forall body,
     fails_twice_then upstream n0 get body ->
     returns_after (_get_json upstream cfg url params net) net get body 3
                   (DELAY cfg))
  /\ (RETRIES cfg = 2 -> forall body,
     fails_twice_then upstream n0 post body ->
     returns_after (_post_json upstream cfg url payload net) net post body 3
                   (DELAY cfg))
  /\ (always_fails upstream get ->
      fails_after (_get_json upstream cfg url params net) net get
                  (Z.to_nat (RETRIES cfg + 1)) (DELAY cfg))
  /\ (always_fails upstream post ->
      fails_after (_post_json upstream cfg url payload net) net post
                  (Z.to_nat (RETRIES cfg + 1)) (DELAY cfg)).
Proof.
  intros Hr Hs get post n0.
  assert (Hthree : forall req body last,
            RETRIES cfg = 2 -> fails_twice_then upstream n0 req body ->
            returns_after
              (retry_loop upstream cfg (Z.to_nat (RETRIES cfg + 1)) req last
                          net) net req body 3 (DELAY cfg)).
  { intros req body last H2 (H0 & H1 & Hok). unfold returns_after.
    rewrite H2. change (Z.to_nat (2 + 1)) with 3%nat.
    apply (retry_loop_succeeds req body 2 3); [exact Hs|lia| |].
    - intros i Hi. destruct i as [|[|i]]; [| |lia].
      + by rewrite Nat.add_0_r.
      + by rewrite Nat.add_1_r.
    - subst n0. by replace (length (sent net) + 2)%nat
                  with (S (S (length (sent net)))) by lia. }
  repeat split.
  - intros H2 body Hf. by apply Hthree.
  - intros H2 body Hf. by apply Hthree.
  - intros Hf. by apply retry_loop_exhausts.
  - intros Hf. by apply retry_loop_exhausts.
Qed.

End Retries.

Lemma gateway_retry_attempts_witness :
  (0 <= RETRIES default_config)
  /\ time_sleep (DELAY default_config) = None
  /\ returns_after
       (_get_json flaky_stub default_config (lit "http://ctx/api/features/v2")
                  None idle)
       idle
       {| method := GET; target := lit "http://ctx/api/features/v2";
          data := None |}
       (lit "{}") 3 (DELAY default_config)
  /\ fails_after
       (_post_json dead_stub default_config (lit "http://rec/api/recommend")
                   (lit "{}") idle)
       idle
       {| method := POST; target := lit "http://rec/api/recommend";
          data := Some (lit "{}") |}
       3 (DELAY default_config).
Proof.
  split; [vm_compute; discriminate|]. split; [vm_compute; reflexivity|].
  split.
  - apply (gateway_retry_attempts flaky_stub default_config
             (lit "http://ctx/api/features/v2") None (lit "{}") idle).
    + vm_compute; discriminate.
    + vm_compute; reflexivity.
    + reflexivity.
    + repeat split; eauto.
  - apply (gateway_retry_attempts dead_stub default_config
             (lit "http://rec/api/recommend") None (lit "{}") idle).
    + vm_compute; discriminate.
    + vm_compute; reflexivity.
    + intros k. eexists. reflexivity.
Defined.

(** With RETRIES 2 and a DELAY of -1, a GET to the service that fails twice
    and then answers does not return after 3 attempts: the sleep after the
    first failure raises ValueError, which ends the call after one request
    and no sleep. *)
Lemma gateway_negative_delay :
  let get := {| method := GET; target := lit "http://ctx/api/features/v2";
                data := None |} in
  RETRIES negative_delay_config = 2
  /\ fails_twice_then flaky_stub 0 get (lit "{}")
  /\ _get_json flaky_stub negative_delay_config
       (lit "http://ctx/api/features/v2") None idle
     = (inl (Sleep ValueError), {| sent := [get]; slept := [] |})
  /\ ~ returns_after
        (_get_json flaky_stub negative_delay_config
           (lit "http://ctx/api/features/v2") None idle)
        idle get (lit "{}") 3 (DELAY negative_delay_config).
Proof.
  intros get. split; [reflexivity|]. split; [repeat split; eauto|].
  split; [vm_compute; reflexivity|].
  unfold returns_after. vm_compute. discriminate.
Qed.

End GatewayFacts.

(** ** The feature aggregator *)

Module FeaturesFacts.
Import Py Features FeaturesSpec FeaturesExamples.
Local Open Scope m_scope.

(** *** Sequencing *)

Lemma bind_inr {A B} (m : M A) (k : A -> M B) st b st' :
  bind m k st = (inr b, st') ->
  exists a s1, m st = (inr a, s1) /\ k a s1 = (inr b, st').
Proof.
  unfold bind. destruct (m st) as [[e|a] s1]; [discriminate|]. eauto.
Qed.

Lemma bind_step {A B} (m : M A) (k : A -> M B) st a s1 :
  m st = (inr a, s1) -> bind m k st = k a s1.
Proof. unfold bind. by intros ->. Qed.

Lemma bind_raise {A B} (m : M A) (k : A -> M B) st e s1 :
  m st = (inl e, s1) -> bind m k st = (inl e, s1).
Proof. unfold bind. by intros ->. Qed.

Lemma attempt_eq {A} (m : M A) st :
  attempt m st = (inr (fst (m st)), snd (m st)).
Proof. unfold attempt. by destruct (m st). Qed.

(** *** Relations between the state before and after a computation *)

Section Frames.
Context {ext : Externals}.
Variable w : World.
Variable R : State -> State -> Prop.

Local Abbreviation respects := (FeaturesSpec.respects R).

Hypothesis R_refl : forall st, R st st.
Hypothesis R_trans : forall a b c, R a b -> R b c -> R a c.
Hypothesis R_emit : forall st e,
  R st {| reads := reads st; _QUOTE_RING := _QUOTE_RING st;
          cache := cache st; events := events st ++ [e] |}.
Hypothesis R_read : forall st,
  R st {| reads := S (reads st); _QUOTE_RING := _QUOTE_RING st;
          cache := cache st; events := events st |}.
Hypothesis R_note : forall ticker px st,
  R st (snd (_note_quote w ticker px st)).

Lemma respects_ret {A} (a : A) : respects (ret a).
Proof. intros st. apply R_refl. Qed.

Lemma respects_raise {A} e : respects (@raise A e).
Proof. intros st. apply R_refl. Qed.

Lemma respects_lift {A} (r : Exn + A) : respects (lift r).
Proof. intros st. apply R_refl. Qed.

Lemma respects_bind {A B} (m : M A) (k : A -> M B) :
  respects m -> (forall a, respects (k a)) -> respects (bind m k).
Proof.
  intros Hm Hk st. unfold bind. specialize (Hm st).
  destruct (m st) as [[e|a] s1]; cbn [snd] in *; [done|].
  eapply R_trans; [exact Hm | apply Hk].
Qed.

Lemma respects_attempt {A} (m : M A) : respects m -> respects (attempt m).
Proof. intros Hm st. rewrite attempt_eq. apply Hm. Qed.

Lemma respects_emit e : respects (emit e).
Proof. intros st. apply R_emit. Qed.

Lemma respects_call {A} e (r : Exn + A) : respects (call e r).
Proof.
  apply respects_bind; [apply respects_emit | intros; apply respects_lift].
Qed.

Lemma respects_now : respects (datetime_now w).
Proof. intros st. apply R_read. Qed.

Lemma respects_get_ring ticker : respects (get_ring ticker).
Proof. intros st. apply R_refl. Qed.

Lemma respects_note ticker px : respects (_note_quote w ticker px).
Proof. intros st. apply R_note. Qed.

Ltac frame :=
  repeat first
    [ apply respects_note | apply respects_ret | apply respects_raise | apply respects_lift
    | apply respects_emit | apply respects_call | apply respects_now
    | apply respects_get_ring
    | apply respects_attempt
    | apply respects_bind; [|intros ?]
    | progress cbv zeta
    | match goal with
      | |- respects (match ?x with _ => _ end) => destruct x
      | |- respects (if ?b then _ else _) => destruct b
      end ].

Lemma respects_iso_now : respects (iso_now w).
Proof. unfold iso_now. frame. Qed.

Lemma respects_parse s : respects (_parse_iso_aware w s).
Proof. unfold _parse_iso_aware. frame. Qed.

Lemma respects_ret_from_ring ticker minutes :
  respects (_ret_from_ring w ticker minutes).
Proof. unfold _ret_from_ring. frame. Qed.

Lemma respects_sent hs : respects (_sent_from_headlines w hs).
Proof. unfold _sent_from_headlines. frame. Qed.

Lemma respects_headlines ticker : respects (headlines_section w ticker).
Proof. unfold headlines_section. frame. Qed.

Lemma respects_quotes ticker q cs : respects (quotes_section w ticker q cs).
Proof. unfold quotes_section. frame. Qed.

Lemma respects_latest pool : forall acc, respects (latest_of w pool acc).
Proof.
  induction pool as [|s pool IH]; intros acc; cbn [latest_of].
  - apply respects_ret.
  - apply respects_bind; [apply respects_parse | intros; apply IH].
Qed.

Lemma respects_news_age fh yh : respects (news_age_section w fh yh).
Proof.
  unfold news_age_section.
  apply respects_bind; [|intros; apply respects_ret].
  apply respects_bind; [apply respects_latest|]. intros. frame.
Qed.

Lemma respects_returns ticker cs px : respects (returns_section w ticker cs px).
Proof.
  unfold returns_section. frame.
Qed.

Lemma respects_earnings ticker : respects (earnings_section w ticker).
Proof. unfold earnings_section. frame; apply respects_parse. Qed.

Lemma respects_synthetic top err : respects (synthetic_payload w top err).
Proof. unfold synthetic_payload. frame. Qed.

Hypothesis R_cache : forall st c,
  R st {| reads := reads st; _QUOTE_RING := _QUOTE_RING st; cache := c;
          events := events st |}.

Lemma respects_get_cached ticker : respects (get_cached ticker).
Proof.
  unfold get_cached. apply respects_bind; [apply respects_emit|].
  intros _ st. apply R_refl.
Qed.

Lemma respects_put_cached ticker p : respects (put_cached ticker p).
Proof.
  unfold put_cached. apply respects_bind; [apply respects_emit|].
  intros _ st. apply R_cache.
Qed.

Lemma respects_aggregate ticker err fh yh top :
  respects (aggregate w ticker err fh yh top).
Proof.
  unfold aggregate. cbv zeta.
  apply respects_bind; [apply respects_sent|]. intros [sm ss].
  apply respects_bind; [apply respects_call|]. intros q.
  apply respects_bind; [apply respects_call|]. intros cs.
  apply respects_bind; [apply respects_quotes|]. intros [[[px b] a] ql].
  apply respects_bind; [apply respects_news_age|]. intros m.
  apply respects_bind; [apply respects_returns|]. intros [[[r1 r5] rv] ab].
  apply respects_bind; [apply respects_earnings|]. intros es.
  apply respects_bind; [apply respects_iso_now|]. intros t.
  apply respects_bind; [apply respects_put_cached|]. intros _.
  apply respects_ret.
Qed.

Lemma respects_degrade ticker top e : respects (degrade w ticker top e).
Proof.
  unfold degrade. cbv zeta.
  apply respects_bind; [apply respects_synthetic|]. intros p.
  apply respects_bind; [apply respects_put_cached|]. intros _.
  apply respects_ret.
Qed.

Lemma respects_build_features_for ticker :
  respects (build_features_for w ticker).
Proof.
  unfold build_features_for. cbv zeta. case_bool_decide.
  - apply respects_bind; [apply respects_get_cached|]. intros [p|].
    + apply respects_ret.
    + apply respects_bind.
      * apply respects_attempt, respects_headlines.
      * intros [e|[[err fh] yh]]; [apply respects_degrade|].
        apply respects_bind.
        -- apply respects_attempt, respects_aggregate.
        -- intros [e|p]; [apply respects_degrade | apply respects_ret].
  - apply respects_synthetic.
Qed.

End Frames.

(** *** The quote ring *)

Section Ring.
Context {ext : Externals}.
Variable w : World.

Lemma deque_append_drop {A} (ring : list A) x :
  deque_append 600 ring x = drop (length (ring ++ [x]) - 600) (ring ++ [x]).
Proof. reflexivity. Qed.

Lemma deque_append_length {A} (ring : list A) x :
  (length (deque_append 600 ring x) <= 600)%nat.
Proof. rewrite deque_append_drop, length_drop. lia. Qed.

Lemma popleft_while_drop cut ring :
  exists k, popleft_while cut ring = drop k ring.
Proof.
  induction ring as [|[t px] ring [k IH]]; cbn [popleft_while].
  - by exists 0%nat.
  - destruct (t <? cut); [by exists (S k) | by exists 0%nat].
Qed.

Lemma popleft_while_recent cut ring :
  StronglySorted (fun a b : Z * float => fst a <= fst b) ring ->
  Forall (fun s => cut <= fst s) (popleft_while cut ring).
Proof.
  induction 1 as [|[t px] ring Hs IH Hall]; cbn [popleft_while]; [done|].
  destruct (Z.ltb_spec t cut) as [Hlt|Hge]; [exact IH|].
  constructor; [exact Hge|].
  eapply Forall_impl; [exact Hall|]. cbn. intros; lia.
Qed.

Lemma sorted_drop {A} (R : relation A) k l :
  StronglySorted R l -> StronglySorted R (drop k l).
Proof.
  intros H. rewrite <- (take_drop k l) in H.
  by apply StronglySorted_app_1_r in H.
Qed.

Lemma sorted_snoc (ring : list (Z * float)) s :
  StronglySorted (fun a b => fst a <= fst b) ring ->
  Forall (fun x => fst x <= fst s) ring ->
  StronglySorted (fun a b => fst a <= fst b) (ring ++ [s]).
Proof.
  intros Hs Hall. apply StronglySorted_app_2; [|done|repeat constructor].
  intros x y Hx Hy. apply list_elem_of_singleton in Hy as ->.
  by eapply Forall_forall in Hall.
Qed.

Lemma drop_snoc_last {A} k (l : list A) x l' y :
  drop k (l ++ [x]) = l' ++ [y] -> y = x.
Proof.
  intros H. pose proof (take_drop k (l ++ [x])) as Htd. rewrite H in Htd.
  rewrite app_assoc in Htd. by apply app_inj_tail in Htd as [_ ->].
Qed.

(** What [_note_quote] does to the state: two readings of the clock, and the
    ring of the ticker appended to and then trimmed. *)
Lemma note_quote_effect ticker px st :
  _note_quote w ticker px st =
    (inr tt,
     {| reads := S (S (reads st));
        _QUOTE_RING :=
          <[ticker :=
              popleft_while (now w (S (reads st)) - 10 * MINUTE)
                (deque_append 600 (ring_of st ticker)
                              (now w (reads st), px))]> (_QUOTE_RING st);
        cache := cache st; events := events st |}).
Proof.
  unfold _note_quote, bind, get_ring, datetime_now, set_ring, ring_of.
  cbn [reads _QUOTE_RING cache events]. by rewrite insert_insert_eq.
Qed.

(** The ring just written by an append, under a clock that never goes
    back. *)
Lemma note_quote_ring ring t t' px clock n :
  clock_monotone clock -> t = clock n -> t' = clock (S n) ->
  ring_ok clock n ring ->
  let ring' := popleft_while (t' - 10 * MINUTE)
                 (deque_append 600 ring (t, px)) in
  ring_ok clock (S (S n)) ring'
  /\ Forall (fun s => t - 10 * MINUTE <= fst s) ring'
  /\ exists k, ring' = drop k (ring ++ [(t, px)]).
Proof.
  intros Hmono -> -> (Hlen & Hsort & Hpast & Hwin) ring'.
  assert (Hfull : StronglySorted (fun a b : Z * float => fst a <= fst b)
                    (ring ++ [(clock n, px)])).
  { apply sorted_snoc; [done|]. eapply Forall_impl; [exact Hpast|].
    cbn. intros s Hs. apply Hs. lia. }
  destruct (popleft_while_drop (clock (S n) - 10 * MINUTE)
              (deque_append 600 ring (clock n, px))) as [k2 Hk2].
  assert (Hdrop : ring' = drop (length (ring ++ [(clock n, px)]) - 600 + k2)
                            (ring ++ [(clock n, px)])).
  { subst ring'. rewrite Hk2, deque_append_drop, drop_drop. done. }
  assert (Hrecent : Forall (fun s => clock n - 10 * MINUTE <= fst s) ring').
  { subst ring'. eapply Forall_impl.
    - apply popleft_while_recent. rewrite deque_append_drop.
      by apply sorted_drop.
    - cbn. intros s Hs. pose proof (Hmono n (S n) ltac:(lia)). lia. }
  split; [|split; [exact Hrecent | eauto]].
  split; [|split; [|split]].
  - unfold ring'. rewrite Hk2, length_drop. pose proof (deque_append_length ring (clock n, px)).
    lia.
  - rewrite Hdrop. by apply sorted_drop.
  - rewrite Hdrop. apply Forall_drop. apply Forall_app. split.
    + eapply Forall_impl; [exact Hpast|]. cbn. intros s Hs j Hj.
      apply Hs. lia.
    + repeat constructor. cbn. intros j Hj. apply Hmono. lia.
  - intros l s Hl. rewrite Hdrop in Hl. apply drop_snoc_last in Hl as ->.
    exact Hrecent.
Qed.

End Ring.

(** *** The three relations hold along every section of the aggregator *)

Section Relations.
Context {ext : Externals}.
Variable w : World.

Lemma same_cache_note ticker px st :
  same_cache st (snd (_note_quote w ticker px st)).
Proof. rewrite note_quote_effect. unfold same_cache. cbn. split; [done|lia]. Qed.

Lemma rings_ok_later clock st st' :
  _QUOTE_RING st' = _QUOTE_RING st -> (reads st <= reads st')%nat ->
  rings_ok clock st -> rings_ok clock st'.
Proof.
  intros Hr Hn Hok ticker ring Hl. rewrite Hr in Hl.
  destruct (Hok ticker ring Hl) as (H1 & H2 & H3 & H4).
  repeat split; try done.
  eapply Forall_impl; [exact H3|]. cbn. intros s Hs j Hj. apply Hs. lia.
Qed.

Lemma kept_note ticker px st :
  clock_monotone (now w) ->
  kept (now w) st (snd (_note_quote w ticker px st)).
Proof.
  intros Hmono. rewrite note_quote_effect. cbn [snd]. split; [cbn; lia|].
  intros Hok tk ring. cbn [_QUOTE_RING reads].
  destruct (decide (ticker = tk)) as [<-|Hne].
  - rewrite lookup_insert_eq. intros [= <-].
    apply (note_quote_ring (ring_of st ticker) _ _ px (now w) (reads st));
      try done.
    unfold ring_of. destruct (_QUOTE_RING st !! ticker) as [r|] eqn:E.
    + cbn [default]. by apply (Hok ticker).
    + cbn [default]. split; [cbn; lia|]. split; [constructor|].
      split; [constructor|]. intros l s Hl. by destruct l.
  - rewrite lookup_insert_ne by done. intros Hl.
    destruct (Hok tk ring Hl) as (H1 & H2 & H3 & H4).
    repeat split; try done.
    eapply Forall_impl; [exact H3|]. cbn. intros s Hs j Hj. apply Hs. lia.
Qed.

Lemma kept_trans clock a b c : kept clock a b -> kept clock b c -> kept clock a c.
Proof. unfold kept. intros [? ?] [? ?]. split; [lia|auto]. Qed.

Lemma same_cache_trans a b c : same_cache a b -> same_cache b c -> same_cache a c.
Proof. unfold same_cache. intros [-> ?] [-> ?]. split; [done|lia]. Qed.

End Relations.

Ltac same_cache_frame lem :=
  apply lem;
  solve [ apply same_cache_trans
        | apply same_cache_note
        | intros; unfold same_cache; cbn; split; [done|lia] ].

Section Results.
Context {ext : Externals}.
Variable w : World.

Lemma same_cache_of {A} (m : M A) st r st' :
  respects same_cache m -> m st = (r, st') -> same_cache st st'.
Proof. intros H E. specialize (H st). by rewrite E in H. Qed.

Lemma same_cache_sent hs : respects same_cache (_sent_from_headlines w hs).
Proof. same_cache_frame (respects_sent w). Qed.

Lemma same_cache_call {A} ev (r : Exn + A) : respects same_cache (call ev r).
Proof. same_cache_frame (@respects_call). Qed.

Lemma same_cache_headlines ticker :
  respects same_cache (headlines_section w ticker).
Proof. same_cache_frame (respects_headlines w). Qed.

Lemma same_cache_quotes ticker q cs :
  respects same_cache (quotes_section w ticker q cs).
Proof. same_cache_frame (respects_quotes w). Qed.

Lemma same_cache_news fh yh : respects same_cache (news_age_section w fh yh).
Proof. same_cache_frame (respects_news_age w). Qed.

Lemma same_cache_returns ticker cs px :
  respects same_cache (returns_section w ticker cs px).
Proof. same_cache_frame (respects_returns w). Qed.

Lemma same_cache_earnings ticker :
  respects same_cache (earnings_section w ticker).
Proof. same_cache_frame (respects_earnings w). Qed.

Lemma same_cache_iso_now : respects same_cache (iso_now w).
Proof. same_cache_frame (respects_iso_now w). Qed.

Lemma same_cache_get_cached ticker : respects same_cache (get_cached ticker).
Proof. same_cache_frame (@respects_get_cached). Qed.

Lemma call_eq {A} ev (r : Exn + A) st :
  call ev r st =
    (r, {| reads := reads st; _QUOTE_RING := _QUOTE_RING st;
           cache := cache st; events := events st ++ [ev] |}).
Proof. reflexivity. Qed.

Lemma headlines_section_result ticker st err fh yh st1 :
  headlines_section w ticker st = (inr (err, fh, yh), st1) ->
  fh = headlines_of (fetch_headlines w ticker 5)
  /\ yh = headlines_of (fetch_headlines_yahoo w ticker 5).
Proof.
  unfold headlines_section. intros H.
  apply bind_inr in H as (r & s1 & H1 & H).
  rewrite attempt_eq, call_eq in H1. cbn [fst snd] in H1.
  injection H1 as <- <-.
  apply bind_inr in H as ([err0 fh0] & s2 & H2 & H).
  apply bind_inr in H as (r2 & s3 & H3 & H).
  rewrite attempt_eq, call_eq in H3. cbn [fst snd] in H3.
  injection H3 as <- <-.
  assert (Hfh : fh0 = headlines_of (fetch_headlines w ticker 5)).
  { destruct (fetch_headlines w ticker 5) as [e|l]; cbn in *.
    - destruct (exn_class e); [|discriminate..]. by injection H2 as <- <- <-.
    - by injection H2 as <- <- <-. }
  destruct (fetch_headlines_yahoo w ticker 5) as [e|l];
    injection H as <- <- <- <-; by subst.
Qed.

(** The quotes section never raises, and its result is either the observed
    bid and ask or the estimated spread. *)
Lemma quotes_section_result ticker q cs st :
  exists last_px b a ql,
    fst (quotes_section w ticker q cs st) = inr (last_px, b, a, ql)
    /\ PrimFloat.leb last_px 0%float = false
    /\ (if spread_kept (observed (q_bid q)) (observed (q_ask q))
        then observed (q_bid q) = Some b /\ observed (q_ask q) = Some a
             /\ ql = (if PrimFloat.ltb 0%float (primary_last q cs)
                      then real else unknown)
        else b = PrimFloat.sub last_px (half_spread last_px)
             /\ a = PrimFloat.add last_px (half_spread last_px)
             /\ ql = estimated).
Proof.
  unfold quotes_section. fold (primary_last q cs). cbv zeta.
  set (px0 := primary_last q cs).
  set (fallback :=
         if PrimFloat.leb px0 0%float then _ else ret px0).
  assert (Hfb : exists px s1, fallback st = (inr px, s1)).
  { unfold fallback. destruct (PrimFloat.leb px0 0%float); [|by eexists _, _].
    unfold bind, attempt, call, emit, lift, ret.
    destruct (fetch_quote_finnhub w ticker) as [e|qfh]; cbn; [by eexists _, _|].
    destruct (q_last qfh); by eexists _, _. }
  destruct Hfb as (px & s1 & Hfb).
  rewrite (bind_step _ _ _ _ _ Hfb).
  set (px1 := if PrimFloat.leb px 0%float then 1%float else px).
  assert (Hpos : PrimFloat.leb px1 0%float = false).
  { unfold px1. destruct (PrimFloat.leb px 0%float) eqn:E; [reflexivity|done]. }
  pose proof (note_quote_effect w ticker px1 s1) as Hn.
  rewrite (bind_step _ _ _ _ _ Hn).
  unfold spread_kept, half_spread.
  destruct (observed (q_bid q)) as [b|], (observed (q_ask q)) as [a|];
    try (eexists _, _, _, _; cbn; split; [reflexivity|]; split; [exact Hpos|];
         repeat split; reflexivity).
  destruct (PrimFloat.leb a b); cbn [negb];
    eexists _, _, _, _; cbn; (split; [reflexivity|]); (split; [exact Hpos|]);
    repeat split; reflexivity.
Qed.

End Results.

(** *** Refs *)

Section Refs.

#[local] Set Warnings "-clear-no-such-hyp".

Lemma merge_scan_spec lst : forall (seen : gset str) (out : list Ref),
  size seen = length out -> (length out < 3)%nat ->
  let r := merge_scan lst seen out in
  let all := seen ∪ list_to_set (omap ref_key lst) in
  size (fst r) = length (snd r)
  /\ length (snd r) = (3 `min` size all)%nat
  /\ ((length (snd r) < 3)%nat -> fst r = all).
Proof.
  induction lst as [|h rest IH]; intros seen out Hsz Hlt; cbn zeta.
  - cbn [merge_scan fst snd].
    replace (seen ∪ list_to_set (omap ref_key [])) with seen by set_solver.
    split; [done|]. split; [lia|done].
  - assert (Hkey : omap ref_key (h :: rest)
                   = match ref_key h with
                     | Some u => u :: omap ref_key rest
                     | None => omap ref_key rest
                     end) by reflexivity.
    rewrite Hkey. clear Hkey. cbn [merge_scan]. cbv zeta.
    assert (Hk : ref_key h
                 = if truthy (strip (or_empty (h_title h)))
                      && truthy (strip (or_empty (h_url h)))
                   then Some (strip (or_empty (h_url h))) else None)
      by reflexivity.
    rewrite Hk. clear Hk.
    set (t := strip (or_empty (h_title h))).
    set (u := strip (or_empty (h_url h))).
    destruct (truthy t), (truthy u); cbn [negb orb andb];
      try (apply IH; done).
    cbn [list_to_set].
    destruct (decide (u ∈ seen)) as [Hin|Hnin].
    + replace (seen ∪ ({[u]} ∪ list_to_set (omap ref_key rest)))
        with (seen ∪ list_to_set (omap ref_key rest)) by set_solver.
      by apply IH.
    + set (out1 := out ++ [_]).
      assert (Hlen1 : length out1 = S (length out)).
      { unfold out1. rewrite length_app. cbn. lia. }
      assert (Hsz1 : size ({[u]} ∪ seen) = length out1).
      { rewrite size_union by set_solver. rewrite size_singleton. lia. }
      replace (seen ∪ ({[u]} ∪ list_to_set (omap ref_key rest)))
        with (({[u]} ∪ seen) ∪ list_to_set (omap ref_key rest)) by set_solver.
      destruct (Nat.leb_spec 3 (length out1)) as [Hge|Hlt1].
      * cbn [fst snd]. split; [done|]. split; [|lia].
        assert (size ({[u]} ∪ seen)
                <= size ({[u]} ∪ seen ∪ list_to_set (omap ref_key rest)))%nat
          by (apply subseteq_size; set_solver).
        lia.
      * by apply IH.
Qed.

Lemma merge_refs_length ticker fh yh :
  length (_merge_refs ticker fh yh) = (3 `min` size (unique_urls fh yh))%nat.
Proof.
  unfold _merge_refs, unique_urls. rewrite omap_app, list_to_set_app_L.
  pose proof (merge_scan_spec fh ∅ [] ltac:(done) ltac:(cbn; lia)) as H.
  cbv zeta in H.
  replace (∅ ∪ list_to_set (omap ref_key fh)) with
    (list_to_set (omap ref_key fh) : gset str) in H by set_solver.
  destruct (merge_scan fh ∅ []) as [seen out]. cbn [fst snd] in H.
  destruct H as (Hsz & Hlen & Hall).
  destruct (Nat.leb_spec 3 (length out)) as [Hge|Hlt].
  - assert (size (list_to_set (omap ref_key fh) : gset str)
            <= size (list_to_set (omap ref_key fh)
                     ∪ list_to_set (omap ref_key yh) : gset str))%nat
      by (apply subseteq_size; set_solver).
    lia.
  - pose proof (merge_scan_spec yh seen out Hsz Hlt) as H2. cbv zeta in H2.
    specialize (Hall Hlt). subst seen. by destruct H2 as (_ & -> & _).
Qed.

Lemma pad_refs_length rs :
  (length rs <= 3)%nat -> length (pad_refs rs) = 3%nat.
Proof.
  intros H. unfold pad_refs.
  rewrite length_app, length_fmap, length_replicate. lia.
Qed.

Lemma pad_refs_present rs : present_slots (pad_refs rs) = length rs.
Proof.
  unfold present_slots, pad_refs. rewrite List.filter_app, length_app.
  assert (H1 : forall l : list Ref,
            List.filter (fun r => bool_decide (r <> None)) (Some <$> l)
            = Some <$> l).
  { induction l as [|x l IH]; [done|]. cbn. by rewrite IH. }
  assert (H2 : forall k,
            List.filter (fun r : option Ref => bool_decide (r <> None))
                        (replicate k None) = []).
  { induction k as [|k IH]; [done|]. cbn. exact IH. }
  rewrite H1, H2, length_fmap. cbn. lia.
Qed.

End Refs.

(** *** Minutes since the news *)

Section NewsAge.
Context {ext : Externals}.
Variable w : World.

Local Abbreviation past := (FeaturesSpec.past w).

Lemma past_later n n' x : (n <= n')%nat -> past n x -> past n' x.
Proof. intros Hn Hp j Hj. apply Hp. lia. Qed.

Lemma parse_result s st :
  exists r st1,
    _parse_iso_aware w s st = (r, st1)
    /\ (reads st <= reads st1)%nat
    /\ forall t, r = inr t ->
         (clock_monotone (now w) ->
          (forall t', truthy s = true ->
             fromisoformat (replace_char 90%N (lit "+00:00") s) = Some t' ->
             past (reads st) t') ->
          past (reads st1) t)
         /\ (forall t', truthy s = true ->
               fromisoformat (replace_char 90%N (lit "+00:00") s) = Some t' ->
               t = t').
Proof.
  unfold _parse_iso_aware.
  assert (Hnow : forall P : Prop,
            exists r st1,
              datetime_now w st = (r, st1)
              /\ (reads st <= reads st1)%nat
              /\ forall t, r = inr t ->
                   (clock_monotone (now w) -> P -> past (reads st1) t)).
  { intros P. eexists _, _. split; [reflexivity|]. cbn. split; [lia|].
    intros t [= <-] Hm _ j Hj. apply Hm. lia. }
  destruct (truthy s) eqn:Ht; cbn [negb].
  - destruct (fromisoformat _) as [d|] eqn:Hp.
    + destruct ((d <? DATETIME_MIN) || (DATETIME_MAX <? d)).
      * eexists _, st. split; [reflexivity|]. split; [lia|]. discriminate.
      * exists (inr d), st. split; [reflexivity|]. split; [lia|].
        intros t [= <-]. split.
        -- intros _ H. by apply H.
        -- intros t' _ [= <-]. reflexivity.
    + destruct (Hnow (forall t', true = true -> None = Some t' ->
                                 past (reads st) t'))
        as (r & st1 & H1 & H2 & H3).
      exists r, st1. split; [exact H1|]. split; [exact H2|].
      intros t Hr. split; [by apply H3|]. discriminate.
  - destruct (Hnow (forall t', false = true ->
                      fromisoformat (replace_char 90%N (lit "+00:00") s)
                      = Some t' -> past (reads st) t'))
      as (r & st1 & H1 & H2 & H3).
    exists r, st1. split; [exact H1|]. split; [exact H2|].
    intros t Hr. split; [by apply H3|]. discriminate.
Qed.

Lemma latest_of_result pool : forall acc st,
  exists r st1,
    latest_of w pool acc st = (r, st1)
    /\ (reads st <= reads st1)%nat
    /\ forall l, r = inr l ->
         (clock_monotone (now w) ->
          (forall s t, s ∈ pool -> truthy s = true ->
             fromisoformat (replace_char 90%N (lit "+00:00") s) = Some t ->
             past (reads st) t) ->
          (forall a, acc = Some a -> past (reads st) a) ->
          forall x, l = Some x -> past (reads st1) x)
         /\ (forall a, acc = Some a -> exists x, l = Some x /\ a <= x)
         /\ (forall s t, s ∈ pool -> truthy s = true ->
               fromisoformat (replace_char 90%N (lit "+00:00") s) = Some t ->
               exists x, l = Some x /\ t <= x).
Proof.
  induction pool as [|s pool IH]; intros acc st; cbn [latest_of].
  - exists (inr acc), st. split; [reflexivity|]. split; [lia|].
    intros l [= <-]. split; [auto|]. split.
    + intros a ->. exists a. split; [done|lia].
    + intros s t Hs. by apply elem_of_nil in Hs.
  - destruct (parse_result s st) as (r & s1 & Hp & Hr & Hres).
    destruct r as [e|t].
    { rewrite (bind_raise _ _ _ _ _ Hp). eexists _, s1.
      split; [reflexivity|]. split; [lia|]. intros l Hl. discriminate Hl. }
    rewrite (bind_step _ _ _ _ _ Hp).
    destruct (Hres t eq_refl) as [Hpast Hexact].
    destruct (IH (Some (match acc with Some a => a `max` t | None => t end)) s1)
      as (r2 & s2 & Hl & Hr2 & Hres2).
    exists r2, s2. split; [exact Hl|]. split; [lia|].
    intros l Hrl. destruct (Hres2 l Hrl) as (Hpast2 & Hacc2 & Hpool2).
    split; [|split].
    + intros Hm Hpool Hacc x Hx. apply (Hpast2 Hm); [| |exact Hx].
      * intros s' t' Hin Ht Hf. apply (past_later (reads st)); [lia|].
        apply (Hpool s'); [by right|done..].
      * intros a [= <-].
        assert (Ht : past (reads s1) t).
        { apply Hpast; [done|]. intros t' Ht' Hf.
          apply (Hpool s); [by left|done..]. }
        destruct acc as [a|]; [|done].
        assert (Ha : past (reads s1) a)
          by (apply (past_later (reads st)); [lia|by apply Hacc]).
        intros j Hj. specialize (Ht j Hj). specialize (Ha j Hj). lia.
    + intros a ->. destruct (Hacc2 _ eq_refl) as (x & Hx & Hle).
      exists x. split; [done|lia].
    + intros s' t' [->|Hin]%elem_of_cons Ht Hf.
      * rewrite <- (Hexact t' Ht Hf).
        destruct (Hacc2 _ eq_refl) as (x & Hx & Hle).
        exists x. split; [done|]. destruct acc; lia.
      * by apply (Hpool2 s').
Qed.

Lemma news_age_result fh yh st m st1 :
  news_age_section w fh yh st = (inr m, st1) ->
  m <= 240
  /\ (clock_monotone (now w) -> no_future_news w st (fh ++ yh) -> 0 <= m)
  /\ (forall h t, h ∈ fh ++ yh -> parsed_ts h = Some t ->
        (forall k, now w k < t) -> m < 0).
Proof.
  unfold news_age_section. cbv zeta.
  set (pool := omap _ (fh ++ yh)).
  assert (Hpool : forall s t, s ∈ pool -> truthy s = true ->
            fromisoformat (replace_char 90%N (lit "+00:00") s) = Some t ->
            exists h, h ∈ fh ++ yh /\ parsed_ts h = Some t).
  { intros s t Hs Ht Hf. apply list_elem_of_omap in Hs as (h & Hh & Hts).
    exists h. split; [done|]. unfold parsed_ts.
    destruct (h_ts h) as [s'|]; [|done].
    destruct (truthy s') eqn:E; [|done]. by simplify_eq. }
  assert (Hin : forall h t, h ∈ fh ++ yh -> parsed_ts h = Some t ->
            exists s, s ∈ pool /\ truthy s = true
              /\ fromisoformat (replace_char 90%N (lit "+00:00") s) = Some t).
  { intros h t Hh Ht. unfold parsed_ts in Ht.
    destruct (h_ts h) as [s|] eqn:Es; [|done].
    destruct (truthy s) eqn:E; [|done]. exists s. split; [|done].
    apply list_elem_of_omap. exists h. split; [done|]. by rewrite Es, E. }
  destruct (latest_of_result pool None st) as (r & s1 & Hl & Hr & Hres).
  set (inner := bind (latest_of w pool None) _).
  intros Hn.
  destruct (inner st) as [[e|raw] s2] eqn:Ein.
  { by rewrite (bind_raise _ _ _ _ _ Ein) in Hn. }
  rewrite (bind_step _ _ _ _ _ Ein) in Hn. injection Hn as <- <-.
  assert (Hraw : (clock_monotone (now w) -> no_future_news w st (fh ++ yh) ->
                  0 <= raw)
                 /\ (forall h t, h ∈ fh ++ yh -> parsed_ts h = Some t ->
                       (forall k, now w k < t) -> raw < 0)).
  { unfold inner in Ein. destruct r as [e|l].
    { by rewrite (bind_raise _ _ _ _ _ Hl) in Ein. }
    rewrite (bind_step _ _ _ _ _ Hl) in Ein.
    destruct (Hres l eq_refl) as (Hpast & _ & Hlow).
    destruct l as [latest|].
    - injection Ein as <- <-. split.
      + intros Hm Hnf. apply Z.div_pos; [|unfold MINUTE; lia].
        assert (H : past (reads s1) latest).
        { apply (Hpast Hm); [|done|done].
          intros s t Hs Ht Hf. destruct (Hpool s t Hs Ht Hf) as (h & Hh & Hp).
          intros j Hj. pose proof (Hnf h t Hh Hp).
          pose proof (Hm (reads st) j Hj). lia. }
        specialize (H (reads s1) ltac:(lia)). lia.
      + intros h t Hh Ht Hfut. destruct (Hin h t Hh Ht) as (s & Hs & Hts & Hf).
        destruct (Hlow s t Hs Hts Hf) as (x & [= <-] & Hle).
        pose proof (Hfut (reads s1)).
        apply Z.div_lt_upper_bound; [unfold MINUTE; lia|]. lia.
    - injection Ein as <- <-. split; [intros; lia|].
      intros h t Hh Ht _. destruct (Hin h t Hh Ht) as (s & Hs & Hts & Hf).
      by destruct (Hlow s t Hs Hts Hf) as (x & Hx & _). }
  destruct Hraw as [Hge Hlt].
  destruct (Z.ltb_spec 240 raw) as [Hbig|Hsmall].
  - split; [lia|]. split; [intros; lia|].
    intros h t Hh Ht Hfut. specialize (Hlt h t Hh Ht Hfut). lia.
  - split; [lia|]. split; [exact Hge|exact Hlt].
Qed.

(** Without any stamped headline the sentinel 9999 is capped to 240, the
    clock unread. *)
Lemma news_age_unstamped fh yh st :
  Forall (fun h => stamped h = false) (fh ++ yh) ->
  news_age_section w fh yh st = (inr 240, st).
Proof.
  intros Hall. unfold news_age_section. cbv zeta.
  assert (Hpool : omap (fun p => match h_ts p with
                                 | Some s => if truthy s then Some s else None
                                 | None => None
                                 end) (fh ++ yh) = []).
  { induction Hall as [|h l Hh _ IH]; [done|]. cbn [omap list_omap].
    unfold stamped in Hh. destruct (h_ts h) as [s|]; [|exact IH].
    by rewrite Hh. }
  rewrite Hpool. reflexivity.
Qed.

End NewsAge.

(** *** The payloads of build_features_for *)

Section Payloads.
Context {ext : Externals}.
Variable w : World.

Lemma synthetic_payload_result top err st :
  synthetic_payload w top err st =
    match _synthetic_feats with
    | inr f0 =>
        (inr {| features := f0; top_headline := top; refs := [];
                refs_sources := []; error := err; quote := synthetic_quote;
                ts := isoformat_seconds (now w (reads st)) |},
         {| reads := S (reads st); _QUOTE_RING := _QUOTE_RING st;
            cache := cache st; events := events st |})
    | inl e => (inl e, st)
    end.
Proof.
  unfold synthetic_payload, bind, lift, iso_now, bind, datetime_now, ret.
  by destruct _synthetic_feats.
Qed.

Lemma put_cached_result ticker p st :
  put_cached ticker p st =
    (inr tt,
     {| reads := reads st; _QUOTE_RING := _QUOTE_RING st;
        cache := <[ticker := p]> (cache st);
        events := events st ++ [CachePut ticker] |}).
Proof. reflexivity. Qed.

Lemma get_cached_result ticker st :
  get_cached ticker st =
    (inr (cache st !! ticker),
     {| reads := reads st; _QUOTE_RING := _QUOTE_RING st; cache := cache st;
        events := events st ++ [CacheGet ticker] |}).
Proof. reflexivity. Qed.

Lemma degrade_result ticker top e st f0 :
  _synthetic_feats = inr f0 ->
  exists p st',
    degrade w ticker top e st = (inr p, st')
    /\ degraded f0 p /\ top_headline p = top
    /\ cache st' = <[ticker := p]> (cache st)
    /\ (reads st <= reads st')%nat.
Proof.
  intros Hf. unfold degrade. cbv zeta.
  set (err := match exn_class e with TiError => _ | _ => _ end).
  eexists _, _. split.
  - unfold bind. rewrite synthetic_payload_result, Hf, put_cached_result.
    reflexivity.
  - cbn. unfold degraded. cbn. repeat split; eauto.
Qed.

Ltac stage E S a s' :=
  match goal with
  | |- context [bind ?m ?k ?s] =>
      destruct (m s) as [[?|a] s'] eqn:E;
      [ rewrite (bind_raise _ _ _ _ _ E) | rewrite (bind_step _ _ _ _ _ E) ];
      assert (S : same_cache s s')
        by (eapply same_cache_of; [|exact E];
            eauto using same_cache_sent, same_cache_call, same_cache_quotes,
              same_cache_news, same_cache_returns, same_cache_earnings,
              same_cache_iso_now)
  end.

Ltac chain :=
  repeat match goal with
         | H : same_cache _ _ |- _ => destruct H as [? ?]
         end;
  repeat match goal with
         | H : cache _ = cache _ |- _ => rewrite H; clear H
         end.

Ltac stop :=
  eexists _, _; split; [reflexivity|]; chain; split; [lia|done].

Lemma aggregate_outcome ticker err fh yh top st1 :
  exists r st2,
    aggregate w ticker err fh yh top st1 = (r, st2)
    /\ (reads st1 <= reads st2)%nat
    /\ match r with
       | inl _ => cache st2 = cache st1
       | inr p => cache st2 = <[ticker := p]> (cache st1)
                  /\ aggregated w ticker err fh yh top st1 p
       end.
Proof.
  unfold aggregate. cbv zeta.
  stage E1 S1 sent s1; [stop|]. destruct sent as [sm ss].
  stage E2 S2 q s2; [stop|].
  stage E3 S3 cs s3; [stop|].
  stage E4 S4 qr s4; [stop|]. destruct qr as [[[px b] a] ql].
  stage E5 S5 m s5; [stop|].
  stage E6 S6 rr s6; [stop|]. destruct rr as [[[r1 r5] rv] ab].
  stage E7 S7 es s7; [stop|].
  stage E8 S8 t s8; [stop|].
  unfold bind. rewrite put_cached_result. unfold ret.
  eexists _, _. split; [reflexivity|]. cbn [reads cache].
  rewrite call_eq in E2. rewrite call_eq in E3.
  injection E2 as E2 <-. injection E3 as E3 <-.
  split; [chain; cbn in *; lia|]. split.
  - chain. cbn. done.
  - exists q, cs, px, b, a, ql. eexists _, s4, m, s5.
    repeat split; try done. destruct S1, S4; cbn in *; lia.
Qed.

End Payloads.

(** *** build_features_for, case by case *)

Section Cases.
Context {ext : Externals}.
Variable w : World.

Lemma build_offline ticker st :
  ~ live w ->
  build_features_for w ticker st = synthetic_payload w None None st.
Proof.
  intros Hl. unfold build_features_for. cbv zeta.
  by rewrite bool_decide_eq_false_2.
Qed.

Lemma build_live_hit ticker st p0 :
  live w -> cache st !! ticker = Some p0 ->
  build_features_for w ticker st =
    (inr p0,
     {| reads := reads st; _QUOTE_RING := _QUOTE_RING st; cache := cache st;
        events := events st ++ [CacheGet ticker] |}).
Proof.
  intros Hl Hc. unfold build_features_for. cbv zeta.
  rewrite bool_decide_eq_true_2 by done.
  unfold bind. rewrite get_cached_result, Hc. reflexivity.
Qed.

Lemma build_live_miss ticker st f0 :
  live w -> cache st !! ticker = None -> _synthetic_feats = inr f0 ->
  exists p st',
    build_features_for w ticker st = (inr p, st')
    /\ cache st' = <[ticker := p]> (cache st)
    /\ (degraded f0 p
        \/ exists err top st1,
             (reads st <= reads st1)%nat
             /\ aggregated w ticker err
                  (headlines_of (fetch_headlines w ticker 5))
                  (headlines_of (fetch_headlines_yahoo w ticker 5))
                  top st1 p).
Proof.
  intros Hl Hc Hf. unfold build_features_for. cbv zeta.
  rewrite bool_decide_eq_true_2 by done.
  rewrite (bind_step _ _ _ _ _ (get_cached_result ticker st)), Hc.
  set (s0 := {| reads := reads st; _QUOTE_RING := _QUOTE_RING st;
                cache := cache st; events := events st ++ [CacheGet ticker] |}).
  rewrite (bind_step _ _ _ _ _ (attempt_eq _ s0)).
  destruct (headlines_section w ticker s0) as [[e|[[err fh] yh]] s1] eqn:Eh;
    cbn [fst snd];
    pose proof (same_cache_of _ _ _ _ (same_cache_headlines w ticker) Eh)
      as [Hc1 Hr1]; cbn [cache reads s0] in Hc1, Hr1.
  - destruct (degrade_result w ticker None e s1 f0 Hf)
      as (p & st' & Hd & Hp & _ & Hcache & _).
    exists p, st'. rewrite Hcache, Hc1. auto.
  - apply headlines_section_result in Eh as [-> ->].
    set (fh := headlines_of (fetch_headlines w ticker 5)).
    set (yh := headlines_of (fetch_headlines_yahoo w ticker 5)).
    set (top := match fh with _ :: _ => _ | [] => _ end).
    rewrite (bind_step _ _ _ _ _ (attempt_eq _ s1)).
    destruct (aggregate_outcome w ticker err fh yh top s1)
      as (r & s2 & Ha & Hr2 & Hres).
    rewrite Ha. cbn [fst snd]. destruct r as [e|p].
    + destruct (degrade_result w ticker top e s2 f0 Hf)
        as (p & st' & Hd & Hp & _ & Hcache & _).
      exists p, st'. rewrite Hcache, Hres, Hc1. auto.
    + destruct Hres as [Hcache Hagg]. exists p, s2.
      split; [reflexivity|]. rewrite Hcache, Hc1. split; [done|].
      right. exists err, top, s1. auto.
Qed.

Lemma synthetic_feats_mins f0 :
  _synthetic_feats = inr f0 -> mins_since_news f0 = 12.
Proof.
  unfold _synthetic_feats, and_then.
  repeat match goal with
         | |- context [match ?x with inl _ => _ | inr _ => _ end] =>
             destruct x; [discriminate|]
         end.
  by intros [= <-].
Qed.

End Cases.

(** *** The claims on build_features_for *)

Section Claims.
Context {ext : Externals}.
Variable w : World.

(** C1 (as amended): when the indicators return on the synthetic series,
    build_features_for returns a payload.  In non-live mode its refs list is
    empty.  In live mode a cached payload is returned as it is; without one,
    the payload is either the synthetic payload of a total failure, whose
    refs list is empty and whose quote has no bid, or the aggregated payload,
    whose quote has a bid and whose refs has exactly 3 slots: the merged refs
    followed by None markers, the number of refs being the number of distinct
    stripped URLs among the headlines of both sources that have a non-empty
    stripped title and URL, capped at 3. *)
Theorem refs_slots ticker st f0 :
  _synthetic_feats = inr f0 ->
  let fh := headlines_of (fetch_headlines w ticker 5) in
  let yh := headlines_of (fetch_headlines_yahoo w ticker 5) in
  exists p st',
    build_features_for w ticker st = (inr p, st')
    /\ (~ live w -> refs p = [])
    /\ (live w -> forall p0, cache st !! ticker = Some p0 -> p = p0)
    /\ (live w -> cache st !! ticker = None ->
        (refs p = [] /\ bid (quote p) = None /\ is_Some (error p))
        \/ (is_Some (bid (quote p))
            /\ length (refs p) = 3%nat
            /\ present_slots (refs p)
               = (3 `min` size (unique_urls fh yh))%nat
            /\ exists rs,
                 refs p = (Some <$> rs) ++ replicate (3 - length rs) None)).
Proof.
  intros Hf fh yh. destruct (decide (live w)) as [Hl|Hl].
  - destruct (cache st !! ticker) as [p0|] eqn:Hc.
    + exists p0. eexists. split; [by apply build_live_hit|].
      split; [done|]. split; [|done]. by intros _ p [= ->].
    + destruct (build_live_miss w ticker st f0 Hl Hc Hf)
        as (p & st' & Hb & _ & Hcase).
      exists p, st'. split; [exact Hb|]. split; [done|]. split; [done|].
      intros _ _. destruct Hcase as [(_ & Hr & _ & Hq & He)|Hagg].
      * left. rewrite Hr, Hq. auto.
      * right. destruct Hagg as (err & top & st1 & _ & Hagg).
        destruct Hagg as (q & cs & px & b & a & ql & sA & sB & m & sC & Hagg).
        destruct Hagg as (_ & _ & _ & _ & _ & Hr & _ & _ & _ & Hq & _).
        assert (Hlen : (length (_merge_refs ticker fh yh) <= 3)%nat)
          by (rewrite merge_refs_length; lia).
        rewrite Hq, Hr, pad_refs_length, pad_refs_present, merge_refs_length
          by done.
        cbn [bid]. repeat split; eauto.
  - rewrite build_offline, synthetic_payload_result, Hf by done.
    eexists _, _. split; [reflexivity|]. cbn [refs]. repeat split; done.
Qed.

(** C2 (as amended): when the indicators return on the synthetic series and
    every cached payload has at most 240 minutes since the news,
    build_features_for returns a payload with at most 240 minutes since the
    news, and leaves a cache of such payloads.  For the payload computed by
    the call itself: it has at least 0 minutes provided the clock never goes
    back and no headline is stamped later than the clock of the request;
    when it is the aggregated one (its quote has a bid) and no headline
    carries a timestamp, the sentinel 9999 is capped and it has exactly 240
    minutes; when it is a synthetic one (its quote has no bid) it has
    exactly 12 minutes; and when it is the aggregated one and a headline
    carries a timestamp later than every reading of the clock, it has less
    than 0 minutes: there is no lower clamp. *)
Theorem mins_since_news_capped ticker st f0 :
  _synthetic_feats = inr f0 ->
  cache_capped st ->
  exists p st',
    build_features_for w ticker st = (inr p, st')
    /\ mins_since_news (features p) <= 240
    /\ cache_capped st'
    /\ ((live w -> cache st !! ticker = None) ->
        clock_monotone (now w) ->
        no_future_news w st
          (headlines_of (fetch_headlines w ticker 5)
           ++ headlines_of (fetch_headlines_yahoo w ticker 5)) ->
        0 <= mins_since_news (features p))
    /\ ((live w -> cache st !! ticker = None) ->
        is_Some (bid (quote p)) ->
        Forall (fun h => stamped h = false)
          (headlines_of (fetch_headlines w ticker 5)
           ++ headlines_of (fetch_headlines_yahoo w ticker 5)) ->
        mins_since_news (features p) = 240)
    /\ ((live w -> cache st !! ticker = None) ->
        bid (quote p) = None ->
        mins_since_news (features p) = 12)
    /\ ((live w -> cache st !! ticker = None) ->
        is_Some (bid (quote p)) ->
        forall h t,
          h ∈ headlines_of (fetch_headlines w ticker 5)
              ++ headlines_of (fetch_headlines_yahoo w ticker 5) ->
          parsed_ts h = Some t ->
          (forall k, now w k < t) ->
          mins_since_news (features p) < 0).
Proof.
  intros Hf Hcap. pose proof (synthetic_feats_mins f0 Hf) as H12.
  assert (Hput : forall p st', cache st' = <[ticker := p]> (cache st) ->
            mins_since_news (features p) <= 240 -> cache_capped st').
  { intros p st' Hc Hp tk p'. rewrite Hc.
    destruct (decide (ticker = tk)) as [<-|Hne].
    - rewrite lookup_insert_eq. by intros [= <-].
    - rewrite lookup_insert_ne by done. apply Hcap. }
  destruct (decide (live w)) as [Hl|Hl].
  - destruct (cache st !! ticker) as [p0|] eqn:Hc.
    + exists p0. eexists. split; [by apply build_live_hit|].
      split; [by apply (Hcap ticker)|]. split; [exact Hcap|].
      repeat split; intros Hmiss; by specialize (Hmiss Hl).
    + destruct (build_live_miss w ticker st f0 Hl Hc Hf)
        as (p & st' & Hb & Hcache & Hcase).
      exists p, st'. split; [exact Hb|].
      destruct Hcase as [(Hfe & Hq0)|Hagg].
      * destruct Hq0 as (_ & _ & Hq0 & _). rewrite Hfe, H12.
        split; [lia|]. split; [apply (Hput p); [done|]; rewrite Hfe, H12; lia|].
        split; [intros; lia|]. rewrite Hq0. cbn.
        split; [by intros _ [x Hx]|]. split; [done|]. by intros _ [x Hx].
      * destruct Hagg as (err & top & st1 & Hr1 & Hagg).
        destruct Hagg as (q & cs & px & b & a & ql & sA & sB & m & sC & Hagg).
        destruct Hagg as (_ & _ & _ & Hn & HrB & _ & _ & _ & _ & Hq & Hm).
        destruct (news_age_result w _ _ sB m sC Hn) as (Hle & Hge & Hneg).
        rewrite Hm.
        split; [exact Hle|]. split; [apply (Hput p); [done|by rewrite Hm]|].
        split; [|split; [|split]].
        -- intros _ Hmono Hnf. apply Hge; [done|].
           intros h t Hh Ht. pose proof (Hnf h t Hh Ht).
           pose proof (Hmono (reads st) (reads sB) ltac:(lia)). lia.
        -- intros _ _ Hun. rewrite (news_age_unstamped w _ _ sB Hun) in Hn.
           by injection Hn as <- _.
        -- rewrite Hq. cbn [bid]. discriminate.
        -- intros _ _ h t Hh Ht Hfut. by apply (Hneg h t).
  - rewrite build_offline, synthetic_payload_result, Hf by done.
    eexists _, _. split; [reflexivity|]. cbn [features quote]. rewrite H12.
    split; [lia|]. split; [exact Hcap|]. split; [intros; lia|].
    cbn. split; [by intros _ [x Hx]|]. split; [done|]. by intros _ [x Hx].
Qed.

(** C4 (as amended): when the indicators return on the synthetic series,
    build_features_for returns a payload.  In non-live mode its quote is the
    synthetic one, of quality "unknown".  In live mode without a cached
    payload, either the payload is the synthetic one of a total failure, or
    the primary quote and the candles were fetched and: the quality is
    "estimated" exactly when the bid and ask were synthesized, that is when
    one of them is missing or zero or ask <= bid, and they are then the last
    price minus and plus half of 8 basis points of it; otherwise the bid and
    ask are the observed ones and the quality is "real" when the last price
    of the primary provider, or failing that the close of the last candle,
    is above zero, and "unknown" when it is not. *)
Theorem quote_quality ticker st f0 :
  _synthetic_feats = inr f0 ->
  exists p st',
    build_features_for w ticker st = (inr p, st')
    /\ (~ live w -> quote p = synthetic_quote)
    /\ (live w -> cache st !! ticker = None ->
        (quote p = synthetic_quote /\ is_Some (error p))
        \/ exists q cs,
             fetch_quote_tiingo w ticker = inr q
             /\ fetch_candles_tiingo w ticker 120 (lit "1min") = inr cs
             /\ (quality (quote p) = estimated
                 <-> spread_kept (observed (q_bid q)) (observed (q_ask q))
                     = false)
             /\ (spread_kept (observed (q_bid q)) (observed (q_ask q)) = false
                 -> bid (quote p)
                    = Some (PrimFloat.sub (last (quote p))
                                          (half_spread (last (quote p))))
                    /\ ask (quote p)
                       = Some (PrimFloat.add (last (quote p))
                                             (half_spread (last (quote p)))))
             /\ (spread_kept (observed (q_bid q)) (observed (q_ask q)) = true
                 -> bid (quote p) = observed (q_bid q)
                    /\ ask (quote p) = observed (q_ask q)
                    /\ quality (quote p)
                       = if PrimFloat.ltb 0%float (primary_last q cs)
                         then real else unknown)).
Proof.
  intros Hf. destruct (decide (live w)) as [Hl|Hl].
  - destruct (cache st !! ticker) as [p0|] eqn:Hc.
    + exists p0. eexists. split; [by apply build_live_hit|]. by split.
    + destruct (build_live_miss w ticker st f0 Hl Hc Hf)
        as (p & st' & Hb & _ & Hcase).
      exists p, st'. split; [exact Hb|]. split; [done|]. intros _ _.
      destruct Hcase as [(_ & _ & _ & Hq & He)|Hagg]; [by left|right].
      destruct Hagg as (err & top & st1 & _ & Hagg).
      destruct Hagg as (q & cs & px & b & a & ql & sA & sB & m & sC & Hagg).
      destruct Hagg as (Hfq & Hfc & Hqs & _ & _ & _ & _ & _ & _ & Hq & _).
      exists q, cs. split; [exact Hfq|]. split; [exact Hfc|].
      destruct (quotes_section_result w ticker q cs sA)
        as (px' & b' & a' & ql' & Hres & _ & Hsp).
      rewrite Hqs in Hres. cbn [fst] in Hres. injection Hres as <- <- <- <-.
      rewrite Hq. cbn [quality bid ask last].
      destruct (spread_kept _ _).
      * destruct Hsp as (Hb1 & Ha1 & Hql). rewrite Hb1, Ha1.
        split; [|split; [done|done]].
        rewrite Hql. destruct (PrimFloat.ltb _ _); split; discriminate.
      * destruct Hsp as (-> & -> & ->). split; [done|]. by split.
  - rewrite build_offline, synthetic_payload_result, Hf by done.
    eexists _, _. split; [reflexivity|]. by split.
Qed.

(** C9 (as amended): in non-live mode build_features_for calls no provider
    and does not touch the cache, neither reading nor writing it: it reads
    the clock once, for the timestamp, and returns the payload made of the
    fixed synthetic features, provided the indicators return them; the
    events, the cache and the rings are left as they were. *)
Theorem offline_is_synthetic ticker st f0 :
  ~ live w ->
  _synthetic_feats = inr f0 ->
  build_features_for w ticker st =
    (inr {| features := f0; top_headline := None; refs := [];
            refs_sources := []; error := None; quote := synthetic_quote;
            ts := isoformat_seconds (now w (reads st)) |},
     {| reads := S (reads st); _QUOTE_RING := _QUOTE_RING st;
        cache := cache st; events := events st |}).
Proof.
  intros Hl Hf. by rewrite build_offline, synthetic_payload_result, Hf.
Qed.

End Claims.

(** *** The rings in every reachable state *)

Section Reachable.
Context {ext : Externals}.

Lemma kept_respected w :
  clock_monotone (now w) ->
  (forall ticker, respects (kept (now w)) (build_features_for w ticker))
  /\ (forall ticker minutes,
        respects (kept (now w)) (_ret_from_ring w ticker minutes)).
Proof.
  intros Hmono.
  assert (Hrefl : forall st, kept (now w) st st) by (intros; by split).
  assert (Hemit : forall st e,
            kept (now w) st
              {| reads := reads st; _QUOTE_RING := _QUOTE_RING st;
                 cache := cache st; events := events st ++ [e] |})
    by (intros; split; [cbn; lia|by apply rings_ok_later]).
  assert (Hread : forall st,
            kept (now w) st
              {| reads := S (reads st); _QUOTE_RING := _QUOTE_RING st;
                 cache := cache st; events := events st |})
    by (intros; split; [cbn; lia|apply rings_ok_later; cbn; [done|lia]]).
  assert (Hcache : forall st c,
            kept (now w) st
              {| reads := reads st; _QUOTE_RING := _QUOTE_RING st;
                 cache := c; events := events st |})
    by (intros; split; [cbn; lia|by apply rings_ok_later]).
  split.
  - intros ticker. apply respects_build_features_for; try done.
    + apply kept_trans.
    + intros. by apply kept_note.
  - intros ticker minutes. apply respects_ret_from_ring; try done.
    apply kept_trans.
Qed.

Lemma reachable_rings_ok clock st :
  clock_monotone clock -> reachable clock st -> rings_ok clock st.
Proof.
  intros Hmono. induction 1 as [|w ticker st <- _ IH|w ticker px st <- _ IH
                                |w ticker minutes st <- _ IH].
  - intros ticker ring Hl. cbn [initial _QUOTE_RING] in Hl.
    by rewrite lookup_empty in Hl.
  - by apply (proj1 (kept_respected w Hmono) ticker st).
  - by apply (kept_note w ticker px st Hmono).
  - by apply (proj2 (kept_respected w Hmono) ticker minutes st).
Qed.

(** C7 (as amended): under a clock that never goes back, in every state the
    process can reach, an append for any ticker leaves every ring with at
    most 600 samples, and leaves in the ring of that ticker no sample older
    than 10 minutes before the time stamped on the appended sample; the ring
    left is what remains of the old ring followed by the new sample once a
    prefix, the oldest samples, is removed. *)
Theorem quote_ring_bounds clock w ticker px st :
  clock_monotone clock -> reachable clock st -> now w = clock ->
  let st' := snd (_note_quote w ticker px st) in
  let t := now w (reads st) in
  (forall tk, (length (ring_of st' tk) <= 600)%nat)
  /\ Forall (fun s => t - 10 * MINUTE <= fst s) (ring_of st' ticker)
  /\ exists k, ring_of st' ticker = drop k (ring_of st ticker ++ [(t, px)]).
Proof.
  intros Hmono Hreach <- st' t.
  pose proof (reachable_rings_ok _ st Hmono Hreach) as Hok.
  assert (Hok' : rings_ok (now w) st') by (by apply kept_note).
  split.
  - intros tk. unfold ring_of.
    destruct (_QUOTE_RING st' !! tk) as [ring|] eqn:E; [|cbn; lia].
    by destruct (Hok' tk ring E) as (Hlen & _).
  - assert (Hold : ring_ok (now w) (reads st) (ring_of st ticker)).
    { unfold ring_of. destruct (_QUOTE_RING st !! ticker) as [r|] eqn:E.
      - by apply (Hok ticker).
      - cbn [default]. split; [cbn; lia|]. split; [constructor|].
        split; [constructor|]. intros l s Hl. by destruct l. }
    destruct (note_quote_ring (ring_of st ticker) t (now w (S (reads st))) px
                (now w) (reads st) Hmono eq_refl eq_refl Hold)
      as (_ & Hrecent & Hdrop).
    assert (Hring : ring_of st' ticker
                    = popleft_while (now w (S (reads st)) - 10 * MINUTE)
                        (deque_append 600 (ring_of st ticker) (t, px))).
    { unfold st'. rewrite note_quote_effect. unfold ring_of at 1.
      cbn [snd _QUOTE_RING]. by rewrite lookup_insert_eq. }
    rewrite Hring. by split.
Qed.

End Reachable.

(** *** Trailing returns *)

Section TrailingReturn.
Context {ext : Externals}.
Variable w : World.

Lemma scan_base_find cutoff l : forall base,
  scan_base cutoff l base =
    match List.find (fun s => fst s <=? cutoff) l with
    | Some s => Some (snd s)
    | None => match l with [] => base | _ => snd <$> head (rev l) end
    end.
Proof.
  induction l as [|[t px] l IH]; intros base; cbn [scan_base List.find fst].
  - reflexivity.
  - destruct (t <=? cutoff); [reflexivity|]. rewrite IH.
    destruct (List.find _ l); [reflexivity|].
    destruct l as [|y l]; [reflexivity|].
    change (rev ((t, px) :: y :: l)) with (rev (y :: l) ++ [(t, px)]).
    destruct (rev (y :: l)) eqn:E; [|reflexivity].
    apply (f_equal (@length _)) in E. rewrite length_rev in E. discriminate.
Qed.

Lemma scan_base_baseline cutoff ring :
  scan_base cutoff (rev ring) None = baseline cutoff ring.
Proof.
  rewrite scan_base_find. unfold baseline.
  destruct (List.find _ (rev ring)); [reflexivity|].
  rewrite rev_involutive.
  destruct (rev ring) eqn:E; [|reflexivity].
  apply (f_equal (@rev _)) in E. rewrite rev_involutive in E. by subst.
Qed.

(** C8: on an empty or absent ring the trailing return is exactly 0.0, the
    clock unread; otherwise the clock is read once and the result is the
    trailing return of the specification: with the baseline the first
    sample, from the most recent backward, stamped at most now - minutes, or
    the oldest sample when there is none, it is (last - base) / base, and
    exactly 0.0 when the baseline price is zero. *)
Theorem ret_from_ring_spec ticker minutes st :
  _ret_from_ring w ticker minutes st =
    match ring_of st ticker with
    | [] => (inr 0%float, st)
    | ring =>
        (inr (trailing_return (now w (reads st)) minutes ring),
         {| reads := S (reads st); _QUOTE_RING := _QUOTE_RING st;
            cache := cache st; events := events st |})
    end.
Proof.
  unfold _ret_from_ring, bind, get_ring, ring_of. cbn [fst snd].
  destruct (_QUOTE_RING st !! ticker) as [[|s ring]|]; try reflexivity.
  cbn [default datetime_now reads]. unfold id. cbv iota beta.
  rewrite scan_base_baseline.
  unfold trailing_return.
  destruct (baseline _ _) as [base|]; [|reflexivity].
  unfold ftruthy. destruct (PrimFloat.eqb base 0%float); reflexivity.
Qed.

End TrailingReturn.

(** *** The claims on examples *)

Section Examples.

(** Four appends at 0, 5, 10 and 15 minutes: the two samples older than 10
    minutes before the last append are gone. *)
Example ring_after_fifteen_minutes :
  List.map fst
    (ring_of (note_all slow_world AAPL [100; 101; 102; 103]%float initial)
             AAPL)
  = [noon + 10 * MINUTE; noon + 15 * MINUTE].
Proof. vm_compute. reflexivity. Qed.

(** Two URLs are found across the sources, but the headline of the second
    has no title: one slot holds a ref. *)
Example untitled_headline_not_cited :
  exists p,
    fst (build_features_for (ext := example_externals) live_world AAPL initial)
      = inr p
    /\ present_slots (refs p) = 1%nat /\ length (refs p) = 3%nat
    /\ omap h_url (headlines_of (fetch_headlines live_world AAPL 5))
       = [lit "https://a"; lit "https://b"].
Proof. eexists. split; [vm_compute; reflexivity|]. repeat split. Qed.

Lemma refs_slots_witness :
  exists p st',
    build_features_for (ext := example_externals) live_world AAPL initial
      = (inr p, st')
    /\ (~ live live_world -> refs p = [])
    /\ (live live_world ->
        forall p0, cache initial !! AAPL = Some p0 -> p = p0)
    /\ (live live_world -> cache initial !! AAPL = None ->
        (refs p = [] /\ bid (quote p) = None /\ is_Some (error p))
        \/ (is_Some (bid (quote p))
            /\ length (refs p) = 3%nat
            /\ present_slots (refs p)
               = (3 `min` size (unique_urls
                    (headlines_of (fetch_headlines live_world AAPL 5))
                    (headlines_of (fetch_headlines_yahoo live_world AAPL 5))))%nat
            /\ exists rs,
                 refs p = (Some <$> rs) ++ replicate (3 - length rs) None)).
Proof.
  eapply (refs_slots (ext := example_externals) live_world AAPL initial).
  vm_compute. reflexivity.
Defined.

(** C1, as stated the claim does not hold: in non-live mode the refs of the
    payload returned has no slot at all. *)
Lemma refs_empty_offline :
  exists p,
    fst (build_features_for (ext := example_externals) offline AAPL initial)
      = inr p
    /\ length (refs p) = 0%nat.
Proof. eexists. split; [vm_compute; reflexivity|reflexivity]. Qed.

Lemma mins_since_news_capped_witness :
  (exists p st',
     build_features_for (ext := example_externals) old_news_world AAPL initial
       = (inr p, st')
     /\ is_Some (bid (quote p))
     /\ 0 <= mins_since_news (features p) <= 240)
  /\ (exists p st',
        build_features_for (ext := example_externals) unstamped_world AAPL
          initial = (inr p, st')
        /\ is_Some (bid (quote p))
        /\ mins_since_news (features p) = 240)
  /\ (exists p st',
        build_features_for (ext := example_externals) future_news_world AAPL
          initial = (inr p, st')
        /\ is_Some (bid (quote p))
        /\ mins_since_news (features p) < 0)
  /\ (exists p st',
        build_features_for (ext := example_externals) offline AAPL initial
          = (inr p, st')
        /\ bid (quote p) = None
        /\ mins_since_news (features p) = 12).
Proof.
  destruct (_synthetic_feats (ext := example_externals)) as [e|f0] eqn:Hf;
    [vm_compute in Hf; discriminate|].
  assert (Hcap : cache_capped initial).
  { intros ticker p H. cbn in H. rewrite lookup_empty in H. discriminate. }
  assert (Hmiss : forall w, live w -> cache initial !! AAPL = None)
    by (intros; apply lookup_empty).
  split; [|split; [|split]].
  - destruct (mins_since_news_capped (ext := example_externals) old_news_world
                AAPL initial f0 Hf Hcap)
      as (p & st' & Hb & Hle & _ & Hge & _).
    assert (Hbid : is_Some (bid (quote p))).
    { pose proof Hb as Hb'. vm_compute in Hb'. injection Hb' as <- _.
      by eexists. }
    exists p, st'. split; [exact Hb|]. split; [exact Hbid|].
    split; [|exact Hle]. apply Hge; [apply Hmiss| |].
    + intros i j Hij. cbn. lia.
    + intros h t Hh Ht. cbn in Hh.
      apply list_elem_of_singleton in Hh as ->.
      vm_compute in Ht. injection Ht as <-. vm_compute. discriminate.
  - destruct (mins_since_news_capped (ext := example_externals)
                unstamped_world AAPL initial f0 Hf Hcap)
      as (p & st' & Hb & _ & _ & _ & Hun & _).
    assert (Hbid : is_Some (bid (quote p))).
    { pose proof Hb as Hb'. vm_compute in Hb'. injection Hb' as <- _.
      by eexists. }
    exists p, st'. split; [exact Hb|]. split; [exact Hbid|].
    apply Hun; [apply Hmiss|exact Hbid|]. cbn. by repeat constructor.
  - destruct (mins_since_news_capped (ext := example_externals)
                future_news_world AAPL initial f0 Hf Hcap)
      as (p & st' & Hb & _ & _ & _ & _ & _ & Hneg).
    assert (Hbid : is_Some (bid (quote p))).
    { pose proof Hb as Hb'. vm_compute in Hb'. injection Hb' as <- _.
      by eexists. }
    exists p, st'. split; [exact Hb|]. split; [exact Hbid|].
    apply (Hneg (Hmiss _) Hbid
             (headline "Fed holds rates" "https://a" "2026-01-05T13:00:00Z")
             (noon + 60 * MINUTE)).
    + cbn. by left.
    + vm_compute. reflexivity.
    + intros k. cbn [now future_news_world live_with]. unfold noon, MINUTE.
      lia.
  - destruct (mins_since_news_capped (ext := example_externals) offline AAPL
                initial f0 Hf Hcap)
      as (p & st' & Hb & _ & _ & _ & _ & H12 & _).
    assert (Hbid : bid (quote p) = None).
    { pose proof Hb as Hb'. vm_compute in Hb'. by injection Hb' as <- _. }
    exists p, st'. split; [exact Hb|]. split; [exact Hbid|].
    apply H12; [apply Hmiss|exact Hbid].
Defined.

(** C2, as stated the claim does not hold: in live mode, for a headline
    stamped one hour after the clock, the minutes since the news are -60. *)
Lemma mins_since_news_negative :
  exists p,
    fst (build_features_for (ext := example_externals) live_world AAPL initial)
      = inr p
    /\ mins_since_news (features p) = -60.
Proof. eexists. split; [vm_compute; reflexivity|reflexivity]. Qed.

Lemma quote_quality_witness :
  exists p st',
    build_features_for (ext := example_externals) live_world AAPL initial
      = (inr p, st')
    /\ (~ live live_world -> quote p = synthetic_quote)
    /\ (live live_world -> cache initial !! AAPL = None ->
        (quote p = synthetic_quote /\ is_Some (error p))
        \/ exists q cs,
             fetch_quote_tiingo live_world AAPL = inr q
             /\ fetch_candles_tiingo live_world AAPL 120 (lit "1min") = inr cs
             /\ (quality (quote p) = estimated
                 <-> spread_kept (observed (q_bid q)) (observed (q_ask q))
                     = false)
             /\ (spread_kept (observed (q_bid q)) (observed (q_ask q)) = false
                 -> bid (quote p)
                    = Some (PrimFloat.sub (last (quote p))
                                          (half_spread (last (quote p))))
                    /\ ask (quote p)
                       = Some (PrimFloat.add (last (quote p))
                                             (half_spread (last (quote p)))))
             /\ (spread_kept (observed (q_bid q)) (observed (q_ask q)) = true
                 -> bid (quote p) = observed (q_bid q)
                    /\ ask (quote p) = observed (q_ask q)
                    /\ quality (quote p)
                       = if PrimFloat.ltb 0%float (primary_last q cs)
                         then real else unknown)).
Proof.
  eapply (quote_quality (ext := example_externals) live_world AAPL initial).
  vm_compute. reflexivity.
Defined.

(** C4, as stated the claim does not hold: in live mode, with a bid of 10 and
    an ask of 11 both observed from the provider and no last price, the
    payload is an aggregated one, its bid and ask are the observed ones, and
    its quality is "unknown", not "real". *)
Lemma quality_unknown_with_observed_spread :
  exists p,
    fst (build_features_for (ext := example_externals) live_world AAPL initial)
      = inr p
    /\ error p = None
    /\ bid (quote p) = Some 10%float /\ ask (quote p) = Some 11%float
    /\ PrimFloat.ltb 10%float 11%float = true
    /\ quality (quote p) = unknown.
Proof.
  eexists. split; [vm_compute; reflexivity|]. repeat split; reflexivity.
Qed.

Lemma offline_is_synthetic_witness :
  exists f0,
    build_features_for (ext := example_externals) offline AAPL initial =
      (inr {| features := f0; top_headline := None; refs := [];
              refs_sources := []; error := None; quote := synthetic_quote;
              ts := lit "2026-01-05T12:00:00Z" |},
       {| reads := 1; _QUOTE_RING := ∅; cache := ∅; events := [] |}).
Proof.
  eexists.
  apply (offline_is_synthetic (ext := example_externals) offline AAPL initial).
  - discriminate.
  - vm_compute. reflexivity.
Defined.

(** C9, as stated the claim does not hold: after a call in non-live mode from
    the initial state, a payload is returned, the cache holds no entry for
    the ticker and no event, a cache write included, has occurred. *)
Lemma offline_writes_no_cache :
  (exists p,
     fst (build_features_for (ext := example_externals) offline AAPL initial)
       = inr p)
  /\ cache (snd (build_features_for (ext := example_externals) offline AAPL
                   initial)) !! AAPL = None
  /\ events (snd (build_features_for (ext := example_externals) offline AAPL
                    initial)) = [].
Proof.
  split; [eexists; vm_compute; reflexivity|].
  split; vm_compute; reflexivity.
Qed.

Lemma quote_ring_bounds_witness :
  let st := note_all slow_world AAPL [100; 101; 102]%float initial in
  let st' := snd (_note_quote slow_world AAPL 103%float st) in
  let t := now slow_world (reads st) in
  (List.map fst (ring_of st AAPL) = [noon + 5 * MINUTE; noon + 10 * MINUTE]
   /\ t = noon + 15 * MINUTE
   /\ List.map fst (ring_of st' AAPL)
      = [noon + 10 * MINUTE; noon + 15 * MINUTE])
  /\ (forall tk, (length (ring_of st' tk) <= 600)%nat)
  /\ Forall (fun s => t - 10 * MINUTE <= fst s) (ring_of st' AAPL)
  /\ exists k,
       ring_of st' AAPL = drop k (ring_of st AAPL ++ [(t, 103%float)]).
Proof.
  intros st st' t. split; [repeat split; vm_compute; reflexivity|].
  apply (quote_ring_bounds (ext := example_externals) (now slow_world)
           slow_world AAPL 103%float st).
  - intros i j Hij. cbn. lia.
  - unfold st. cbn [note_all].
    repeat (apply reach_note; [reflexivity|]). apply reach_initial.
  - reflexivity.
Defined.

(** C7, as stated the claim does not hold: under a clock that goes back,
    with appends stamped 13:00, 12:00 and 13:01, the ring keeps after the
    last append the sample stamped 12:00, 61 minutes older than it. *)
Lemma ring_keeps_stale_sample :
  let st := note_all backward_world AAPL [100; 101; 102]%float initial in
  List.map fst (ring_of st AAPL)
  = [noon + 60 * MINUTE; noon; noon + 61 * MINUTE]
  /\ ~ Forall (fun s => (noon + 61 * MINUTE) - 10 * MINUTE <= fst s)
              (ring_of st AAPL).
Proof.
  intros st. split; [vm_compute; reflexivity|]. intros H.
  assert (Hs : ring_of st AAPL !! 1%nat = Some (noon, 101%float))
    by (vm_compute; reflexivity).
  pose proof (Forall_lookup_1 _ _ _ _ H Hs) as Hle.
  cbn [fst] in Hle. unfold noon, MINUTE in Hle. lia.
Qed.

End Examples.

End FeaturesFacts.

(** ** The feature aggregator, further facts *)

Module AggregatorFacts.
Import Py Features FeaturesSpec FeaturesExamples AggregatorSpec
  AggregatorExamples FeaturesFacts.
Local Open Scope m_scope.

#[local] Set Warnings "-clear-no-such-hyp".

(** *** What _merge_refs computes *)

Section Merge.

Lemma to_ref_key h : url <$> to_ref h = ref_key h.
Proof.
  unfold to_ref, ref_key. cbv zeta.
  by destruct (truthy _ && truthy _).
Qed.

Lemma omap_to_ref_urls (lst : list Headline) :
  url <$> omap to_ref lst = omap ref_key lst.
Proof.
  induction lst as [|h lst IH]; [done|]. cbn [omap list_omap].
  pose proof (to_ref_key h) as Hk.
  destruct (to_ref h) as [r|], (ref_key h) as [u|]; try discriminate;
    cbn in Hk |- *; [|exact IH].
  injection Hk as <-. by rewrite <- IH.
Qed.

Lemma merge_scan_refs lst : forall (seen : gset str) (out : list Ref),
  (length out < 3)%nat ->
  snd (merge_scan lst seen out)
  = take 3 (out ++ first_by_url seen (omap to_ref lst)).
Proof.
  induction lst as [|h rest IH]; intros seen out Hlt.
  - cbn [merge_scan snd omap list_omap first_by_url].
    rewrite app_nil_r, take_ge by lia. done.
  - cbn [merge_scan omap list_omap]. unfold to_ref at 1. cbv zeta.
    set (t := strip (or_empty (h_title h))).
    set (u := strip (or_empty (h_url h))).
    destruct (truthy t), (truthy u); cbn [negb orb andb];
      try (by apply IH).
    cbn [first_by_url url].
    destruct (decide (u ∈ seen)) as [Hin|Hnin]; [by apply IH|].
    set (r := {| title := t; publisher := _; url := u |}).
    destruct (Nat.leb_spec 3 (length (out ++ [r]))) as [Hge|Hlt1].
    + cbn [snd]. rewrite length_app in Hge. cbn [length] in Hge.
      assert (Hlen : length (out ++ [r]) = 3%nat)
        by (rewrite length_app; cbn [length]; lia).
      set (tl := first_by_url _ _).
      replace (out ++ r :: tl) with ((out ++ [r]) ++ tl)
        by (by rewrite <- app_assoc).
      rewrite take_app_le by lia. rewrite take_ge by lia. done.
    + rewrite IH by done. by rewrite <- app_assoc.
Qed.

Lemma first_by_url_app seen a b :
  first_by_url seen (a ++ b)
  = first_by_url seen a
    ++ first_by_url (seen ∪ list_to_set (url <$> a)) b.
Proof.
  revert seen. induction a as [|r a IH]; intros seen.
  - cbn. by replace (seen ∪ ∅) with seen by set_solver.
  - cbn [app first_by_url fmap list_fmap list_to_set].
    destruct (decide (url r ∈ seen)) as [Hin|Hnin].
    + rewrite IH. do 2 f_equal. set_solver.
    + rewrite IH. cbn [app]. do 3 f_equal. set_solver.
Qed.

Lemma merge_refs_eq ticker fn yh :
  _merge_refs ticker fn yh = merge_spec fn yh.
Proof.
  unfold _merge_refs, merge_spec. rewrite omap_app, first_by_url_app.
  pose proof (merge_scan_refs fn ∅ [] ltac:(cbn; lia)) as Hfn.
  pose proof (merge_scan_spec fn ∅ [] ltac:(done) ltac:(cbn; lia)) as Hsp.
  cbv zeta in Hsp. destruct (merge_scan fn ∅ []) as [seen out].
  cbn [fst snd app] in Hfn, Hsp. destruct Hsp as (Hsz & _ & Hall).
  destruct (Nat.leb_spec 3 (length out)) as [Hge|Hlt].
  - rewrite take_app_le; [done|].
    apply (f_equal (@length _)) in Hfn. rewrite length_take in Hfn. lia.
  - specialize (Hall Hlt). rewrite merge_scan_refs by done.
    rewrite Hall, omap_to_ref_urls.
    assert (Hout : out = first_by_url ∅ (omap to_ref fn)).
    { rewrite Hfn. apply take_ge. rewrite Hfn, length_take in Hlt. lia. }
    by rewrite <- Hout.
Qed.

(** X1: _merge_refs is the merge its docstring announces: over the Finnhub
    headlines followed by the Yahoo ones, the headlines with a non-empty
    stripped title and URL, the first of each URL only, in their order, and
    at most 3 of them. *)
Theorem merge_refs_first_occurrences ticker fn yh :
  _merge_refs ticker fn yh = merge_spec fn yh.
Proof. apply merge_refs_eq. Qed.

Lemma first_by_url_sound seen rs r :
  r ∈ first_by_url seen rs -> r ∈ rs /\ url r ∉ seen.
Proof.
  revert seen. induction rs as [|x rs IH]; intros seen; cbn [first_by_url].
  - by intros ?%elem_of_nil.
  - destruct (decide (url x ∈ seen)) as [Hin|Hnin].
    + intros [? ?]%IH. split; [by right|done].
    + intros [->|[? ?]%IH]%elem_of_cons; [split; [by left|done]|].
      split; [by right|set_solver].
Qed.

Lemma first_by_url_nodup seen rs : NoDup (url <$> first_by_url seen rs).
Proof.
  revert seen. induction rs as [|x rs IH]; intros seen; cbn [first_by_url].
  - constructor.
  - destruct (decide (url x ∈ seen)) as [Hin|Hnin]; [apply IH|].
    cbn. constructor; [|apply IH].
    intros (r & Hr & Hin)%list_elem_of_fmap.
    apply first_by_url_sound in Hin as [_ Hn]. set_solver.
Qed.

Lemma to_ref_wellformed h r :
  to_ref h = Some r -> title r <> [] /\ url r <> [] /\ publisher r <> [].
Proof.
  unfold to_ref. cbv zeta.
  destruct (strip (or_empty (h_title h))) as [|c t] eqn:Et; [done|].
  destruct (strip (or_empty (h_url h))) as [|d u] eqn:Eu; [done|].
  cbn [truthy andb]. intros [= <-]. cbn [title url publisher].
  repeat split; try done.
  unfold str_or.
  destruct (strip (or_empty (h_publisher h))); cbn [truthy];
    [vm_compute|]; intros H; discriminate H.
Qed.

(** X2: the refs that _merge_refs returns are at most 3, carry pairwise
    distinct URLs, and each has a non-empty title, URL and publisher. *)
Theorem merge_refs_wellformed ticker fn yh :
  (length (_merge_refs ticker fn yh) <= 3)%nat
  /\ NoDup (url <$> _merge_refs ticker fn yh)
  /\ Forall (fun r => title r <> [] /\ url r <> [] /\ publisher r <> [])
            (_merge_refs ticker fn yh).
Proof.
  rewrite merge_refs_eq. unfold merge_spec. split; [|split].
  - rewrite length_take. lia.
  - rewrite fmap_take.
    eapply sublist_NoDup; [apply first_by_url_nodup|apply sublist_take].
  - apply Forall_take, Forall_forall. intros r Hr.
    apply first_by_url_sound in Hr as [Hr _].
    apply list_elem_of_omap in Hr as (h & _ & Hh).
    by apply (to_ref_wellformed h).
Qed.

End Merge.

(** *** How build_features_for ends *)

Section Endings.
Context {ext : Externals}.
Variable w : World.

Lemma headlines_section_eq ticker st :
  let fh := fetch_headlines w ticker 5 in
  let yh := fetch_headlines_yahoo w ticker 5 in
  headlines_section w ticker st =
    match fh with
    | inl e =>
        match exn_class e with
        | FHError =>
            (inr (headline_diagnostic fh yh, [], headlines_of yh),
             {| reads := reads st; _QUOTE_RING := _QUOTE_RING st;
                cache := cache st;
                events := (events st ++ [CallHeadlines ticker])
                          ++ [CallHeadlinesYahoo ticker] |})
        | _ =>
            (inl e,
             {| reads := reads st; _QUOTE_RING := _QUOTE_RING st;
                cache := cache st;
                events := events st ++ [CallHeadlines ticker] |})
        end
    | inr l =>
        (inr (headline_diagnostic fh yh, l, headlines_of yh),
         {| reads := reads st; _QUOTE_RING := _QUOTE_RING st;
            cache := cache st;
            events := (events st ++ [CallHeadlines ticker])
                      ++ [CallHeadlinesYahoo ticker] |})
    end.
Proof.
  cbv zeta. unfold headlines_section, tagged.
  rewrite (bind_step _ _ _ _ _ (attempt_eq _ st)), call_eq. cbn [fst snd].
  destruct (fetch_headlines w ticker 5) as [e|l].
  - destruct (exn_class e); try reflexivity.
    unfold bind, ret. rewrite attempt_eq, call_eq. cbn [fst snd].
    by destruct (fetch_headlines_yahoo w ticker 5).
  - unfold bind, ret. rewrite attempt_eq, call_eq. cbn [fst snd].
    by destruct (fetch_headlines_yahoo w ticker 5).
Qed.

Lemma degrade_eq ticker top e st :
  degrade w ticker top e st =
    match _synthetic_feats with
    | inr f0 =>
        let p :=
          {| features := f0; top_headline := top; refs := [];
             refs_sources := []; error := Some (handler_error e);
             quote := synthetic_quote;
             ts := isoformat_seconds (now w (reads st)) |} in
        (inr p,
         {| reads := S (reads st); _QUOTE_RING := _QUOTE_RING st;
            cache := <[ticker := p]> (cache st);
            events := events st ++ [CachePut ticker] |})
    | inl e' => (inl e', st)
    end.
Proof.
  unfold degrade, handler_error, tagged. cbv zeta. unfold bind.
  rewrite synthetic_payload_result.
  destruct _synthetic_feats; [reflexivity|].
  by rewrite put_cached_result.
Qed.

(** The ways a live request without a cached payload can end. *)
Lemma build_live_miss_eq ticker st :
  live w -> cache st !! ticker = None ->
  let fh := headlines_of (fetch_headlines w ticker 5) in
  let yh := headlines_of (fetch_headlines_yahoo w ticker 5) in
  let err := headline_diagnostic (fetch_headlines w ticker 5)
               (fetch_headlines_yahoo w ticker 5) in
  (exists e s,
     build_features_for w ticker st = degrade w ticker None e s
     /\ cache s = cache st
     /\ ~ headlines_contained (fetch_headlines w ticker 5))
  \/ (headlines_contained (fetch_headlines w ticker 5)
      /\ exists s1 r s2,
           aggregate w ticker err fh yh (top_of fh yh) s1 = (r, s2)
           /\ cache s1 = cache st
           /\ match r with
              | inl e =>
                  build_features_for w ticker st
                  = degrade w ticker (top_of fh yh) e s2
                  /\ cache s2 = cache st
              | inr p =>
                  build_features_for w ticker st = (inr p, s2)
                  /\ cache s2 = <[ticker := p]> (cache st)
              end).
Proof.
  intros Hl Hc. cbv zeta. unfold build_features_for. cbv zeta.
  rewrite bool_decide_eq_true_2 by done.
  rewrite (bind_step _ _ _ _ _ (get_cached_result ticker st)), Hc.
  rewrite (bind_step _ _ _ _ _ (attempt_eq _ _)).
  rewrite headlines_section_eq. cbv zeta. unfold headlines_contained.
  cbn [reads _QUOTE_RING cache events].
  destruct (fetch_headlines w ticker 5) as [e|l] eqn:Efh.
  - destruct (exn_class e) eqn:Ec; cbn [fst snd].
    + right. split; [done|].
      rewrite (bind_step _ _ _ _ _ (attempt_eq _ _)).
      destruct (aggregate_outcome w ticker
                  (headline_diagnostic (inl e)
                     (fetch_headlines_yahoo w ticker 5)) []
                  (headlines_of (fetch_headlines_yahoo w ticker 5))
                  (top_of [] (headlines_of (fetch_headlines_yahoo w ticker 5)))
                  {| reads := reads st; _QUOTE_RING := _QUOTE_RING st;
                     cache := cache st;
                     events := ((events st ++ [CacheGet ticker])
                                ++ [CallHeadlines ticker])
                               ++ [CallHeadlinesYahoo ticker] |})
        as (r & s2 & Ha & _ & Hres).
      eexists _, r, s2. cbn [headlines_of]. split; [exact Ha|].
      split; [reflexivity|].
      match goal with
      | |- context [aggregate w ticker ?a ?b ?c ?d ?s] =>
          change d with (top_of b c)
      end.
      rewrite Ha. cbn [fst snd].
      destruct r as [e'|p]; [done|]. by destruct Hres.
    + left. eexists e, _. split; [reflexivity|]. split; [done|]. discriminate.
    + left. eexists e, _. split; [reflexivity|]. split; [done|]. discriminate.
  - right. split; [done|]. cbn [fst snd headlines_of].
    rewrite (bind_step _ _ _ _ _ (attempt_eq _ _)).
    destruct (aggregate_outcome w ticker
                (headline_diagnostic (inr l) (fetch_headlines_yahoo w ticker 5))
                l (headlines_of (fetch_headlines_yahoo w ticker 5))
                (top_of l (headlines_of (fetch_headlines_yahoo w ticker 5)))
                {| reads := reads st; _QUOTE_RING := _QUOTE_RING st;
                   cache := cache st;
                   events := ((events st ++ [CacheGet ticker])
                              ++ [CallHeadlines ticker])
                             ++ [CallHeadlinesYahoo ticker] |})
      as (r & s2 & Ha & _ & Hres).
    eexists _, r, s2. split; [exact Ha|]. split; [reflexivity|].
    match goal with
    | |- context [aggregate w ticker ?a ?b ?c ?d ?s] =>
        change d with (top_of b c)
    end.
    rewrite Ha. cbn [fst snd].
    destruct r as [e'|p]; [done|]. by destruct Hres.
Qed.

Lemma aggregate_fields ticker err fh yh top st1 p st2 :
  aggregate w ticker err fh yh top st1 = (inr p, st2) ->
  exists sm ss q cs px b a ql m r1 r5 rv ab es t sA sB sC sD,
    fetch_quote_tiingo w ticker = inr q
    /\ fetch_candles_tiingo w ticker 120 (lit "1min") = inr cs
    /\ quotes_section w ticker q cs sA = (inr (px, b, a, ql), sB)
    /\ returns_section w ticker cs px sC = (inr (r1, r5, rv, ab), sD)
    /\ p = {| features :=
                {| sent_mean := sm; sent_std := ss; r_1m := r1; r_5m := r5;
                   above_sma20_ := ab; mins_since_news := m;
                   rv20 := clamp_rv20 rv; earnings_soon := es;
                   liquidity_flag := liquidity_section cs px b a |};
              top_headline := top;
              refs := pad_refs (_merge_refs ticker fh yh);
              refs_sources := List.map publisher (_merge_refs ticker fh yh);
              error := err;
              quote := {| last := px; bid := Some b; ask := Some a;
                          quality := ql |};
              ts := t |}.
Proof.
  unfold aggregate. cbv zeta. intros H.
  apply bind_inr in H as ([sm ss] & s1 & _ & H).
  apply bind_inr in H as (q & s2 & Hq & H).
  apply bind_inr in H as (cs & s3 & Hcs & H).
  apply bind_inr in H as ([[[px b] a] ql] & s4 & Hqs & H).
  apply bind_inr in H as (m & s5 & _ & H).
  apply bind_inr in H as ([[[r1 r5] rv] ab] & s6 & Hrs & H).
  apply bind_inr in H as (es & s7 & _ & H).
  apply bind_inr in H as (t & s8 & _ & H).
  apply bind_inr in H as (u & s9 & _ & H).
  injection H as <- _.
  rewrite call_eq in Hq. rewrite call_eq in Hcs.
  injection Hq as Hq _. injection Hcs as Hcs _.
  exists sm, ss, q, cs, px, b, a, ql, m, r1, r5, rv, ab, es, t.
  eexists s3, s4, s5, s6. repeat split; done.
Qed.

(** The ways a request that computes its payload can return it. *)
Lemma fresh_payload ticker st p st' :
  (live w -> cache st !! ticker = None) ->
  build_features_for w ticker st = (inr p, st') ->
  (exists f0, _synthetic_feats = inr f0 /\ synthetic_around f0 p)
  \/ (live w
      /\ exists s1,
           aggregate w ticker
             (headline_diagnostic (fetch_headlines w ticker 5)
                (fetch_headlines_yahoo w ticker 5))
             (headlines_of (fetch_headlines w ticker 5))
             (headlines_of (fetch_headlines_yahoo w ticker 5))
             (top_of (headlines_of (fetch_headlines w ticker 5))
                     (headlines_of (fetch_headlines_yahoo w ticker 5)))
             s1 = (inr p, st')).
Proof.
  intros Hmiss Hb. destruct (decide (live w)) as [Hl|Hl].
  - destruct (build_live_miss_eq ticker st Hl (Hmiss Hl))
      as [(e & s & He & _)|(_ & s1 & r & s2 & Ha & _ & Hr)].
    + rewrite He, degrade_eq in Hb. left.
      destruct _synthetic_feats as [e'|f0]; [discriminate|].
      exists f0. split; [done|]. injection Hb as <- _. by repeat split.
    + destruct r as [e|p'].
      * destruct Hr as [He _]. rewrite He, degrade_eq in Hb. left.
        destruct _synthetic_feats as [e'|f0]; [discriminate|].
        exists f0. split; [done|]. injection Hb as <- _. by repeat split.
      * destruct Hr as [He _]. rewrite He in Hb. injection Hb as <- <-.
        right. split; [done|]. by exists s1.
  - rewrite build_offline, synthetic_payload_result in Hb by done. left.
    destruct _synthetic_feats as [e'|f0]; [discriminate|].
    exists f0. split; [done|]. injection Hb as <- _. by repeat split.
Qed.

Lemma synthetic_feats_rv20 f0 :
  _synthetic_feats = inr f0 -> exists x, rv20 f0 = clamp_rv20 x.
Proof.
  unfold _synthetic_feats, and_then.
  destruct (atr_normalized _ _ _ _) as [|x]; [discriminate|].
  repeat match goal with
         | |- context [match ?y with inl _ => _ | inr _ => _ end] =>
             destruct y; [discriminate|]
         end.
  intros [= <-]. by exists x.
Qed.

Lemma clamp_rv20_bounds x :
  PrimFloat.ltb (clamp_rv20 x) 0.02%float = false
  /\ PrimFloat.ltb 0.80%float (clamp_rv20 x) = false.
Proof.
  unfold clamp_rv20, py_min, py_max.
  destruct (PrimFloat.ltb x 0.02%float) eqn:E1.
  - by vm_compute.
  - destruct (PrimFloat.ltb 0.80%float x) eqn:E2; [by vm_compute|by split].
Qed.

(** X3: in every payload that build_features_for computes, the volatility
    rv20 is neither below 0.02 nor above 0.80 (a NaN, which compares with
    nothing, passes the clamp unchanged). *)
Theorem rv20_clamped ticker st p st' :
  (live w -> cache st !! ticker = None) ->
  build_features_for w ticker st = (inr p, st') ->
  PrimFloat.ltb (rv20 (features p)) 0.02%float = false
  /\ PrimFloat.ltb 0.80%float (rv20 (features p)) = false.
Proof.
  intros Hmiss Hb.
  destruct (fresh_payload ticker st p st' Hmiss Hb)
    as [(f0 & Hf & Hp & _)|(_ & s1 & Ha)].
  - destruct (synthetic_feats_rv20 f0 Hf) as [x Hx].
    rewrite Hp, Hx. apply clamp_rv20_bounds.
  - apply aggregate_fields in Ha
      as (sm & ss & q & cs & px & b & a & ql & m & r1 & r5 & rv & ab & es & t
          & sA & sB & sC & sD & _ & _ & _ & _ & ->).
    cbn [features rv20]. apply clamp_rv20_bounds.
Qed.

(** X4: in every payload that build_features_for computes, refs_sources
    lists the publishers of the refs present in refs, in the same order. *)
Theorem refs_sources_parallel ticker st p st' :
  (live w -> cache st !! ticker = None) ->
  build_features_for w ticker st = (inr p, st') ->
  refs_sources p = publisher <$> present_refs (refs p).
Proof.
  intros Hmiss Hb.
  destruct (fresh_payload ticker st p st' Hmiss Hb)
    as [(f0 & _ & _ & Hr & Hs & _)|(_ & s1 & Ha)].
  - by rewrite Hr, Hs.
  - apply aggregate_fields in Ha
      as (sm & ss & q & cs & px & b & a & ql & m & r1 & r5 & rv & ab & es & t
          & sA & sB & sC & sD & _ & _ & _ & _ & ->).
    cbn [refs refs_sources]. unfold present_refs, pad_refs.
    rewrite omap_app. f_equal.
    assert (H1 : forall l : list Ref, omap id (Some <$> l) = l).
    { induction l as [|x l IH]; [done|]. cbn. by rewrite IH. }
    assert (H2 : forall k, omap id (replicate k (@None Ref)) = []).
    { induction k as [|k IH]; [done|]. cbn. exact IH. }
    by rewrite H1, H2, app_nil_r.
Qed.

(** X5: when the aggregation completes (the quote of the payload has a bid),
    the error field is the diagnostic of the headline providers alone,
    nothing when both answered, and top_headline is the first headline of
    Finnhub, else the first of Yahoo. *)
Theorem aggregated_diagnostic ticker st p st' :
  (live w -> cache st !! ticker = None) ->
  build_features_for w ticker st = (inr p, st') ->
  is_Some (bid (quote p)) ->
  error p = headline_diagnostic (fetch_headlines w ticker 5)
              (fetch_headlines_yahoo w ticker 5)
  /\ top_headline p
     = top_of (headlines_of (fetch_headlines w ticker 5))
              (headlines_of (fetch_headlines_yahoo w ticker 5)).
Proof.
  intros Hmiss Hb Hbid.
  destruct (fresh_payload ticker st p st' Hmiss Hb)
    as [(f0 & _ & _ & _ & _ & Hq)|(_ & s1 & Ha)].
  - rewrite Hq in Hbid. by destruct Hbid.
  - apply aggregate_fields in Ha
      as (sm & ss & q & cs & px & b & a & ql & m & r1 & r5 & rv & ab & es & t
          & sA & sB & sC & sD & _ & _ & _ & _ & ->).
    by split.
Qed.

Lemma quotes_section_last ticker q cs st px b a ql st' :
  quotes_section w ticker q cs st = (inr (px, b, a, ql), st') ->
  px = last_price q cs (fetch_quote_finnhub w ticker).
Proof.
  unfold quotes_section, last_price, secondary_last.
  fold (primary_last q cs). cbv zeta. set (px0 := primary_last q cs).
  intros H. apply bind_inr in H as (px1 & s1 & Hfb & H).
  assert (Hpx1 : px1 = if PrimFloat.leb px0 0%float
                       then default px0
                              (match fetch_quote_finnhub w ticker with
                               | inr qfh =>
                                   match q_last qfh with
                                   | Some l => if ftruthy l then Some l else None
                                   | None => None
                                   end
                               | inl _ => None
                               end)
                       else px0).
  { destruct (PrimFloat.leb px0 0%float); [|by injection Hfb as <- _].
    apply bind_inr in Hfb as (r & s0 & Hr & Hfb).
    rewrite attempt_eq, call_eq in Hr. cbn [fst snd] in Hr.
    injection Hr as <- _.
    destruct (fetch_quote_finnhub w ticker) as [e|qfh];
      [by injection Hfb as <- _|].
    destruct (q_last qfh) as [l|]; [|by injection Hfb as <- _].
    injection Hfb as <- _. by destruct (ftruthy l). }
  rewrite <- Hpx1.
  apply bind_inr in H as (u & s2 & _ & H).
  destruct (observed (q_bid q)) as [b0|], (observed (q_ask q)) as [a0|];
    try (by injection H as <- _).
  destruct (PrimFloat.leb a0 b0); by injection H as <- _.
Qed.

(** X6: when the aggregation completes, the last price of the payload
    follows the chain of fallbacks: the primary provider's last price, else
    the close of the last candle; if that is not above zero, the secondary
    provider's last price when it answers with a non-zero one; and 1.0 if the
    price is still not above zero.  It is therefore never zero or negative,
    and the payload always carries a bid and an ask. *)
Theorem last_price_chain ticker st p st' :
  (live w -> cache st !! ticker = None) ->
  build_features_for w ticker st = (inr p, st') ->
  is_Some (bid (quote p)) ->
  exists q cs,
    fetch_quote_tiingo w ticker = inr q
    /\ fetch_candles_tiingo w ticker 120 (lit "1min") = inr cs
    /\ last (quote p) = last_price q cs (fetch_quote_finnhub w ticker)
    /\ PrimFloat.leb (last (quote p)) 0%float = false
    /\ is_Some (ask (quote p)).
Proof.
  intros Hmiss Hb Hbid.
  destruct (fresh_payload ticker st p st' Hmiss Hb)
    as [(f0 & _ & _ & _ & _ & Hq)|(_ & s1 & Ha)].
  - rewrite Hq in Hbid. by destruct Hbid.
  - apply aggregate_fields in Ha
      as (sm & ss & q & cs & px & b & a & ql & m & r1 & r5 & rv & ab & es & t
          & sA & sB & sC & sD & Hfq & Hfc & Hqs & _ & ->).
    exists q, cs. cbn [quote last ask]. split; [done|]. split; [done|].
    split; [by apply (quotes_section_last ticker q cs sA px b a ql sB)|].
    split; [|by eexists].
    destruct (quotes_section_result w ticker q cs sA)
      as (px' & b' & a' & ql' & Hres & Hpos & _).
    rewrite Hqs in Hres. by injection Hres as <- _ _ _.
Qed.

(** X7: no failure of a provider escapes build_features_for: with cache
    operations that do not raise, the only exception it can raise is the one
    the indicators raise on the fixed synthetic series. *)
Theorem only_synthetic_failure_escapes ticker st e st' :
  build_features_for w ticker st = (inl e, st') ->
  _synthetic_feats = inl e.
Proof.
  intros Hb. destruct (decide (live w)) as [Hl|Hl].
  - destruct (cache st !! ticker) as [p0|] eqn:Hc.
    + by rewrite (build_live_hit w ticker st p0 Hl Hc) in Hb.
    + destruct (build_live_miss_eq ticker st Hl Hc)
        as [(e0 & s & He & _)|(_ & s1 & r & s2 & _ & _ & Hr)].
      * rewrite He, degrade_eq in Hb.
        destruct _synthetic_feats; [by injection Hb as <- _|discriminate].
      * destruct r as [e0|p]; destruct Hr as [He _].
        -- rewrite He, degrade_eq in Hb.
           destruct _synthetic_feats; [by injection Hb as <- _|discriminate].
        -- by rewrite He in Hb.
  - rewrite build_offline, synthetic_payload_result in Hb by done.
    destruct _synthetic_feats; [by injection Hb as <- _|discriminate].
Qed.

Lemma sent_from_headlines_total hs st :
  exists ms st',
    _sent_from_headlines w hs st = (inr ms, st')
    /\ (sentiment_titles hs = [] ->
        st' = st /\ ms = (0%float, 0.05%float))
    /\ (sentiment_titles hs <> [] ->
        events st'
        = events st ++ [CallSentiment (take 8 (sentiment_titles hs))]
        /\ forall e,
             post_sentiment w (take 8 (sentiment_titles hs)) = inl e ->
             ms = (0%float, 0.05%float)).
Proof.
  unfold _sent_from_headlines. cbv zeta.
  destruct (sentiment_titles hs) as [|t l] eqn:Et.
  - eexists _, _. split; [reflexivity|]. by split.
  - rewrite (bind_step _ _ _ _ _ (attempt_eq _ _)), call_eq. cbn [fst snd].
    destruct (post_sentiment w (take 8 (t :: l))) as [e|[m s]] eqn:Ep.
    + eexists _, _. split; [reflexivity|]. split; [done|]. by split.
    + eexists _, _. split; [reflexivity|]. split; [done|].
      split; [done|]. discriminate.
Qed.

(** X8: the sentiment step never raises.  Without a titled headline it
    returns (0.0, 0.05) and calls nothing; otherwise it calls the scorer
    once, with the first 8 non-empty stripped titles at most, and returns
    (0.0, 0.05) when that call fails. *)
Theorem sentiment_never_fails hs st :
  exists ms st',
    _sent_from_headlines w hs st = (inr ms, st')
    /\ (sentiment_titles hs = [] ->
        st' = st /\ ms = (0%float, 0.05%float))
    /\ (sentiment_titles hs <> [] ->
        events st'
        = events st ++ [CallSentiment (take 8 (sentiment_titles hs))]
        /\ forall e,
             post_sentiment w (take 8 (sentiment_titles hs)) = inl e ->
             ms = (0%float, 0.05%float))
    /\ Forall (fun t => t <> []) (sentiment_titles hs).
Proof.
  destruct (sent_from_headlines_total hs st) as (ms & st' & H1 & H2 & H3).
  exists ms, st'. split; [exact H1|]. split; [exact H2|]. split; [exact H3|].
  unfold sentiment_titles. apply Forall_forall. intros t Ht%list_elem_of_In.
  apply List.filter_In in Ht as [_ Ht]. by destruct t.
Qed.

Lemma aggregate_quote_down ticker err fh yh top st1 e :
  fetch_quote_tiingo w ticker = inl e ->
  exists s2,
    aggregate w ticker err fh yh top st1 = (inl e, s2).
Proof.
  intros Hq. unfold aggregate. cbv zeta.
  destruct (sent_from_headlines_total
              (match List.filter nonempty (take 3 fh) with
               | [] => List.filter nonempty (take 3 yh)
               | l => l
               end) st1)
    as ([sm ss] & s1 & Hs & _).
  rewrite (bind_step _ _ _ _ _ Hs).
  eexists. apply bind_raise. by rewrite call_eq, Hq.
Qed.

(** X9: in live mode without a cached payload, when the Finnhub headlines
    call answers or raises an FHError and the primary quote provider raises,
    the payload returned is the synthetic one: its error is the handler's
    message for that exception alone ("tiingo: ..." for a TiError,
    "providers failed: ..." otherwise), the diagnostics of the headline
    providers being dropped, its top_headline is still the first headline
    found, and the last thing the request does is the put_cached of its
    ticker. *)
Theorem quote_failure_degrades ticker st e f0 :
  live w -> cache st !! ticker = None ->
  headlines_contained (fetch_headlines w ticker 5) ->
  fetch_quote_tiingo w ticker = inl e ->
  _synthetic_feats = inr f0 ->
  exists p st',
    build_features_for w ticker st = (inr p, st')
    /\ synthetic_around f0 p
    /\ error p = Some (handler_error e)
    /\ top_headline p
       = top_of (headlines_of (fetch_headlines w ticker 5))
                (headlines_of (fetch_headlines_yahoo w ticker 5))
    /\ exists evs, events st' = evs ++ [CachePut ticker].
Proof.
  intros Hl Hc Hcont Hq Hf.
  destruct (build_live_miss_eq ticker st Hl Hc)
    as [(e0 & s & _ & _ & Hn)|(_ & s1 & r & s2 & Ha & _ & Hr)]; [done|].
  destruct (aggregate_quote_down ticker
              (headline_diagnostic (fetch_headlines w ticker 5)
                 (fetch_headlines_yahoo w ticker 5))
              (headlines_of (fetch_headlines w ticker 5))
              (headlines_of (fetch_headlines_yahoo w ticker 5))
              (top_of (headlines_of (fetch_headlines w ticker 5))
                      (headlines_of (fetch_headlines_yahoo w ticker 5)))
              s1 e Hq) as (s2' & Ha').
  rewrite Ha' in Ha. injection Ha as <- <-. destruct Hr as [Hb _].
  rewrite degrade_eq, Hf in Hb. cbv zeta in Hb.
  eexists _, _. split; [exact Hb|]. cbn.
  split; [by repeat split|]. split; [done|]. split; [done|].
  by eexists.
Qed.

(** A live request that computes its payload leaves it in the cache,
    and the next live request for the same ticker, whatever the providers
    would answer then, returns that very payload: it looks the cache up and
    does nothing else, no provider call, no reading of the clock, no
    change to the rings or to the cache. *)
Lemma cached_payload_served (w2 : World) ticker st p st' :
  live w -> live w2 -> cache st !! ticker = None ->
  build_features_for w ticker st = (inr p, st') ->
  build_features_for w2 ticker st' = (inr p, after_lookup ticker st').
Proof.
  intros Hl Hl2 Hc Hb.
  assert (Hcache : cache st' !! ticker = Some p).
  { destruct (build_live_miss_eq ticker st Hl Hc)
      as [(e0 & s & He & _)|(_ & s1 & r & s2 & _ & _ & Hr)].
    - rewrite He, degrade_eq in Hb.
      destruct _synthetic_feats; [discriminate|]. cbv zeta in Hb.
      injection Hb as <- <-. cbn. by rewrite lookup_insert_eq.
    - destruct r as [e0|p']; destruct Hr as [He Hca].
      + rewrite He, degrade_eq in Hb.
        destruct _synthetic_feats; [discriminate|]. cbv zeta in Hb.
        injection Hb as <- <-. cbn. by rewrite lookup_insert_eq.
      + rewrite He in Hb. injection Hb as <- <-.
        by rewrite Hca, lookup_insert_eq. }
  by rewrite (build_live_hit w2 ticker st' p Hl2 Hcache).
Qed.

End Endings.

(** *** The quote ring, further *)

Section RingMore.
Context {ext : Externals}.

(** X10: under a clock that never goes back, in every state the process can
    reach, the samples of every ring are in the order of their timestamps,
    they are at most 600, and each is at most 10 minutes older than the
    newest one. *)
Theorem reachable_rings_ordered clock st ticker :
  clock_monotone clock -> reachable clock st ->
  StronglySorted (fun a b => fst a <= fst b) (ring_of st ticker)
  /\ (length (ring_of st ticker) <= 600)%nat
  /\ within_window (ring_of st ticker).
Proof.
  intros Hmono Hreach.
  pose proof (reachable_rings_ok clock st Hmono Hreach) as Hok.
  unfold ring_of. destruct (_QUOTE_RING st !! ticker) as [ring|] eqn:E.
  - destruct (Hok ticker ring E) as (H1 & H2 & _ & H4). by cbn.
  - cbn. split; [constructor|]. split; [lia|]. intros l s Hl. by destruct l.
Qed.

Lemma popleft_while_recent_noop cut ring :
  all_recent cut ring -> popleft_while cut ring = ring.
Proof.
  intros H. destruct H as [|[t px] ring Ht _]; [done|]. cbn in *.
  destruct (Z.ltb_spec t cut); [lia|done].
Qed.

Lemma popleft_while_stale cut ring :
  Forall (fun s : Z * float => fst s < cut) ring ->
  popleft_while cut ring = [].
Proof.
  induction 1 as [|[t px] ring Ht _ IH]; [done|]. cbn in *.
  destruct (Z.ltb_spec t cut); [done|lia].
Qed.

(** X11: when no sample of the ring, the new one included, is older than 10
    minutes at the second reading of the clock, an append only enforces the
    capacity: the new sample goes last, and the oldest sample is dropped
    exactly when the ring already held 600. *)
Theorem append_within_window w ticker px st :
  let t := now w (reads st) in
  let cut := now w (S (reads st)) - 10 * MINUTE in
  let ring := ring_of st ticker in
  let ring' := ring_of (snd (_note_quote w ticker px st)) ticker in
  all_recent cut ring -> cut <= t -> (length ring <= 600)%nat ->
  ((length ring < 600)%nat -> ring' = ring ++ [(t, px)])
  /\ (length ring = 600%nat -> ring' = drop 1 ring ++ [(t, px)]).
Proof.
  intros t cut ring ring' Hrec Ht Hlen.
  assert (Hring : ring' = popleft_while cut (deque_append 600 ring (t, px))).
  { unfold ring'. rewrite note_quote_effect. unfold ring_of at 1.
    cbn [snd _QUOTE_RING]. by rewrite lookup_insert_eq. }
  assert (Hall : all_recent cut (deque_append 600 ring (t, px))).
  { rewrite deque_append_drop. apply Forall_drop, Forall_app. split; [done|].
    by repeat constructor. }
  rewrite Hring, (popleft_while_recent_noop _ _ Hall), deque_append_drop.
  rewrite length_app. cbn [length]. split; intros Hl.
  - by replace (length ring + 1 - 600)%nat with 0%nat by lia.
  - replace (length ring + 1 - 600)%nat with 1%nat by lia.
    rewrite drop_app_le by lia. done.
Qed.

(** X12: the cut is computed from a second reading of the clock, after the
    append.  If the clock advances by more than 10 minutes between the two
    readings, the append leaves the ring of the ticker empty: the sample
    just appended is evicted with all the others. *)
Theorem append_after_clock_jump clock w ticker px st :
  clock_monotone clock -> reachable clock st -> now w = clock ->
  now w (reads st) < now w (S (reads st)) - 10 * MINUTE ->
  ring_of (snd (_note_quote w ticker px st)) ticker = [].
Proof.
  intros Hmono Hreach <- Hjump.
  pose proof (reachable_rings_ok _ st Hmono Hreach) as Hok.
  rewrite note_quote_effect. unfold ring_of at 1. cbn [snd _QUOTE_RING].
  rewrite lookup_insert_eq. cbn [default].
  apply popleft_while_stale. rewrite deque_append_drop.
  apply Forall_drop, Forall_app. split; [|repeat constructor; cbn; lia].
  unfold ring_of. destruct (_QUOTE_RING st !! ticker) as [ring|] eqn:E;
    [|constructor].
  destruct (Hok ticker ring E) as (_ & _ & Hpast & _). cbn [default].
  eapply Forall_impl; [exact Hpast|]. cbn. intros s Hs.
  specialize (Hs (reads st) ltac:(lia)). lia.
Qed.

(** An append for a ticker reads the clock twice and changes nothing
    but the ring of that ticker: the rings of the other tickers, the cache
    and the events are left as they were. *)
Lemma append_touches_one_ring w ticker px st tk :
  tk <> ticker ->
  let st' := snd (_note_quote w ticker px st) in
  ring_of st' tk = ring_of st tk
  /\ _QUOTE_RING st' !! tk = _QUOTE_RING st !! tk
  /\ cache st' = cache st /\ events st' = events st
  /\ reads st' = S (S (reads st)).
Proof.
  intros Hne st'. unfold st', ring_of. rewrite note_quote_effect.
  cbn [snd _QUOTE_RING cache events reads].
  by rewrite lookup_insert_ne.
Qed.

End RingMore.

(** *** On examples *)

Section MoreExamples.

Lemma rv20_clamped_witness :
  exists p st',
    build_features_for (ext := example_externals) live_world AAPL initial
      = (inr p, st')
    /\ PrimFloat.ltb (rv20 (features p)) 0.02%float = false
    /\ PrimFloat.ltb 0.80%float (rv20 (features p)) = false.
Proof.
  eexists _, _. split; [vm_compute; reflexivity|].
  eapply (rv20_clamped (ext := example_externals) live_world AAPL initial).
  - intros _. reflexivity.
  - vm_compute. reflexivity.
Defined.

Lemma refs_sources_parallel_witness :
  exists p st',
    build_features_for (ext := example_externals) live_world AAPL initial
      = (inr p, st')
    /\ refs_sources p = publisher <$> present_refs (refs p).
Proof.
  eexists _, _. split; [vm_compute; reflexivity|].
  eapply (refs_sources_parallel (ext := example_externals) live_world AAPL
            initial).
  - intros _. reflexivity.
  - vm_compute. reflexivity.
Defined.

Lemma aggregated_diagnostic_witness :
  exists p st',
    build_features_for (ext := example_externals) live_world AAPL initial
      = (inr p, st')
    /\ error p = headline_diagnostic (fetch_headlines live_world AAPL 5)
                   (fetch_headlines_yahoo live_world AAPL 5)
    /\ top_headline p
       = top_of (headlines_of (fetch_headlines live_world AAPL 5))
                (headlines_of (fetch_headlines_yahoo live_world AAPL 5)).
Proof.
  eexists _, _. split; [vm_compute; reflexivity|].
  eapply (aggregated_diagnostic (ext := example_externals) live_world AAPL
            initial).
  - intros _. reflexivity.
  - vm_compute. reflexivity.
  - eexists. reflexivity.
Defined.

Lemma last_price_chain_witness :
  exists p st',
    build_features_for (ext := example_externals) live_world AAPL initial
      = (inr p, st')
    /\ exists q cs,
         fetch_quote_tiingo live_world AAPL = inr q
         /\ fetch_candles_tiingo live_world AAPL 120 (lit "1min") = inr cs
         /\ last (quote p)
            = last_price q cs (fetch_quote_finnhub live_world AAPL)
         /\ PrimFloat.leb (last (quote p)) 0%float = false
         /\ is_Some (ask (quote p)).
Proof.
  eexists _, _. split; [vm_compute; reflexivity|].
  eapply (last_price_chain (ext := example_externals) live_world AAPL initial).
  - intros _. reflexivity.
  - vm_compute. reflexivity.
  - eexists. reflexivity.
Defined.

Lemma only_synthetic_failure_escapes_witness :
  build_features_for (ext := failing_externals) offline AAPL initial
    = (inl index_error, initial)
  /\ _synthetic_feats (ext := failing_externals) = inl index_error.
Proof.
  split; [vm_compute; reflexivity|].
  apply (only_synthetic_failure_escapes (ext := failing_externals) offline
           AAPL initial index_error initial).
  vm_compute. reflexivity.
Defined.

Lemma quote_failure_degrades_witness :
  exists p st',
    build_features_for (ext := example_externals) quote_down AAPL initial
      = (inr p, st')
    /\ error p = Some (lit "tiingo: 503")
    /\ top_headline p
       = Some (headline "Fed holds rates" "https://a" "2026-01-05T13:00:00Z")
    /\ refs p = []
    /\ exists evs, events st' = evs ++ [CachePut AAPL].
Proof.
  destruct (quote_failure_degrades (ext := example_externals) quote_down AAPL
              initial ti_down _ eq_refl eq_refl I eq_refl
              ltac:(vm_compute; reflexivity))
    as (p & st' & Hb & (_ & Hr & _) & He & Ht & Hc).
  exists p, st'. split; [exact Hb|]. split; [exact He|]. split; [exact Ht|].
  split; [exact Hr|exact Hc].
Defined.

Lemma cached_payload_served_witness :
  exists p st',
    build_features_for (ext := example_externals) live_world AAPL initial
      = (inr p, st')
    /\ build_features_for (ext := example_externals) quote_down AAPL st'
       = (inr p, after_lookup AAPL st').
Proof.
  eexists _, _. split; [vm_compute; reflexivity|].
  eapply (cached_payload_served (ext := example_externals) live_world
            quote_down AAPL initial).
  - reflexivity.
  - reflexivity.
  - reflexivity.
  - vm_compute. reflexivity.
Defined.

Lemma reachable_rings_ordered_witness :
  let st := note_all slow_world AAPL [100; 101; 102; 103]%float initial in
  List.map fst (ring_of st AAPL) = [noon + 10 * MINUTE; noon + 15 * MINUTE]
  /\ StronglySorted (fun a b : Z * float => fst a <= fst b) (ring_of st AAPL)
  /\ (length (ring_of st AAPL) <= 600)%nat
  /\ within_window (ring_of st AAPL).
Proof.
  intros st. split; [vm_compute; reflexivity|].
  apply (reachable_rings_ordered (ext := example_externals) (now slow_world)
           st AAPL).
  - intros i j Hij. cbn. lia.
  - unfold st. cbn [note_all].
    repeat (apply reach_note; [reflexivity|]). apply reach_initial.
Defined.

Lemma append_within_window_witness :
  let short := note_all offline AAPL [100; 101]%float initial in
  (length (ring_of short AAPL) = 2%nat
   /\ ring_of (snd (_note_quote offline AAPL 102%float short)) AAPL
      = ring_of short AAPL ++ [(now offline (reads short), 102%float)])
  /\ (length (ring_of full_ring AAPL) = 600%nat
      /\ ring_of (snd (_note_quote offline AAPL 101%float full_ring)) AAPL
         = drop 1 (ring_of full_ring AAPL) ++ [(noon, 101%float)]).
Proof.
  intros short. split.
  - assert (Hlen : length (ring_of short AAPL) = 2%nat)
      by (vm_compute; reflexivity).
    split; [exact Hlen|].
    apply (append_within_window offline AAPL 102%float short).
    + unfold all_recent. cbv zeta. apply (bool_decide_unpack _).
      vm_compute. reflexivity.
    + vm_compute. discriminate.
    + rewrite Hlen. lia.
    + rewrite Hlen. lia.
  - assert (Hlen : length (ring_of full_ring AAPL) = 600%nat)
      by (vm_compute; reflexivity).
    split; [exact Hlen|].
    apply (append_within_window offline AAPL 101%float full_ring).
    + unfold all_recent. cbv zeta. apply (bool_decide_unpack _).
      vm_compute. reflexivity.
    + vm_compute. discriminate.
    + rewrite Hlen. lia.
    + exact Hlen.
Defined.

Lemma append_after_clock_jump_witness :
  ring_of (snd (_note_quote jumpy_world AAPL 101%float initial)) AAPL = [].
Proof.
  apply (append_after_clock_jump (ext := example_externals) (now jumpy_world)
           jumpy_world AAPL 101%float initial).
  - intros i j Hij. cbn. lia.
  - constructor.
  - reflexivity.
  - vm_compute. reflexivity.
Defined.

Lemma append_touches_one_ring_witness :
  let st' := snd (_note_quote offline AAPL 101%float initial) in
  ring_of st' (lit "MSFT") = ring_of initial (lit "MSFT")
  /\ _QUOTE_RING st' !! lit "MSFT" = _QUOTE_RING initial !! lit "MSFT"
  /\ cache st' = cache initial /\ events st' = events initial
  /\ reads st' = S (S (reads initial)).
Proof.
  apply (append_touches_one_ring offline AAPL 101%float initial (lit "MSFT")).
  vm_compute. discriminate.
Defined.

End MoreExamples.

End AggregatorFacts.

(** ** The gateway, further facts *)

Module RetryFacts.
Import Py Gateway GatewaySpec RetrySpec GatewayFacts.

Section Loop.
Context {Json : Type}.
Variable upstream : nat -> Request Json -> Outcome Json.
Variable cfg : Config.

Lemma retry_loop_outcome req : forall (todo : nat) last net,
  retry_outcome upstream todo (DELAY cfg) req net
    (retry_loop upstream cfg todo req last net).
Proof.
  induction todo as [|todo IH]; intros last net; cbn [retry_loop].
  - exists 0%nat. cbn. rewrite !app_nil_r. split; [lia|]. split; [done|].
    split; [done|]. split; [intros i Hi; lia|done].
  - destruct (upstream (length (sent net)) req) as [e|body] eqn:Eu.
    + destruct (time_sleep (DELAY cfg)) as [x|] eqn:Es.
      { exists 1%nat. cbn [fst snd sent slept replicate]. split; [lia|].
        split; [done|]. split; [done|]. split; [|done].
        intros i Hi. exists e. replace i with 0%nat by lia.
        by rewrite Nat.add_0_r. }
      destruct (IH (Some e)
                   {| sent := sent net ++ [req];
                      slept := slept net ++ [DELAY cfg] |})
        as (k & Hk & Hsent & Hres).
      cbn [sent slept] in *. rewrite length_app in Hres. cbn [length] in Hres.
      unfold retry_outcome. cbv zeta. cbn [fst snd]. revert Hres.
      destruct (fst (retry_loop _ _ _ _ _ _)) as [[ex|x]|body]; intros Hres.
      * exists (S k). split; [lia|].
        split; [by rewrite Hsent, <- app_assoc|].
        destruct Hres as (-> & Hall & Hslept & Hcode).
        split; [done|]. split; [|split; [by rewrite Hslept, <- app_assoc|done]].
        intros i Hi. destruct i as [|i].
        -- exists e. by rewrite Nat.add_0_r.
        -- destruct (Hall i ltac:(lia)) as [e' He']. exists e'.
           rewrite <- He'. f_equal. lia.
      * destruct Hres as (_ & _ & _ & Hx). by rewrite Es in Hx.
      * exists (S k). split; [lia|].
        split; [by rewrite Hsent, <- app_assoc|].
        destruct Hres as (Hk1 & Hok & Hall & Hslept).
        split; [lia|]. split; [|split].
        -- rewrite <- Hok. f_equal. lia.
        -- intros i Hi. destruct i as [|i].
           ++ exists e. by rewrite Nat.add_0_r.
           ++ destruct (Hall i ltac:(lia)) as [e' He']. exists e'.
              rewrite <- He'. f_equal. lia.
        -- rewrite Hslept, <- app_assoc. cbn [app].
           replace (S k - 1)%nat with (S (k - 1)) by lia. done.
    + exists 1%nat. cbn [fst snd sent slept replicate]. split; [lia|].
      split; [done|]. split; [lia|]. rewrite Nat.add_0_r, app_nil_r.
      split; [done|]. split; [intros i Hi; lia|done].
Qed.

(** X13: whatever the services answer and whatever the configuration, a GET
    or a POST of the gateway sends the same request at most RETRIES + 1
    times and ends in one of three ways: it returns the first body received,
    having slept DELAY once after each failure before it; or all its
    attempts fail, it sleeps DELAY after each of them, the last included,
    and raises status 502; or time.sleep refuses DELAY, and the exception
    of the sleep ends the call after the first failed attempt, with one
    request sent and no sleep taken. *)
Theorem gateway_call_outcome url params payload net :
  retry_outcome upstream (Z.to_nat (RETRIES cfg + 1)) (DELAY cfg)
    {| method := GET; target := url; data := params |} net
    (_get_json upstream cfg url params net)
  /\ retry_outcome upstream (Z.to_nat (RETRIES cfg + 1)) (DELAY cfg)
       {| method := POST; target := url; data := Some payload |} net
       (_post_json upstream cfg url payload net).
Proof. split; apply retry_loop_outcome. Qed.

(** X14: with a retry count of -1 or less the loop has no iteration: a GET
    or a POST sends nothing, sleeps not at all, and raises status 502 with a
    detail that names no exception, "... failed: None". *)
Theorem gateway_call_without_attempt url params payload net :
  RETRIES cfg <= -1 ->
  _get_json upstream cfg url params net
    = (inl (HTTP {| status_code := 502;
                    detail := lit "GET " ++ url ++ lit " failed: None" |}),
       net)
  /\ _post_json upstream cfg url payload net
     = (inl (HTTP {| status_code := 502;
                     detail := lit "POST " ++ url ++ lit " failed: None" |}),
        net).
Proof.
  intros Hr. unfold _get_json, _post_json.
  replace (Z.to_nat (RETRIES cfg + 1)) with 0%nat by lia.
  split; reflexivity.
Qed.

Lemma retry_loop_step req todo last net :
  retry_loop upstream cfg (S todo) req last net
  = match upstream (length (sent net)) req with
    | Returns body =>
        (inr body, {| sent := sent net ++ [req]; slept := slept net |})
    | Raises e =>
        match time_sleep (DELAY cfg) with
        | Some x =>
            (inl (Sleep x),
             {| sent := sent net ++ [req]; slept := slept net |})
        | None =>
            retry_loop upstream cfg todo req (Some e)
              {| sent := sent net ++ [req];
                 slept := slept net ++ [DELAY cfg] |}
        end
    end.
Proof. reflexivity. Qed.

Lemma retry_loop_detail req : forall (todo : nat) last net ex net' e,
  retry_loop upstream cfg (S todo) req last net = (inl (HTTP ex), net') ->
  upstream (length (sent net) + todo)%nat req = Raises e ->
  detail ex = method_name (method req) ++ lit " " ++ target req
              ++ lit " failed: " ++ e.
Proof.
  induction todo as [|todo IH]; intros last net ex net' e;
    rewrite retry_loop_step.
  - rewrite Nat.add_0_r. intros H He. rewrite He in H.
    destruct (time_sleep (DELAY cfg)); [discriminate|].
    cbn [retry_loop] in H. by injection H as <- _.
  - intros H He.
    destruct (upstream (length (sent net)) req) as [e0|body]; [|discriminate].
    destruct (time_sleep (DELAY cfg)); [discriminate|].
    apply (IH (Some e0) _ ex net' e H). cbn [sent].
    rewrite length_app. cbn [length]. rewrite <- He. f_equal. lia.
Qed.

(** X15: when a GET or a POST gives up, the detail of the 502 names the
    method and the URL and carries the message of the exception of the last
    attempt, the earlier ones being forgotten. *)
Theorem gateway_failure_detail url params payload net e :
  0 <= RETRIES cfg ->
  (forall ex net',
     _get_json upstream cfg url params net = (inl (HTTP ex), net') ->
     upstream (length (sent net) + Z.to_nat (RETRIES cfg))%nat
       {| method := GET; target := url; data := params |} = Raises e ->
     detail ex = lit "GET " ++ url ++ lit " failed: " ++ e)
  /\ (forall ex net',
        _post_json upstream cfg url payload net = (inl (HTTP ex), net') ->
        upstream (length (sent net) + Z.to_nat (RETRIES cfg))%nat
          {| method := POST; target := url; data := Some payload |}
          = Raises e ->
        detail ex = lit "POST " ++ url ++ lit " failed: " ++ e).
Proof.
  intros Hr. unfold _get_json, _post_json.
  replace (Z.to_nat (RETRIES cfg + 1)) with (S (Z.to_nat (RETRIES cfg)))
    by lia.
  split; intros ex net' H He.
  - by rewrite (retry_loop_detail _ _ _ _ _ _ e H He).
  - by rewrite (retry_loop_detail _ _ _ _ _ _ e H He).
Qed.

End Loop.

Lemma gateway_call_without_attempt_witness :
  _get_json dead_stub no_attempt_config (lit "http://ctx") None idle
    = (inl (HTTP {| status_code := 502;
                    detail := lit "GET http://ctx failed: None" |}), idle)
  /\ _post_json dead_stub no_attempt_config (lit "http://rec") (lit "{}") idle
     = (inl (HTTP {| status_code := 502;
                     detail := lit "POST http://rec failed: None" |}),
        idle).
Proof.
  destruct (gateway_call_without_attempt dead_stub no_attempt_config
              (lit "http://ctx") None (lit "{}") idle
              ltac:(vm_compute; discriminate)) as [Hg _].
  destruct (gateway_call_without_attempt dead_stub no_attempt_config
              (lit "http://rec") None (lit "{}") idle
              ltac:(vm_compute; discriminate)) as [_ Hp].
  split; [exact Hg|exact Hp].
Defined.

Lemma gateway_failure_detail_witness :
  exists ex net',
    _post_json dead_stub default_config (lit "http://rec") (lit "{}") idle
      = (inl (HTTP ex), net')
    /\ detail ex = lit "POST http://rec failed: connection refused".
Proof.
  eexists _, _. split; [vm_compute; reflexivity|].
  eapply (proj2 (gateway_failure_detail dead_stub default_config
                   (lit "http://rec") None (lit "{}") idle
                   (lit "connection refused")
                   ltac:(vm_compute; discriminate))).
  - vm_compute. reflexivity.
  - reflexivity.
Defined.

End RetryFacts.

(** ** The one-liner composer, further facts *)

Module ComposerFacts.
Import Py OneLiner OneLinerSpec ComposerSpec OneLinerFacts.

Lemma build_index_suffix_take refs :
  _build_index_suffix refs = _build_index_suffix (take 3 <$> refs).
Proof.
  destruct refs as [[|s slots]|]; try reflexivity.
  cbn [fmap option_fmap option_map]. unfold _build_index_suffix.
  change (take 3 (s :: slots)) with (s :: take 2 slots).
  change (take 3 (s :: take 2 slots)) with (s :: take 2 (take 2 slots)).
  by rewrite take_take.
Qed.

Lemma omap_length_le {A B} (f : A -> option B) (l : list A) :
  (length (omap f l) <= length l)%nat.
Proof.
  induction l as [|a l IH]; [reflexivity|].
  cbn. destruct (f a); cbn; lia.
Qed.

(** X16: the composer reads the first three slots only: two requests that
    differ in the slots after the third alone get the same response, and
    refs_numbers never has more than 3 entries. *)
Theorem one_liner_reads_three_slots x y :
  agree_on_shown x y ->
  one_liner x = one_liner y
  /\ (forall out, one_liner x = inr out ->
        (length (refs_numbers out) <= 3)%nat).
Proof.
  intros (Hc & Hp & Hf & Hr). split.
  - unfold one_liner, base. rewrite Hc, Hp, Hf.
    by rewrite (build_index_suffix_take (refs x)), Hr,
      <- (build_index_suffix_take (refs y)).
  - intros out Ho. destruct (confidence_finite x) eqn:Efin.
    + rewrite (one_liner_returns x Efin) in Ho. injection Ho as <-.
      cbn [refs_numbers]. rewrite build_index_suffix_shown.
      unfold dense_numbering, present_urls.
      rewrite length_imap. etransitivity; [apply omap_length_le|].
      rewrite length_take. lia.
    + destruct (one_liner_raises x Efin) as [e He]. by rewrite He in Ho.
Qed.

Lemma one_liner_reads_three_slots_witness :
  one_liner scenario = one_liner scenario_five_slots
  /\ (forall out, one_liner scenario = inr out ->
        (length (refs_numbers out) <= 3)%nat).
Proof.
  apply (one_liner_reads_three_slots scenario scenario_five_slots).
  repeat split; reflexivity.
Defined.

Lemma opening_length x : (length (opening x) <= 177)%nat.
Proof.
  unfold opening. rewrite length_app.
  pose proof (strategy_phrase_cases (class_ x)) as Hp. cbn [In] in Hp.
  repeat (destruct Hp as [<-|Hp]; [vm_compute; lia|]). destruct Hp.
Qed.

(** X17: the call to strip changes nothing: whenever a response is returned,
    its text starts with the phrase of the class and ". Source: ", and when
    no truncation is needed it is that opening, the publisher as given (or
    "News" for an empty one), a space, the dash and the citation suffix. *)
Theorem one_liner_text_layout x out :
  one_liner x = inr out ->
  opening x `prefix_of` text out
  /\ ((Z.of_nat (length (composed x)) <= 180)%Z ->
      text out = opening x ++ str_or (publisher x) (lit "News") ++ lit " "
                 ++ DASH ++ fst (_build_index_suffix (refs x))).
Proof.
  intros Ho. destruct (confidence_finite x) eqn:Efin.
  2:{ destruct (one_liner_raises x Efin) as [e He]. by rewrite He in Ho. }
  rewrite (one_liner_returns x Efin) in Ho. injection Ho as <-.
  cbn [text].
  assert (Hc : composed x
               = opening x ++ str_or (publisher x) (lit "News") ++ lit " "
                 ++ DASH ++ fst (_build_index_suffix (refs x))).
  { unfold composed, opening. rewrite base_unstripped.
    by rewrite <- !app_assoc. }
  split.
  - destruct (180 <? Z.of_nat (length (composed x)))%Z.
    + rewrite Hc. rewrite take_app.
      rewrite take_ge by apply opening_length.
      rewrite <- app_assoc. by apply prefix_app_r.
    + rewrite Hc. by apply prefix_app_r.
  - intros Hle. destruct (Z.ltb_spec 180 (Z.of_nat (length (composed x))));
      [lia|exact Hc].
Qed.

Lemma one_liner_text_layout_witness :
  exists out,
    one_liner scenario = inr out
    /\ opening scenario `prefix_of` text out
    /\ ((Z.of_nat (length (composed scenario)) <= 180)%Z ->
        text out = opening scenario ++ str_or (publisher scenario) (lit "News")
                   ++ lit " " ++ DASH
                   ++ fst (_build_index_suffix (refs scenario))).
Proof.
  eexists. split; [vm_compute; reflexivity|].
  apply (one_liner_text_layout scenario). vm_compute. reflexivity.
Defined.

(** X18: the citation suffix comes last and is the first thing truncation
    removes: when the base clause alone is longer than 180 characters, the
    text is its first 177 characters and the marker, without any citation,
    while refs_numbers still lists every numbered ref. *)
Theorem one_liner_citations_truncated x out :
  one_liner x = inr out ->
  (180 < Z.of_nat (length (base x)))%Z ->
  text out = take 177 (base x) ++ ELLIPSIS
  /\ refs_numbers out
     = dense_numbering (present_urls (take 3 (default [] (refs x)))).
Proof.
  intros Ho Hlong. destruct (confidence_finite x) eqn:Efin.
  2:{ destruct (one_liner_raises x Efin) as [e He]. by rewrite He in Ho. }
  rewrite (one_liner_returns x Efin) in Ho. injection Ho as <-.
  cbn [text refs_numbers]. split; [|apply build_index_suffix_shown].
  assert (Hlen : (180 < Z.of_nat (length (composed x)))%Z).
  { unfold composed. rewrite length_app. lia. }
  destruct (Z.ltb_spec 180 (Z.of_nat (length (composed x)))); [|lia].
  unfold composed. rewrite take_app_le by lia. done.
Qed.

Lemma one_liner_citations_truncated_witness :
  exists out,
    one_liner long_publisher = inr out
    /\ text out = take 177 (base long_publisher) ++ ELLIPSIS
    /\ refs_numbers out
       = [ {| n := 1; ref_url := lit "https://a" |};
           {| n := 2; ref_url := lit "https://b" |} ].
Proof.
  eexists. split; [vm_compute; reflexivity|].
  apply (one_liner_citations_truncated long_publisher).
  - vm_compute. reflexivity.
  - vm_compute. reflexivity.
Defined.

End ComposerFacts.

(** ** The run endpoint of the gateway *)

Module RunFacts.
Import Py Gateway RetrySpec Run RunSpec RunExamples RetryFacts.
Local Open Scope r_scope.

Section Endpoint.
Context {bi : Builtins}.
Variable upstream : nat -> Request Json -> Outcome Json.
Variable cfg : Config.
Variable urls : Urls.
Variable now : nat -> Z.

Abbreviation run := (run upstream cfg urls now).

Lemma get_dict m key dflt s :
  get (JDict m) key dflt s = (inr (default dflt (field (JDict m) key)), s).
Proof. reflexivity. Qed.

Lemma get_other v key dflt s :
  ~ is_dict v -> get v key dflt s = (inl AttributeError, s).
Proof. intros H. destruct v; try reflexivity. destruct H. by eexists. Qed.

Lemma fallback_eq rec s :
  is_dict rec -> fallback rec s = (fallback_result rec, s).
Proof.
  intros [m ->]. unfold fallback, fallback_result, bind.
  rewrite !get_dict. unfold lift.
  destruct (converted (format_value _)) as [e|cs]; [done|].
  rewrite get_dict.
  destruct (int_times_100 _) as [e|pct]; [done|].
  destruct (converted (format_value _)) as [e|ps]; done.
Qed.

(** The endpoint, stage by stage. *)
Lemma run_stages t st :
  run t st =
  match _get_json upstream cfg (CTX_URL urls ++ lit "/api/features/v2")
          (Some (dict [(lit "ticker", JStr t)])) (net st) with
  | (inl x, n1) => (inl (raised x), {| net := n1; ticks := ticks st |})
  | (inr ctx, n1) =>
      match ctx with
      | JDict _ =>
          match _post_json upstream cfg (REC_URL urls ++ lit "/api/recommend")
                  (features_of ctx) n1 with
          | (inl x, n2) =>
              (inl (raised x), {| net := n2; ticks := ticks st |})
          | (inr rec, n2) =>
              match rec, headline_of ctx with
              | JDict _, JDict _ =>
                  match _post_json upstream cfg
                          (CTX_URL urls ++ lit "/api/one_liner")
                          (one_liner_payload rec ctx) n2 with
                  | (inr one, n3) =>
                      (inr (response t ctx rec one (now (ticks st))
                              (now (S (ticks st)))),
                       {| net := n3; ticks := S (S (ticks st)) |})
                  | (inl (HTTP e), n3) =>
                      match fallback_result rec with
                      | inl x => (inl x, {| net := n3; ticks := ticks st |})
                      | inr one =>
                          (inr (response t ctx rec one (now (ticks st))
                                  (now (S (ticks st)))),
                           {| net := n3; ticks := S (S (ticks st)) |})
                      end
                  | (inl (Sleep x), n3) =>
                      (inl (Conversion x),
                       {| net := n3; ticks := ticks st |})
                  end
              | _, _ =>
                  (inl AttributeError, {| net := n2; ticks := ticks st |})
              end
          end
      | _ => (inl AttributeError, {| net := n1; ticks := ticks st |})
      end
  end.
Proof.
  unfold Run.run. unfold bind at 1. unfold http at 1.
  destruct (_get_json _ _ _ _ _) as [[e|ctx] n1]; [reflexivity|].
  destruct ctx as [| | | | | |m]; try reflexivity.
  repeat (unfold bind at 1; rewrite get_dict).
  unfold bind at 1. unfold http at 1. cbn [net ticks].
  change (jor (default (dict []) (field (JDict m) "features")) (dict []))
    with (features_of (JDict m)).
  destruct (_post_json _ _ _ _ _) as [[e|rec] n2]; [reflexivity|].
  unfold bind at 1. unfold except_http, one_liner_call.
  change (jor (default JNull (field (JDict m) "top_headline")) _)
    with (headline_of (JDict m)).
  destruct rec as [| | | | | |r]; try reflexivity.
  repeat (unfold bind at 1; rewrite get_dict).
  destruct (headline_of (JDict m)) as [| | | | | |h] eqn:Eh; try reflexivity.
  repeat (unfold bind at 1; rewrite get_dict).
  unfold one_liner_payload. rewrite Eh. fold (refs_of (JDict m)).
  unfold http. cbn [net ticks].
  destruct (_post_json _ _ _ _ _) as [[[e|x]|one] n3].
  - cbn [raised]. rewrite fallback_eq by (by eexists).
    destruct (fallback_result (JDict r)) as [x|one]; reflexivity.
  - reflexivity.
  - reflexivity.
Qed.


(** *** The calls of a run *)

Lemma retry_loop_trace req : forall (todo : nat) last n0,
  exists k j,
    (k <= todo)%nat /\ (j <= k)%nat
    /\ sent (snd (retry_loop upstream cfg todo req last n0))
       = sent n0 ++ replicate k req
    /\ slept (snd (retry_loop upstream cfg todo req last n0))
       = slept n0 ++ replicate j (DELAY cfg).
Proof.
  intros todo last n0.
  destruct (retry_loop_outcome upstream cfg req todo last n0)
    as (k & Hk & Hsent & Hres).
  destruct (fst (retry_loop upstream cfg todo req last n0)) as [[ex|x]|body].
  - destruct Hres as (-> & _ & Hslept & _). exists todo, todo. done.
  - destruct Hres as (-> & _ & Hslept & _). exists 1%nat, 0%nat.
    cbn [replicate]. rewrite app_nil_r. repeat split; [done|lia|done|done].
  - destruct Hres as (Hk1 & _ & _ & Hslept). exists k, (k - 1)%nat.
    repeat split; [done|lia|done|done].
Qed.

Lemma retry_loop_error req : forall (todo : nat) last n0 ex n,
  retry_loop upstream cfg todo req last n0 = (inl (HTTP ex), n) ->
  status_code ex = 502
  /\ exists l,
       detail ex = method_name (method req) ++ lit " " ++ target req
                   ++ lit " failed: " ++ l.
Proof.
  induction todo as [|todo IH]; intros last n0 ex n;
    [cbn [retry_loop]|rewrite retry_loop_step].
  - intros H. injection H as <- _. split; [done|]. by eexists.
  - destruct (upstream (length (sent n0)) req) as [e0|body]; [|discriminate].
    destruct (time_sleep (DELAY cfg)); [discriminate|]. apply IH.
Qed.

Lemma retry_loop_body req : forall (todo : nat) last n0 body n,
  retry_loop upstream cfg todo req last n0 = (inr body, n) ->
  exists k, upstream k req = Returns body.
Proof.
  induction todo as [|todo IH]; intros last n0 body n;
    [cbn [retry_loop]|rewrite retry_loop_step].
  - discriminate.
  - destruct (upstream (length (sent n0)) req) as [e0|b] eqn:Eu.
    + destruct (time_sleep (DELAY cfg)); [discriminate|]. apply IH.
    + intros H. injection H as <- _. by eexists.
Qed.

Lemma retry_loop_first req todo last n0 body :
  upstream (length (sent n0)) req = Returns body ->
  retry_loop upstream cfg (S todo) req last n0
  = (inr body, {| sent := sent n0 ++ [req]; slept := slept n0 |}).
Proof. intros H. cbn [retry_loop]. by rewrite H. Qed.

(** *** Lookups in a dict display *)

Lemma field_dict_cons k v items key :
  field (dict ((k, v) :: items)) key
  = if bool_decide (k = lit key) then Some v else field (dict items) key.
Proof.
  unfold field, dict. cbn [list_to_map foldr uncurry fst snd].
  case_bool_decide as Hk.
  - subst k. apply lookup_insert_eq.
  - by apply lookup_insert_ne.
Qed.

Lemma field_dict_app_skip items k v key :
  k <> lit key ->
  field (dict (items ++ [(k, v)])) key = field (dict items) key.
Proof.
  intros Hk. induction items as [|[k0 v0] items IH].
  - cbn [app]. rewrite field_dict_cons. by rewrite bool_decide_eq_false_2.
  - cbn [app]. rewrite !field_dict_cons. by rewrite IH.
Qed.

Ltac dict_field :=
  repeat (rewrite field_dict_cons;
          first [ rewrite (bool_decide_eq_true_2 _ eq_refl)
                | rewrite bool_decide_eq_false_2 by (vm_compute; discriminate)
                ]).

Lemma response_field t ctx rec one t0 t1 key :
  lit key <> lit "features_note" ->
  field (response t ctx rec one t0 t1) key
  = field (dict (response_items t ctx rec one t0 t1)) key.
Proof.
  intros Hk. unfold response. destruct (jtruthy (note_of ctx)); [|done].
  by apply field_dict_app_skip.
Qed.

Lemma response_note t ctx rec one t0 t1 :
  field (response t ctx rec one t0 t1) "features_note"
  = if jtruthy (note_of ctx) then Some (note_of ctx) else None.
Proof.
  unfold response. destruct (jtruthy (note_of ctx)).
  - unfold response_items. cbn [app]. by dict_field.
  - unfold response_items. by dict_field.
Qed.

(** *** The facts *)

Ltac plan a b c f p k :=
  exists a, b, c, f, p, k; cbn [snd fst net ticks replicate app];
  rewrite ?app_nil_r, ?Nat.add_0_r;
  repeat match goal with
         | H : sent ?n = _ |- context [sent ?n] => rewrite H
         | H : slept ?n = _ |- context [slept ?n] => rewrite H
         end;
  rewrite ?replicate_add, <- ?app_assoc;
  solve [repeat split; first [lia | done | by left | by right]].

(** X19: whatever the services answer, a run sends the features request,
    then the recommend request, then the one-liner request, each at most
    RETRIES + 1 times and nothing else, hence at most 3 * (RETRIES + 1)
    requests; it sleeps DELAY at most once per request sent; and it reads
    the clock either not at all or twice. *)
Theorem run_request_plan t st :
  exists a b c f p k,
    (a <= budget cfg)%nat /\ (b <= budget cfg)%nat /\ (c <= budget cfg)%nat
    /\ (k <= a + b + c)%nat
    /\ sent (net (snd (run t st)))
       = sent (net st) ++ replicate a (features_request urls t)
         ++ replicate b (recommend_request urls f)
         ++ replicate c (one_liner_request urls p)
    /\ slept (net (snd (run t st)))
       = slept (net st) ++ replicate k (DELAY cfg)
    /\ (ticks (snd (run t st)) = ticks st
        \/ ticks (snd (run t st)) = S (S (ticks st))).
Proof.
  rewrite run_stages. unfold _get_json, _post_json.
  destruct (retry_loop_trace (features_request urls t) (budget cfg) None
              (net st)) as (a & j1 & Ha & Hj1 & S1 & L1).
  change (retry_loop upstream cfg _ _ None (net st))
    with (retry_loop upstream cfg (budget cfg) (features_request urls t)
            None (net st)).
  destruct (retry_loop upstream cfg (budget cfg) (features_request urls t)
              None (net st)) as [[e|ctx] n1]; cbn [snd] in S1, L1.
  { plan a 0%nat 0%nat JNull JNull j1. }
  destruct ctx as [| | | | | |m];
    try (plan a 0%nat 0%nat JNull JNull j1).
  set (ctx := JDict m).
  destruct (retry_loop_trace (recommend_request urls (features_of ctx))
              (budget cfg) None n1) as (b & j2 & Hb & Hj2 & S2 & L2).
  change (retry_loop upstream cfg _ _ None n1)
    with (retry_loop upstream cfg (budget cfg)
            (recommend_request urls (features_of ctx)) None n1).
  destruct (retry_loop upstream cfg (budget cfg)
              (recommend_request urls (features_of ctx)) None n1)
    as [[e|rec] n2]; cbn [snd] in S2, L2.
  { plan a b 0%nat (features_of ctx) JNull (j1 + j2)%nat. }
  destruct rec as [| | | | | |r];
    try (plan a b 0%nat (features_of ctx) JNull (j1 + j2)%nat).
  destruct (headline_of ctx) as [| | | | | |h];
    try (plan a b 0%nat (features_of ctx) JNull (j1 + j2)%nat).
  set (rec := JDict r).
  destruct (retry_loop_trace
              (one_liner_request urls (one_liner_payload rec ctx))
              (budget cfg) None n2) as (c & j3 & Hc & Hj3 & S3 & L3).
  change (retry_loop upstream cfg _ _ None n2)
    with (retry_loop upstream cfg (budget cfg)
            (one_liner_request urls (one_liner_payload rec ctx)) None n2).
  destruct (retry_loop upstream cfg (budget cfg)
              (one_liner_request urls (one_liner_payload rec ctx)) None n2)
    as [[[e|x]|one] n3]; cbn [snd] in S3, L3.
  - destruct (fallback_result rec) as [x|one];
      plan a b c (features_of ctx) (one_liner_payload rec ctx)
        (j1 + j2 + j3)%nat.
  - plan a b c (features_of ctx) (one_liner_payload rec ctx)
      (j1 + j2 + j3)%nat.
  - plan a b c (features_of ctx) (one_liner_payload rec ctx)
      (j1 + j2 + j3)%nat.
Qed.

Lemma converted_not_http {A} (r : round_error + A) e :
  converted r <> inl (Http e).
Proof. by destruct r. Qed.

Lemma fallback_not_http rec e : fallback_result rec <> inl (Http e).
Proof.
  unfold fallback_result.
  destruct (converted (format_value _)) as [x|cs] eqn:E1.
  { intros [= ->]. by eapply converted_not_http. }
  destruct (int_times_100 _) as [x|pct] eqn:E2.
  { intros [= ->]. revert E2. clear E1. unfold int_times_100.
    destruct (default (JInt 0) _) as [| | |f|s0| |]; try discriminate.
    - apply converted_not_http.
    - by destruct (int_of_str _). }
  destruct (converted (format_value (JInt pct))) as [x|ps] eqn:E3; [|done].
  intros [= ->]. by eapply converted_not_http.
Qed.

(** X20: a run raises an HTTPException only when the features call or the
    recommend call gives up: the status is 502, the detail is the one of
    that GET or of that POST, no one-liner request was sent and the clock
    was not read.  A failure of the one-liner service is never raised. *)
Theorem run_http_error t st e :
  fst (run t st) = inl (Http e) ->
  status_code e = 502
  /\ ticks (snd (run t st)) = ticks st
  /\ (exists l,
        detail e = lit "GET " ++ (CTX_URL urls ++ lit "/api/features/v2")
                   ++ lit " failed: " ++ l
        \/ detail e = lit "POST " ++ (REC_URL urls ++ lit "/api/recommend")
                      ++ lit " failed: " ++ l)
  /\ exists a b f,
       sent (net (snd (run t st)))
       = sent (net st) ++ replicate a (features_request urls t)
         ++ replicate b (recommend_request urls f).
Proof.
  rewrite run_stages. unfold _get_json, _post_json.
  destruct (retry_loop_trace (features_request urls t) (budget cfg) None
              (net st)) as (a & j1 & _ & _ & S1 & _).
  change (retry_loop upstream cfg _ _ None (net st))
    with (retry_loop upstream cfg (budget cfg) (features_request urls t)
            None (net st)).
  destruct (retry_loop upstream cfg (budget cfg) (features_request urls t)
              None (net st)) as [[[e1|x1]|ctx] n1] eqn:E1; cbn [snd] in S1;
    [|discriminate|].
  { cbn [fst snd net ticks raised]. intros [= ->].
    destruct (retry_loop_error _ _ _ _ _ _ E1) as (Hc & l & Hl).
    split; [done|]. split; [done|]. split; [exists l; by left|].
    exists a, 0%nat, JNull. cbn [replicate]. by rewrite app_nil_r. }
  destruct ctx as [| | | | | |m]; try discriminate.
  set (ctx := JDict m).
  destruct (retry_loop_trace (recommend_request urls (features_of ctx))
              (budget cfg) None n1) as (b & j2 & _ & _ & S2 & _).
  change (retry_loop upstream cfg _ _ None n1)
    with (retry_loop upstream cfg (budget cfg)
            (recommend_request urls (features_of ctx)) None n1).
  destruct (retry_loop upstream cfg (budget cfg)
              (recommend_request urls (features_of ctx)) None n1)
    as [[[e2|x2]|rec] n2] eqn:E2; cbn [snd] in S2; [|discriminate|].
  { cbn [fst snd net ticks raised]. intros [= ->].
    destruct (retry_loop_error _ _ _ _ _ _ E2) as (Hc & l & Hl).
    split; [done|]. split; [done|]. split; [exists l; by right|].
    exists a, b, (features_of ctx). by rewrite S2, S1, <- app_assoc. }
  destruct rec as [| | | | | |r]; try discriminate.
  destruct (headline_of ctx) as [| | | | | |h]; try discriminate.
  destruct (retry_loop _ _ _ _ _ n2) as [[[e3|x3]|one] n3];
    [|discriminate|discriminate].
  destruct (fallback_result (JDict r)) as [x|one] eqn:Ef; [|discriminate].
  cbn [fst]. intros [= ->]. by apply fallback_not_http in Ef.
Qed.

(** X21: the one_liner of a response is either a body the one-liner service
    returned, passed on as it is, or, when every attempt of that call
    failed, the local text "<class> <middle dot> <percent>% confidence"
    computed from the recommendation, in a dict that has no refs_numbers. *)
Theorem run_one_liner_field t st resp :
  fst (run t st) = inr resp ->
  exists rec one,
    field resp "recommendation" = Some rec
    /\ field resp "one_liner" = Some one
    /\ ((exists k p, upstream k (one_liner_request urls p) = Returns one)
        \/ ((exists n p,
               all_fail upstream n (budget cfg) (one_liner_request urls p))
            /\ fallback_result rec = inr one
            /\ field one "refs_numbers" = None
            /\ exists cs ps,
                 field one "text"
                 = Some (JStr (cs ++ lit " " ++ [183%N] ++ lit " " ++ ps
                               ++ lit "% confidence")))).
Proof.
  rewrite run_stages. unfold _get_json, _post_json.
  destruct (retry_loop _ _ _ _ _ (net st)) as [[e1|ctx] n1]; [discriminate|].
  destruct ctx as [| | | | | |m]; try discriminate.
  destruct (retry_loop _ _ _ _ _ n1) as [[e2|rec] n2]; [discriminate|].
  destruct rec as [| | | | | |r]; try discriminate.
  destruct (headline_of (JDict m)) as [| | | | | |h]; try discriminate.
  pose proof (retry_loop_outcome upstream cfg
                (one_liner_request urls
                   (one_liner_payload (JDict r) (JDict m)))
                (budget cfg) None n2) as Ho.
  change (retry_loop upstream cfg _ _ None n2)
    with (retry_loop upstream cfg (budget cfg)
            (one_liner_request urls (one_liner_payload (JDict r) (JDict m)))
            None n2).
  destruct (retry_loop upstream cfg (budget cfg)
              (one_liner_request urls (one_liner_payload (JDict r) (JDict m)))
              None n2) as [[[e3|x3]|one] n3] eqn:E3; [|discriminate|].
  - destruct (fallback_result (JDict r)) as [x|one] eqn:Ef; [discriminate|].
    cbn [fst]. intros [= <-]. exists (JDict r), one.
    rewrite !response_field by (vm_compute; discriminate).
    unfold response_items. split; [by dict_field|]. split; [by dict_field|].
    right. destruct Ho as (k & _ & _ & Hres). cbn [fst] in Hres.
    destruct Hres as (_ & Hall & _).
    split; [by eexists _, _|]. split; [done|].
    revert Ef. unfold fallback_result.
    destruct (converted (format_value _)) as [x|cs]; [discriminate|].
    destruct (int_times_100 _) as [x|pct]; [discriminate|].
    destruct (converted (format_value _)) as [x|ps]; [discriminate|].
    intros [= <-]. split; [by dict_field|]. exists cs, ps. by dict_field.
  - cbn [fst]. intros [= <-]. exists (JDict r), one.
    rewrite !response_field by (vm_compute; discriminate).
    unfold response_items. split; [by dict_field|]. split; [by dict_field|].
    left. destruct (retry_loop_body _ _ _ _ _ _ E3) as [k Hk].
    by exists k, (one_liner_payload (JDict r) (JDict m)).
Qed.

(** X22: a response passes on what the services answered.  Its features are
    the features of the context body ({} for a missing or falsy value), the
    very payload the recommender answered to; a missing or falsy quote is
    replaced by the placeholder with last 0.0 and no bid and ask, missing or
    falsy refs and refs_sources by []; features_note is present exactly
    when the error of the context body is truthy; ts_gateway is the second
    reading of the clock; and cache_age_seconds is the whole seconds from
    the parsed ts of the context body to the first reading of the clock
    when that ts is a non-empty string that parses, and null otherwise. *)
Theorem run_response_fields t st resp :
  fst (run t st) = inr resp ->
  exists ctx rec,
    (exists k, upstream k (features_request urls t) = Returns ctx)
    /\ (exists k, upstream k (recommend_request urls (features_of ctx))
                  = Returns rec)
    /\ field resp "ticker" = Some (JStr t)
    /\ field resp "features" = Some (features_of ctx)
    /\ field resp "recommendation" = Some rec
    /\ field resp "quote" = Some (quote_of ctx)
    /\ field resp "top_headline" = Some (top_headline_of ctx)
    /\ field resp "refs" = Some (refs_of ctx)
    /\ field resp "refs_sources" = Some (refs_sources_of ctx)
    /\ field resp "ts_ctx" = Some (ts_of ctx)
    /\ field resp "ts_gateway"
       = Some (JStr (Features.isoformat_seconds (now (S (ticks st)))))
    /\ field resp "features_note"
       = (if jtruthy (note_of ctx) then Some (note_of ctx) else None)
    /\ field resp "cache_age_seconds"
       = Some (match ts_of ctx with
               | JStr s =>
                   if truthy s then
                     match parse_instant
                             (replace_char 90%N (lit "+00:00") s) with
                     | Some t0 => JInt (whole_seconds (now (ticks st) - t0))
                     | None => JNull
                     end
                   else JNull
               | _ => JNull
               end).
Proof.
  rewrite run_stages. unfold _get_json, _post_json.
  change (retry_loop upstream cfg _ _ None (net st))
    with (retry_loop upstream cfg (budget cfg) (features_request urls t)
            None (net st)).
  destruct (retry_loop upstream cfg (budget cfg) (features_request urls t)
              None (net st)) as [[e1|ctx] n1] eqn:E1; [discriminate|].
  destruct ctx as [| | | | | |m]; try discriminate.
  set (ctx := JDict m) in *.
  change (retry_loop upstream cfg _ _ None n1)
    with (retry_loop upstream cfg (budget cfg)
            (recommend_request urls (features_of ctx)) None n1).
  destruct (retry_loop upstream cfg (budget cfg)
              (recommend_request urls (features_of ctx)) None n1)
    as [[e2|rec] n2] eqn:E2; [discriminate|].
  assert (Hage : forall t0,
            age_of ctx t0
            = match ts_of ctx with
              | JStr s =>
                  if truthy s then
                    match parse_instant
                            (replace_char 90%N (lit "+00:00") s) with
                    | Some t1 => JInt (whole_seconds (t0 - t1))
                    | None => JNull
                    end
                  else JNull
              | _ => JNull
              end).
  { intros t0. unfold age_of, _parse_iso.
    destruct (ts_of ctx) as [| | | |s| |]; try reflexivity.
    destruct (truthy s); cbn [negb]; [|reflexivity].
    by destruct (parse_instant _). }
  assert (Hresp : forall one,
            resp = response t ctx rec one (now (ticks st))
                     (now (S (ticks st))) ->
            exists ctx0 rec0,
              (exists k, upstream k (features_request urls t) = Returns ctx0)
              /\ (exists k,
                    upstream k (recommend_request urls (features_of ctx0))
                    = Returns rec0)
              /\ field resp "ticker" = Some (JStr t)
              /\ field resp "features" = Some (features_of ctx0)
              /\ field resp "recommendation" = Some rec0
              /\ field resp "quote" = Some (quote_of ctx0)
              /\ field resp "top_headline" = Some (top_headline_of ctx0)
              /\ field resp "refs" = Some (refs_of ctx0)
              /\ field resp "refs_sources" = Some (refs_sources_of ctx0)
              /\ field resp "ts_ctx" = Some (ts_of ctx0)
              /\ field resp "ts_gateway"
                 = Some (JStr (Features.isoformat_seconds
                                 (now (S (ticks st)))))
              /\ field resp "features_note"
                 = (if jtruthy (note_of ctx0) then Some (note_of ctx0)
                    else None)
              /\ field resp "cache_age_seconds"
                 = Some (match ts_of ctx0 with
                         | JStr s =>
                             if truthy s then
                               match parse_instant
                                       (replace_char 90%N (lit "+00:00") s)
                               with
                               | Some t0 =>
                                   JInt (whole_seconds
                                           (now (ticks st) - t0))
                               | None => JNull
                               end
                             else JNull
                         | _ => JNull
                         end)).
  { intros one ->. exists ctx, rec.
    split; [by eapply retry_loop_body|]. split; [by eapply retry_loop_body|].
    rewrite response_note.
    rewrite !response_field by (vm_compute; discriminate).
    unfold response_items.
    do 9 (split; [by dict_field|]). split; [done|].
    rewrite <- Hage. by dict_field. }
  destruct rec as [| | | | | |r]; try discriminate.
  destruct (headline_of ctx) as [| | | | | |h]; try discriminate.
  destruct (retry_loop _ _ _ _ _ n2) as [[[e3|x3]|one] n3]; [|discriminate|].
  - destruct (fallback_result (JDict r)) as [x|one]; [discriminate|].
    cbn [fst]. intros [= <-]. by eapply Hresp.
  - cbn [fst]. intros [= <-]. by eapply Hresp.
Qed.

(** X23: the bodies of the services are not validated.  When the context
    service answers the features request with a body that is no dict, the
    run raises AttributeError, no HTTPException, after that one request;
    when the recommender answers with a body that is no dict, the run
    raises AttributeError after these two requests, and the one-liner
    service is not called. *)
Theorem run_body_not_dict t st :
  0 <= RETRIES cfg ->
  let n0 := length (sent (net st)) in
  (forall body,
     upstream n0 (features_request urls t) = Returns body ->
     ~ is_dict body ->
     run t st
     = (inl AttributeError,
        {| net := {| sent := sent (net st) ++ [features_request urls t];
                     slept := slept (net st) |};
           ticks := ticks st |}))
  /\ (forall ctx body,
        upstream n0 (features_request urls t) = Returns ctx ->
        is_dict ctx ->
        upstream (S n0) (recommend_request urls (features_of ctx))
        = Returns body ->
        ~ is_dict body ->
        run t st
        = (inl AttributeError,
           {| net := {| sent := sent (net st)
                                ++ [features_request urls t;
                                    recommend_request urls (features_of ctx)];
                        slept := slept (net st) |};
              ticks := ticks st |})).
Proof.
  intros Hr n0. rewrite run_stages. unfold _get_json, _post_json.
  replace (Z.to_nat (RETRIES cfg + 1)) with (S (Z.to_nat (RETRIES cfg)))
    by lia.
  split.
  - intros body Hb Hnd.
    rewrite (retry_loop_first (features_request urls t) _ None (net st) body
               Hb).
    destruct body; try reflexivity. destruct Hnd. by eexists.
  - intros ctx body Hc [m ->] Hb Hnd.
    rewrite (retry_loop_first (features_request urls t) _ None (net st) _ Hc).
    rewrite (retry_loop_first
               (recommend_request urls (features_of (JDict m))) _ None _ body).
    2:{ cbn [sent]. rewrite length_app. cbn [length].
        rewrite Nat.add_1_r. exact Hb. }
    cbn [sent slept]. rewrite <- app_assoc. cbn [app].
    destruct body; try reflexivity. destruct Hnd. by eexists.
Qed.

End Endpoint.

Lemma run_http_error_witness :
  exists e,
    fst (run_with all_down) = inl (Http e)
    /\ status_code e = 502
    /\ ticks (snd (run_with all_down)) = ticks start
    /\ (exists l,
          detail e
          = lit "GET " ++ (CTX_URL default_urls ++ lit "/api/features/v2")
            ++ lit " failed: " ++ l
          \/ detail e
             = lit "POST " ++ (REC_URL default_urls ++ lit "/api/recommend")
               ++ lit " failed: " ++ l)
    /\ exists a b f,
         sent (net (snd (run_with all_down)))
         = sent (net start)
           ++ replicate a (features_request default_urls (lit "AAPL"))
           ++ replicate b (recommend_request default_urls f).
Proof.
  eexists. split; [vm_compute; reflexivity|].
  apply (run_http_error (bi := example_builtins) all_down default_config
           default_urls clock (lit "AAPL") start).
  vm_compute. reflexivity.
Defined.

Lemma run_one_liner_field_witness :
  exists resp rec one,
    fst (run_with one_liner_down) = inr resp
    /\ field resp "recommendation" = Some rec
    /\ field resp "one_liner" = Some one
    /\ ((exists k p,
           one_liner_down k (one_liner_request default_urls p) = Returns one)
        \/ ((exists n p,
               all_fail one_liner_down n (budget default_config)
                 (one_liner_request default_urls p))
            /\ fallback_result (bi := example_builtins) rec = inr one
            /\ field one "refs_numbers" = None
            /\ exists cs ps,
                 field one "text"
                 = Some (JStr (cs ++ lit " " ++ [183%N] ++ lit " " ++ ps
                               ++ lit "% confidence")))).
Proof.
  destruct (run_one_liner_field (bi := example_builtins) one_liner_down
              default_config default_urls clock (lit "AAPL") start
              (match fst (run_with one_liner_down) with
               | inr resp => resp
               | inl _ => JNull
               end) ltac:(vm_compute; reflexivity))
    as (rec & one & H).
  eexists _, rec, one. split; [vm_compute; reflexivity|]. exact H.
Defined.

Lemma run_response_fields_witness :
  exists resp,
    fst (run_with one_liner_down) = inr resp
    /\ field resp "ticker" = Some (JStr (lit "AAPL"))
    /\ field resp "quote" = Some placeholder_quote
    /\ field resp "refs" = Some (JList [JNull])
    /\ field resp "refs_sources" = Some (JList [])
    /\ field resp "ts_gateway" = Some (JStr (lit "2026-01-05T12:00:01Z"))
    /\ field resp "features_note" = Some (JStr (lit "finnhub: timeout"))
    /\ field resp "cache_age_seconds" = Some (JInt 30).
Proof.
  eexists. split; [vm_compute; reflexivity|].
  destruct (run_response_fields (bi := example_builtins) one_liner_down
              default_config default_urls clock (lit "AAPL") start _
              ltac:(vm_compute; reflexivity))
    as (ctx & rec & _ & _ & Ht & _).
  split; [exact Ht|]. vm_compute. repeat split; reflexivity.
Defined.

Lemma run_body_not_dict_witness :
  fst (run_with list_body) = inl AttributeError
  /\ sent (net (snd (run_with list_body)))
     = [features_request default_urls (lit "AAPL")]
  /\ fst (run_with string_recommendation) = inl AttributeError
  /\ length (sent (net (snd (run_with string_recommendation)))) = 2%nat.
Proof.
  pose proof (run_body_not_dict (bi := example_builtins) list_body
                default_config default_urls clock (lit "AAPL") start
                ltac:(vm_compute; discriminate)) as [H1 _].
  pose proof (run_body_not_dict (bi := example_builtins)
                string_recommendation default_config default_urls clock
                (lit "AAPL") start ltac:(vm_compute; discriminate))
    as [_ H2].
  unfold run_with.
  rewrite (H1 (JList []) eq_refl ltac:(intros [m Hm]; discriminate Hm)).
  rewrite (H2 context_body (JStr (lit "IRON_CONDOR")) eq_refl
             ltac:(eexists; reflexivity) eq_refl
             ltac:(intros [m Hm]; discriminate Hm)).
  repeat split; reflexivity.
Defined.

End RunFacts.
